(** * PromptAssistant: the turn store, the stream reconstructor and the
      retry controller of [app.py], embedded in Rocq.

    The Python program is embedded shallowly:
    - a Python [str] is the list of its Unicode code points (so that [len]
      is [length] and [+] is [++]);
    - the [ConversationManager] instance, the file [index.json], the wall
      clock and the chat-completion endpoint make up a [World] that every
      operation threads explicitly (a small state monad [M]);
    - a generator is represented by the list of the values it yields, in
      order, together with the world it leaves behind. *)

From Stdlib Require Import ZArith QArith List Bool Lia Sorted.
From Stdlib Require Ascii String DecimalString.
From stdpp Require Import gmap list option sorting.

Open Scope Z_scope.
Open Scope list_scope.

(** ** Python strings *)

(** A code point. *)
Definition char : Type := N.

(** A Python [str]. *)
Definition str : Type := list char.

(** [str.isspace] on one code point: the table CPython uses for
    [str.strip()] without argument. *)
Definition isspace (c : char) : bool :=
  ((9 <=? c) && (c <=? 13))%N || ((28 <=? c) && (c <=? 32))%N
  || (c =? 133)%N || (c =? 160)%N || (c =? 5760)%N
  || ((8192 <=? c) && (c <=? 8202))%N
  || (c =? 8232)%N || (c =? 8233)%N || (c =? 8239)%N || (c =? 8287)%N
  || (c =? 12288)%N.

(** [s.lstrip(...)], [s.rstrip(...)], [s.strip(...)] for a set of
    characters given as a predicate. *)
Fixpoint lstrip_with (p : char -> bool) (s : str) : str :=
  match s with
  | [] => []
  | c :: s' => if p c then lstrip_with p s' else s
  end.

Definition rstrip_with (p : char -> bool) (s : str) : str :=
  rev (lstrip_with p (rev s)).

Definition strip_with (p : char -> bool) (s : str) : str :=
  rstrip_with p (lstrip_with p s).

(** [s.strip()] *)
Definition strip (s : str) : str := strip_with isspace s.

(** [s == t] on strings. *)
Definition str_eqb (s t : str) : bool := bool_decide (s = t).

(** Truthiness of a string: [if s:]. *)
Definition truthy (s : str) : bool :=
  match s with [] => false | _ => true end.

(** ** Data model *)

(** The [role] of a message: the strings ["user"], ["assistant"] and
    ["system"]. *)
Inductive Role : Type := User | Assistant | System.

#[global] Instance Role_eq_dec : EqDecision Role.
Proof. solve_decision. Defined.

(** One entry of a conversation's ["messages"] list. *)
Record Message : Type := mkMessage {
  role : Role;
  content : str;
  timestamp : str
}.

(** One value of [self.conversations].  The keys ["messages"], ["likes"]
    and ["dislikes"] may be missing from a conversation read from
    [index.json]; the code tests for them, so they are optional here. *)
Record Conversation : Type := mkConversation {
  conv_id : str;
  title : str;
  created_at : str;
  updated_at : str;
  messages : option (list Message);
  likes : option Z;
  dislikes : option Z
}.

Definition set_title (t : str) (c : Conversation) : Conversation :=
  mkConversation (conv_id c) t (created_at c) (updated_at c)
                 (messages c) (likes c) (dislikes c).

Definition set_updated_at (t : str) (c : Conversation) : Conversation :=
  mkConversation (conv_id c) (title c) (created_at c) t
                 (messages c) (likes c) (dislikes c).

Definition set_messages (ms : list Message) (c : Conversation) : Conversation :=
  mkConversation (conv_id c) (title c) (created_at c) (updated_at c)
                 (Some ms) (likes c) (dislikes c).

Definition set_likes (n : Z) (c : Conversation) : Conversation :=
  mkConversation (conv_id c) (title c) (created_at c) (updated_at c)
                 (messages c) (Some n) (dislikes c).

Definition set_dislikes (n : Z) (c : Conversation) : Conversation :=
  mkConversation (conv_id c) (title c) (created_at c) (updated_at c)
                 (messages c) (likes c) (Some n).

(** [conversation.get("messages", [])], [.get("likes", 0)],
    [.get("dislikes", 0)] *)
Definition get_messages (c : Conversation) : list Message :=
  default [] (messages c).
Definition get_likes (c : Conversation) : Z := default 0 (likes c).
Definition get_dislikes (c : Conversation) : Z := default 0 (dislikes c).

(** ** The chat-completion endpoint *)

(** [chunk.choices[0].delta] of one streamed event: either attribute may
    be absent or [None]. *)
Record Chunk : Type := mkChunk {
  delta_reasoning_content : option str;
  delta_content : option str
}.

(** [response.choices[i].message] of a non-streamed response. *)
Record ChoiceMessage : Type := mkChoiceMessage {
  message_content : option str;
  message_reasoning_content : option str
}.

(** A non-streamed response: its list of choices. *)
Definition Response : Type := list ChoiceMessage.

(** The arguments of [client.chat.completions.create]. *)
Record Request : Type := mkRequest {
  req_messages : list (Role * str);
  req_model : str;
  req_stream : bool
}.

(** The object a successful call of [create] returns: iterated as
    [events] when the request had [stream=True], read as [response] when
    it had [stream=False]. *)
Record Handle : Type := mkHandle {
  events : list Chunk;
  response : Response
}.

(** What one call of [create] does: raise (the exception is kept as the
    text [str(e)]) or return. *)
Inductive Outcome : Type :=
| Raises (e : str)
| Returns (h : Handle).

(** What the program does to the outside, in order. *)
Inductive Effect : Type :=
| EffRequest (r : Request)
| EffSleep (seconds : Z).

(** ** The world *)

(** [conversations], [current_conversation_id] are the fields of the
    single [ConversationManager]; [index_json] is what was last written
    to [conversations/index.json].  [datetime_now n] is the text
    [datetime.now().strftime(...)] gives at the [n]-th reading of the
    clock and [time_time n] is the value of [time.time()] there, in
    seconds (an exact rational stands for the float).  [endpoint n r] is
    what the [n]-th call of [create] does on request [r];
    [system_prompt k] is [prompts.get(k, prompts["default"])["system"]]
    for the prompt table [load_prompts()] returns. *)
Record World : Type := mkWorld {
  conversations : gmap str Conversation;
  current_conversation_id : option str;
  index_json : gmap str Conversation;
  tick : nat;
  calls : nat;
  effects : list Effect;
  datetime_now : nat -> str;
  time_time : nat -> Q;
  endpoint : nat -> Request -> Outcome;
  system_prompt : str -> str
}.

Definition set_conversations (cs : gmap str Conversation) (w : World) : World :=
  mkWorld cs (current_conversation_id w) (index_json w) (tick w) (calls w)
          (effects w) (datetime_now w) (time_time w) (endpoint w)
          (system_prompt w).

Definition set_current (cid : option str) (w : World) : World :=
  mkWorld (conversations w) cid (index_json w) (tick w) (calls w)
          (effects w) (datetime_now w) (time_time w) (endpoint w)
          (system_prompt w).

Definition set_tick (n : nat) (w : World) : World :=
  mkWorld (conversations w) (current_conversation_id w) (index_json w) n
          (calls w) (effects w) (datetime_now w) (time_time w) (endpoint w)
          (system_prompt w).

Definition set_calls (n : nat) (w : World) : World :=
  mkWorld (conversations w) (current_conversation_id w) (index_json w)
          (tick w) n (effects w) (datetime_now w) (time_time w) (endpoint w)
          (system_prompt w).

Definition set_effects (l : list Effect) (w : World) : World :=
  mkWorld (conversations w) (current_conversation_id w) (index_json w)
          (tick w) (calls w) l (datetime_now w) (time_time w) (endpoint w)
          (system_prompt w).

(** ** The state monad *)

Definition M (A : Type) : Type := World -> A * World.

Definition ret {A : Type} (a : A) : M A := fun w => (a, w).

Definition bind {A B : Type} (c : M A) (k : A -> M B) : M B :=
  fun w => let (a, w') := c w in k a w'.

Notation "'do' x <- c ; k" := (bind c (fun x => k))
  (at level 10, x name, c at level 100, k at level 200).
Notation "'do_' c ; k" := (bind c (fun _ => k))
  (at level 10, c at level 100, k at level 200).

(** [datetime.now().strftime("%Y-%m-%d %H:%M:%S")] *)
Definition now : M str :=
  fun w => (datetime_now w (tick w), set_tick (S (tick w)) w).

(** [time.time()] *)
Definition time_now : M Q :=
  fun w => (time_time w (tick w), set_tick (S (tick w)) w).

(** [time.sleep(n)] *)
Definition sleep (n : Z) : M unit :=
  fun w => (tt, set_effects (effects w ++ [EffSleep n]) w).

(** [client.chat.completions.create(...)]: one request to the endpoint. *)
Definition create (r : Request) : M Outcome :=
  fun w => (endpoint w (calls w) r,
            set_calls (S (calls w))
                      (set_effects (effects w ++ [EffRequest r]) w)).

(** [self.conversations[conversation_id] = c] and in-place updates of the
    conversation stored there. *)
Definition put_conversation (cid : str) (c : Conversation) : M unit :=
  fun w => (tt, set_conversations (<[cid := c]> (conversations w)) w).

(** ** ConversationManager *)

(** [_save_conversations_index]: the whole dictionary is written out. *)
Definition _save_conversations_index : M unit :=
  fun w => (tt, mkWorld (conversations w) (current_conversation_id w)
                        (conversations w) (tick w) (calls w) (effects w)
                        (datetime_now w) (time_time w) (endpoint w)
                        (system_prompt w)).

(** [not content or content.strip() == ""] *)
Definition is_blank (content : str) : bool :=
  negb (truthy content) || str_eqb (strip content) [].

(** [messages and messages[-1]["role"] == role and
    messages[-1]["content"] == content] *)
Definition duplicates_last (msgs : list Message) (r : Role) (c : str) : bool :=
  match list.last msgs with
  | None => false
  | Some m => bool_decide (role m = r) && str_eqb (content m) c
  end.

(** [add_message], lines 177-202. *)
Definition add_message (conversation_id : str) (r : Role) (c : str) : M bool :=
  fun w =>
    match conversations w !! conversation_id with
    | None => (false, w)
    | Some conv =>
        (* lines 182-183: a missing message list becomes the empty list *)
        let conv1 := match messages conv with
                     | None => set_messages [] conv
                     | Some _ => conv
                     end in
        let w1 := match messages conv with
                  | None => snd (put_conversation conversation_id conv1 w)
                  | Some _ => w
                  end in
        (* lines 186-187 *)
        if is_blank c then (false, w1)
        else
          let msgs := get_messages conv1 in
          (* lines 190-192 *)
          if duplicates_last msgs r c then (true, w1)
          else
            (* lines 194-202 *)
            (do t1 <- now;
             let conv2 := set_messages (msgs ++ [mkMessage r c t1]) conv1 in
             do_ put_conversation conversation_id conv2;
             do t2 <- now;
             do_ put_conversation conversation_id (set_updated_at t2 conv2);
             do_ _save_conversations_index;
             ret true) w1
    end.

(** [update_last_message], lines 204-219. *)
Definition update_last_message (conversation_id : str) (c : str) : M bool :=
  fun w =>
    match conversations w !! conversation_id with
    | None => (false, w)
    | Some conv =>
        match list.last (get_messages conv) with
        | None => (false, w)
        | Some m =>
            (do t1 <- now;
             let msgs := removelast (get_messages conv)
                         ++ [mkMessage (role m) c t1] in
             let conv1 := set_messages msgs conv in
             do_ put_conversation conversation_id conv1;
             do t2 <- now;
             do_ put_conversation conversation_id (set_updated_at t2 conv1);
             do_ _save_conversations_index;
             ret true) w
        end
    end.

(** [remove_last_message], lines 221-235. *)
Definition remove_last_message (conversation_id : str) : M bool :=
  fun w =>
    match conversations w !! conversation_id with
    | None => (false, w)
    | Some conv =>
        match get_messages conv with
        | [] => (false, w)
        | _ :: _ =>
            (let conv1 := set_messages (removelast (get_messages conv)) conv in
             do_ put_conversation conversation_id conv1;
             do t <- now;
             do_ put_conversation conversation_id (set_updated_at t conv1);
             do_ _save_conversations_index;
             ret true) w
        end
    end.

(** [like_conversation], lines 237-248. *)
Definition like_conversation (conversation_id : str) : M bool :=
  fun w =>
    match conversations w !! conversation_id with
    | None => (false, w)
    | Some conv =>
        (let conv1 := match likes conv with
                      | None => set_likes 0 conv
                      | Some _ => conv
                      end in
         let conv2 := set_likes (get_likes conv1 + 1) conv1 in
         do_ put_conversation conversation_id conv2;
         do t <- now;
         do_ put_conversation conversation_id (set_updated_at t conv2);
         do_ _save_conversations_index;
         ret true) w
    end.

(** [dislike_conversation], lines 250-261. *)
Definition dislike_conversation (conversation_id : str) : M bool :=
  fun w =>
    match conversations w !! conversation_id with
    | None => (false, w)
    | Some conv =>
        (let conv1 := match dislikes conv with
                      | None => set_dislikes 0 conv
                      | Some _ => conv
                      end in
         let conv2 := set_dislikes (get_dislikes conv1 + 1) conv1 in
         do_ put_conversation conversation_id conv2;
         do t <- now;
         do_ put_conversation conversation_id (set_updated_at t conv2);
         do_ _save_conversations_index;
         ret true) w
    end.

(** The stored messages of a conversation, [[]] when there is none. *)
Definition stored_messages (w : World) (cid : str) : list Message :=
  match conversations w !! cid with
  | None => []
  | Some conv => get_messages conv
  end.

(** The title of a conversation that has none: "新对话". *)
Definition default_title : str := [26032; 23545; 35805]%N.

(** [int(x)] on a clock value: truncation toward zero. *)
Definition py_int (q : Q) : Z := Z.quot (Qnum q) (Zpos (Qden q)).

(** [str(n)] on an integer: its decimal text. *)
Definition str_of_Z (z : Z) : str :=
  map Ascii.N_of_ascii
      (String.list_ascii_of_string (DecimalString.NilZero.string_of_int (Z.to_int z))).

(** [create_conversation], lines 119-139. *)
Definition create_conversation (title_arg : option str) : M str :=
  do t <- time_now;
  let conversation_id := str_of_Z (py_int t) in
  do timestamp <- now;
  let ttl := match title_arg with
             | Some s => if truthy s then s else default_title
             | None => default_title
             end in
  do_ put_conversation conversation_id
        (mkConversation conversation_id ttl timestamp timestamp
                        (Some []) (Some 0) (Some 0));
  do_ _save_conversations_index;
  fun w => (conversation_id, set_current (Some conversation_id) w).

(** ** Stream reconstructor *)

(** A yielded pair [(reasoning, full_response)]. *)
Definition Snapshot : Type := (str * str)%type.

(** The local variables of [process_stream_response]. *)
Record StreamState : Type := mkStreamState {
  full_response : str;
  reasoning : str;
  buffer : str;
  last_yield_time : Q;
  char_count : nat
}.

(** The list [['\n', '。', '！', '？', '.', '!', '?']] of line 69. *)
Definition punctuation : list str :=
  [[10]; [12290]; [65281]; [65311]; [46]; [33]; [63]]%N.

(** Lines 66-70, evaluated after [char_count] has been increased. *)
Definition should_yield (current_time last : Q) (count : nat) (c : str) : bool :=
  Qle_bool (3 # 100) (current_time - last)
  || (5 <=? count)%nat
  || bool_decide (c ∈ punctuation).

(** Lines 52-55: the reasoning part of one event. *)
Definition step_reasoning (chunk : Chunk) (st : StreamState)
  : StreamState * list Snapshot :=
  match delta_reasoning_content chunk with
  | Some rc =>
      let st' := mkStreamState (full_response st) (reasoning st ++ rc)
                               (buffer st) (last_yield_time st) (char_count st) in
      (st', [(reasoning st', full_response st')])
  | None => (st, [])
  end.

(** Lines 58-76: the content part of one event, at clock value
    [current_time]. *)
Definition append_content (c : str) (current_time : Q) (st : StreamState)
  : StreamState * list Snapshot :=
  let full := full_response st ++ c in
  let buf := buffer st ++ c in
  let count := (char_count st + length c)%nat in
  if should_yield current_time (last_yield_time st) count c
  then (mkStreamState full (reasoning st) [] current_time 0,
        [(reasoning st, full)])
  else (mkStreamState full (reasoning st) buf (last_yield_time st) count, []).

Definition step_content (chunk : Chunk) (st : StreamState)
  : M (StreamState * list Snapshot) :=
  match delta_content chunk with
  | Some c => do current_time <- time_now; ret (append_content c current_time st)
  | None => ret (st, [])
  end.

(** One iteration of the loop of line 50. *)
Definition stream_step (chunk : Chunk) (st : StreamState)
  : M (StreamState * list Snapshot) :=
  let (st1, ys1) := step_reasoning chunk st in
  do r <- step_content chunk st1;
  ret (fst r, ys1 ++ snd r).

(** The loop of lines 50-76: final state and snapshots in order. *)
Fixpoint stream_loop (stream : list Chunk) (st : StreamState)
  : M (StreamState * list Snapshot) :=
  match stream with
  | [] => ret (st, [])
  | chunk :: rest =>
      do r1 <- stream_step chunk st;
      do r2 <- stream_loop rest (fst r1);
      ret (fst r2, snd r1 ++ snd r2)
  end.

(** Lines 79-80: the last flush. *)
Definition final_flush (st : StreamState) : list Snapshot :=
  if truthy (buffer st) then [(reasoning st, full_response st)] else [].

(** [process_stream_response], lines 43-82: the snapshots it yields and
    the pair it returns. *)
Definition process_stream_response (stream : list Chunk)
  : M (list Snapshot * Snapshot) :=
  do t0 <- time_now;
  do r <- stream_loop stream (mkStreamState [] [] [] t0 0);
  ret (snd r ++ final_flush (fst r), (reasoning (fst r), full_response (fst r))).

(** [process_non_stream_response], lines 85-95.  A [None] content or
    reasoning is represented by the empty string: the callers only test
    the value for truth. *)
Definition process_non_stream_response (r : Response) : Snapshot :=
  match r with
  | [] => ([], [])
  | m :: _ => (default [] (message_reasoning_content m),
               default [] (message_content m))
  end.

(** The content fragments of a stream, in arrival order. *)
Definition content_fragments (stream : list Chunk) : list str :=
  omap delta_content stream.

(** The reasoning fragments of a stream, in arrival order. *)
Definition reasoning_fragments (stream : list Chunk) : list str :=
  omap delta_reasoning_content stream.

(** ** Title generation *)

(** [messages[-6:]] *)
Definition last6 {A : Type} (l : list A) : list A :=
  skipn (length l - 6)%nat l.

Definition role_label (r : Role) : str :=
  match r with
  | User => [29992; 25143]%N      (* "用户" *)
  | _ => [21161; 25163]%N         (* "助手" *)
  end.

(** The fixed system instruction of line 329. *)
Definition title_system_prompt : str :=
  [20320; 26159; 19968; 20010; 19987; 19994; 30340; 23545; 35805; 26631;
   39064; 29983; 25104; 22120; 12290; 35831; 26681; 25454; 29992; 25143;
   21644; 21161; 25163; 30340; 23545; 35805; 20869; 23481; 65292; 29983;
   25104; 19968; 20010; 31616; 27905; 12289; 20934; 30830; 30340; 26631;
   39064; 65288; 19981; 36229; 36807; 50; 48; 20010; 23383; 31526; 65289;
   12290; 26631; 39064; 24212; 35813; 27010; 25324; 23545; 35805; 30340;
   20027; 35201; 20027; 39064; 25110; 26680; 24515; 38382; 39064; 12290;
   21482; 36820; 22238; 26631; 39064; 65292; 19981; 35201; 20854; 20182;
   20869; 23481; 12290]%N.

(** "请为以下对话生成标题：\n\n" *)
Definition title_user_prefix : str :=
  [35831; 20026; 20197; 19979; 23545; 35805; 29983; 25104; 26631; 39064;
   65306; 10; 10]%N.

(** The characters stripped at line 344: the double quote (34) and the
    single quote (39). *)
Definition is_quote (c : char) : bool := (c =? 34)%N || (c =? 39)%N.

(** Lines 322-325. *)
Definition conversation_text (msgs : list Message) : str :=
  flat_map (fun msg => role_label (role msg) ++ [58; 32]%N ++ content msg ++ [10]%N)
           (last6 msgs).

(** [generate_conversation_title], lines 316-348.  The [try] of line 333
    catches whatever the request or the reading of its result raises, and
    the handler returns the default title.  The request parameters
    [max_tokens] and [temperature] are left out. *)
Definition generate_conversation_title (msgs : list Message) (model : str) : M str :=
  match msgs with
  | [] => ret default_title
  | _ :: _ =>
      let title_messages :=
        [(System, title_system_prompt);
         (User, title_user_prefix ++ conversation_text msgs)] in
      do o <- create (mkRequest title_messages model false);
      match o with
      | Returns h =>
          match response h with
          | m :: _ =>
              match message_content m with
              | Some c =>
                  let t := strip_with is_quote (strip c) in
                  ret (if truthy t then t else default_title)
              | None => ret default_title
              end
          | [] => ret default_title
          end
      | Raises _ => ret default_title
      end
  end.

(** [update_title_with_ai], lines 141-156.  [generate_conversation_title]
    raises nothing on well-formed messages, so the handler of lines
    153-155 has no counterpart here. *)
Definition update_title_with_ai (conversation_id : str) (model : str) : M bool :=
  fun w =>
    match conversations w !! conversation_id with
    | None => (false, w)
    | Some conv =>
        let msgs := get_messages conv in
        if (2 <=? length msgs)%nat then
          (do new_title <- generate_conversation_title msgs model;
           do_ put_conversation conversation_id (set_title new_title conv);
           do_ _save_conversations_index;
           ret true) w
        else (false, w)
    end.

(** ** Retry controller and response generation *)

(** How the run of a generator ends. *)
Inductive Exn : Type := NameError | ValueError.

Inductive Ending : Type :=
| Returned
| Failed (e : Exn)
| OutOfFuel.

(** The run of a generator to exhaustion: what it yielded, how it ended. *)
Record GenRun (Y : Type) : Type := mkGenRun {
  yielded : list Y;
  ending : Ending
}.
Arguments mkGenRun {Y} _ _.
Arguments yielded {Y} _.
Arguments ending {Y} _.

(** A value yielded by [generate_response], with the conversations as
    they are when control passes to the consumer. *)
Record Yielded : Type := mkYielded {
  snapshot : Snapshot;
  store_at_yield : gmap str Conversation
}.

Definition max_retries : Z := 3.

(** "API调用最终失败: " *)
Definition final_error_prefix : str :=
  [65; 80; 73; 35843; 29992; 26368; 32456; 22833; 36133; 58; 32]%N.

(** The fixed guidance of line 396: a heading and four hints. *)
Definition solutions_heading : str :=       (* "可能的解决方案:" *)
  [21487; 33021; 30340; 35299; 20915; 26041; 26696; 58]%N.
Definition hint_network : str :=            (* "1. 检查网络连接" *)
  [49; 46; 32; 26816; 26597; 32593; 32476; 36830; 25509]%N.
Definition hint_credentials : str :=        (* "2. 确认API密钥有效" *)
  [50; 46; 32; 30830; 35748; 65; 80; 73; 23494; 38053; 26377; 25928]%N.
Definition hint_vpn : str :=                (* "3. 尝试使用VPN" *)
  [51; 46; 32; 23581; 35797; 20351; 29992; 86; 80; 78]%N.
Definition hint_retry_later : str :=        (* "4. 稍后重试" *)
  [52; 46; 32; 31245; 21518; 37325; 35797]%N.

Definition final_error_hints : str :=
  [10; 10]%N ++ solutions_heading
  ++ [10]%N ++ hint_network
  ++ [10]%N ++ hint_credentials
  ++ [10]%N ++ hint_vpn
  ++ [10]%N ++ hint_retry_later.

(** Line 396. *)
Definition final_error_msg (e : str) : str :=
  final_error_prefix ++ e ++ final_error_hints.

(** How the loop of lines 381-404 is left. *)
Inductive Attempted : Type :=
| Established (h : Handle)     (* [break] at line 389 *)
| Exhausted (e : str)          (* [retry_count >= max_retries] at line 395 *)
| NoBreak                      (* the loop condition failed *)
| NoFuel.

(** The loop of lines 381-404 up to the point where it is left; the
    handling of [Exhausted] (lines 396-401) is in [generate_response]. *)
Fixpoint request_loop (fuel : nat) (req : Request) (retry_count : Z) : M Attempted :=
  match fuel with
  | O => ret NoFuel
  | S fuel' =>
      if retry_count <? max_retries then
        do o <- create req;
        match o with
        | Returns h => ret (Established h)
        | Raises e =>
            let retry_count := retry_count + 1 in
            if max_retries <=? retry_count then ret (Exhausted e)
            else do_ sleep (retry_count * 2);
                 request_loop fuel' req retry_count
        end
      else ret NoBreak
  end.

(** [conversation_manager.add_message(conversation_manager.current_conversation_id, ...)]:
    [None] is a key of no dictionary. *)
Definition add_message_current (r : Role) (c : str) : M bool :=
  fun w =>
    match current_conversation_id w with
    | None => (false, w)
    | Some cid => add_message cid r c w
    end.

(** Lines 362-375: the messages sent to the endpoint. *)
Definition build_messages (sys : str) (history : list (str * str)) (message : str)
  : list (Role * str) :=
  [(System, sys)]
  ++ flat_map (fun p => [(User, fst p); (Assistant, snd p)]) history
  ++ [(User, message)].

(** Lines 408-412: the last non-empty content among the snapshots. *)
Definition final_content_of (ys : list Snapshot) : str :=
  fold_left (fun acc y => if truthy (snd y) then snd y else acc) ys [].

(** Lines 355-356: [None] and the empty string are false. *)
Definition ensure_conversation : M unit :=
  fun w =>
    match current_conversation_id w with
    | Some (_ :: _) => (tt, w)
    | _ => (tt, snd (create_conversation None w))
    end.

(** Lines 396-401 and 406-420: what follows the loop, by the way it was
    left. *)
Definition after_loop (a : Attempted) (stream_mode : bool) : M (GenRun Yielded) :=
  match a with
  | Exhausted e =>
      do_ add_message_current Assistant (final_error_msg e);
      fun w => (mkGenRun [mkYielded ([], final_error_msg e) (conversations w)]
                         Returned, w)
  | Established h =>
      if stream_mode then
        do store <- (fun w => (conversations w, w));
        do r <- process_stream_response (events h);
        let final_content := final_content_of (fst r) in
        do_ (if truthy final_content
             then add_message_current Assistant final_content
             else ret false);
        ret (mkGenRun (map (fun s => mkYielded s store) (fst r)) Returned)
      else
        let rc := process_non_stream_response (response h) in
        do_ add_message_current Assistant (snd rc);
        fun w => (mkGenRun [mkYielded rc (conversations w)] Returned, w)
  | NoBreak => ret (mkGenRun [] (Failed NameError))
  | NoFuel => ret (mkGenRun [] OutOfFuel)
  end.

(** [generate_response], lines 351-420.  The request parameter [user] and
    the [print] calls are left out. *)
Definition generate_response (message : str) (history : list (str * str))
    (stream_mode : bool) (model prompt_template : str) : M (GenRun Yielded) :=
  do_ ensure_conversation;
  do_ add_message_current User message;
  do sys <- (fun w => (system_prompt w prompt_template, w));
  let req := mkRequest (build_messages sys history message) model stream_mode in
  do a <- request_loop (Z.to_nat max_retries) req 0;
  after_loop a stream_mode.

(** ** The handlers of the interface *)

(** One entry of the chat history shown to the user. *)
Record ChatMsg : Type := mkChatMsg {
  chat_role : Role;
  chat_content : str
}.

(** The values a handler yields that vary: the chat history, the
    thinking text, and whether the refreshed conversation list is
    appended as a seventh value.  The conversation id, the history stack
    and the index are yielded back as they were received. *)
Record UiOut : Type := mkUiOut {
  out_chatbot : list ChatMsg;
  out_thinking : str;
  out_refresh : bool
}.

(** Lines 693-697: the content of the most recent user entry. *)
Definition last_user_message (chat_history : list ChatMsg) : option str :=
  chat_content <$> find (fun m => bool_decide (chat_role m = User)) (rev chat_history).

(** [chat_history[-1]["role"] == "assistant"] *)
Definition ends_with_assistant (chat_history : list ChatMsg) : bool :=
  match list.last chat_history with
  | Some m => bool_decide (chat_role m = Assistant)
  | None => false
  end.

(** Lines 703-706. *)
Definition remove_trailing_assistant (chat_history : list ChatMsg)
    (conversation_id : str) : M (list ChatMsg) :=
  if ends_with_assistant chat_history then
    do_ remove_last_message conversation_id;
    ret (removelast chat_history)
  else ret chat_history.

(** Lines 711-714: the (user, assistant) pairs of adjacent entries. *)
Fixpoint pair_history (chat_history : list ChatMsg) : list (str * str) :=
  match chat_history with
  | a :: (b :: _) as rest =>
      (if bool_decide (chat_role a = User) && bool_decide (chat_role b = Assistant)
       then [(chat_content a, chat_content b)] else [])
      ++ pair_history rest
  | _ => []
  end.

(** Lines 721-724: the loop over the snapshots, from the current content
    [am] of [assistant_message] and the current [thinking]. *)
Fixpoint consume (base : list ChatMsg) (ys : list Snapshot) (am thinking : str)
  : list UiOut * str * str :=
  match ys with
  | [] => ([], am, thinking)
  | (th, c) :: rest =>
      let am' := if truthy c then c else am in
      let '(outs, am'', th'') := consume base rest am' th in
      (mkUiOut (base ++ [mkChatMsg Assistant am']) th false :: outs, am'', th'')
  end.

(** Lines 716-731. *)
Definition regenerate_stream (chat_history : list ChatMsg) (conversation_id : str)
    (message model prompt_template : str) : M (GenRun UiOut) :=
  do g <- generate_response message (pair_history chat_history) true
                            model prompt_template;
  let '(outs, am, thinking) :=
    consume chat_history (map snapshot (yielded g)) [] [] in
  match ending g with
  | Returned =>
      if truthy am then
        do_ update_last_message conversation_id am;
        do_ update_title_with_ai conversation_id model;
        ret (mkGenRun
               (outs ++ [mkUiOut (chat_history ++ [mkChatMsg Assistant am])
                                 thinking true])
               Returned)
      else ret (mkGenRun outs Returned)
  | e => ret (mkGenRun outs e)
  end.

(** Lines 733-743.  With [stream_mode=False] the generator
    [generate_response] yields once and ends, so unpacking it into the
    two names of line 739 raises [ValueError] after the generator has run
    to its end; lines 740-743 are not reached. *)
Definition regenerate_plain (chat_history : list ChatMsg) (conversation_id : str)
    (message model prompt_template : str) : M (GenRun UiOut) :=
  do g <- generate_response message (pair_history chat_history) false
                            model prompt_template;
  match ending g with
  | Returned => ret (mkGenRun [] (Failed ValueError))
  | e => ret (mkGenRun [] e)
  end.

(** [retry_last_message], lines 688-743. *)
Definition retry_last_message (chat_history : list ChatMsg) (conversation_id : str)
    (stream_mode : bool) (model prompt_template : str)
    (message_history : list (list ChatMsg)) (current_index : Z)
  : M (GenRun UiOut) :=
  match chat_history with
  | [] => ret (mkGenRun [] Returned)
  | _ :: _ =>
      if current_index <? 0 then ret (mkGenRun [] Returned)
      else
        match last_user_message chat_history with
        | Some (c :: u) =>
            do chat_history' <- remove_trailing_assistant chat_history conversation_id;
            if stream_mode
            then regenerate_stream chat_history' conversation_id (c :: u)
                                   model prompt_template
            else regenerate_plain chat_history' conversation_id (c :: u)
                                  model prompt_template
        | _ => ret (mkGenRun [] Returned)
        end
  end.

(** What the chat display holds: a chat history, or (after an undo) a
    prefix of the history stack. *)
Inductive Visible : Type :=
| Chat (h : list ChatMsg)
| Stack (s : list (list ChatMsg)).

(** [undo_last_message], lines 679-685: the pair it returns.  It refers
    neither to [conversation_manager] nor to the client. *)
Definition undo_last_message (chat_history : Visible)
    (message_history : list (list ChatMsg)) (current_index : Z)
  : M (Visible * Z) :=
  if 0 <? current_index then
    let new_index := current_index - 1 in
    let new_history :=
      if 0 <=? new_index
      then firstn (Z.to_nat (new_index + 1)) message_history
      else [] in
    ret (Stack new_history, new_index)
  else ret (chat_history, current_index).

(** [n] presses of the undo button: each call receives the history and
    the index the previous call returned. *)
Fixpoint undo_repeat (n : nat) (chat_history : Visible)
    (message_history : list (list ChatMsg)) (current_index : Z)
  : M (Visible * Z) :=
  match n with
  | O => ret (chat_history, current_index)
  | S n' =>
      do r <- undo_last_message chat_history message_history current_index;
      undo_repeat n' (fst r) message_history (snd r)
  end.

(** The number of user entries among stored messages. *)
Definition user_count (msgs : list Message) : nat :=
  length (filter (fun m => role m = User) msgs).

(** The world [add_message] leaves when it appends. *)
Definition appended (cid : str) (conv : Conversation) (r : Role) (c : str)
    (w : World) : World :=
  let conv' := set_updated_at (datetime_now w (S (tick w)))
                 (set_messages (get_messages conv
                                ++ [mkMessage r c (datetime_now w (tick w))])
                               conv) in
  let cs := <[cid := conv']> (conversations w) in
  mkWorld cs (current_conversation_id w) cs (S (S (tick w))) (calls w)
          (effects w) (datetime_now w) (time_time w) (endpoint w)
          (system_prompt w).

(** ** Concrete worlds used by the examples *)

(** The conversation id ["1"]. *)
Definition cid1 : str := [49]%N.

(** A conversation with the given title and messages. *)
Definition conversation_of (t : str) (ms : list Message) : Conversation :=
  mkConversation cid1 t [48]%N [48]%N (Some ms) (Some 0) (Some 0).

(** A world that holds one conversation, active and saved, whose clock
    reads [n] seconds at the [n]-th reading and whose endpoint behaves as
    [ep]. *)
Definition world_of (conv : Conversation) (ep : nat -> Request -> Outcome) : World :=
  mkWorld {[ cid1 := conv ]} (Some cid1) {[ cid1 := conv ]} 0 0 []
          (fun n => str_of_Z (Z.of_nat n)) (fun n => inject_Z (Z.of_nat n))
          ep (fun _ => []).

(** An endpoint that is down. *)
Definition endpoint_down : nat -> Request -> Outcome :=
  fun _ _ => Raises [100; 111; 119; 110]%N.   (* "down" *)

(** "Hello", "Hi." and their stored forms. *)
Definition hello : str := [72; 101; 108; 108; 111]%N.
Definition hi_dot : str := [72; 105; 46]%N.
Definition msg_hello : Message := mkMessage User hello [48]%N.
Definition msg_hi : Message := mkMessage Assistant hi_dot [48]%N.

(** ** Notions used to state the properties of the stream reconstructor *)

(** The state [process_stream_response] starts its loop in (lines 44-48)
    and the world after the clock reading of line 47. *)
Definition stream_start (w : World) : StreamState :=
  mkStreamState [] [] [] (time_time w (tick w)) 0.

Definition after_clock_reading (w : World) : World := set_tick (S (tick w)) w.

(** The state of the loop after the events [pre]. *)
Definition state_after (pre : list Chunk) (w : World) : StreamState :=
  fst (fst (stream_loop pre (stream_start w) (after_clock_reading w))).

(** The content of the last snapshot of [ys], or [prev] when [ys] is
    empty. *)
Definition last_content (prev : option str) (ys : list Snapshot) : option str :=
  match list.last ys with
  | Some y => Some (snd y)
  | None => prev
  end.

(** What holds between two iterations of the loop: the characters counted
    are those of the buffer, and when the buffer is empty the content of
    the last snapshot (the empty string if there is none) is the whole
    response so far. *)
Definition stream_inv (prev : option str) (st : StreamState) : Prop :=
  (buffer st = [] -> default [] prev = full_response st)
  /\ char_count st = length (buffer st).

(** The flush rule in the words of the specification: 30ms elapsed, or 5
    characters accumulated, or the fragment ends in one of the
    punctuation characters. *)
Definition spec_should_yield (current_time last : Q) (count : nat) (c : str) : bool :=
  Qle_bool (3 # 100) (current_time - last)
  || (5 <=? count)%nat
  || match list.last c with
     | Some ch => bool_decide ([ch] ∈ punctuation)
     | None => false
     end.

(** A world whose clock stands still at 0. *)
Definition world_frozen (conv : Conversation) (ep : nat -> Request -> Outcome) : World :=
  mkWorld {[ cid1 := conv ]} (Some cid1) {[ cid1 := conv ]} 0 0 []
          (fun n => str_of_Z (Z.of_nat n)) (fun _ => 0%Q)
          ep (fun _ => []).

(** An event that carries content only. *)
Definition content_chunk (c : str) : Chunk := mkChunk None (Some c).

(** ** Notions used to state the properties of the retry controller *)

(** The requests and sleeps of [n] attempts at request [req], the first
    [n - 1] of which fail: a sleep of [2 * i] seconds follows the [i]-th
    failed attempt. *)
Definition attempts_effects (n : nat) (req : Request) : list Effect :=
  flat_map (fun i => [EffRequest req; EffSleep (Z.of_nat i * 2)]) (seq 1 (n - 1))
  ++ [EffRequest req].

(** The world after these attempts. *)
Definition after_attempts (n : nat) (req : Request) (w : World) : World :=
  set_calls (calls w + n)%nat
            (set_effects (effects w ++ attempts_effects n req) w).

(** The seconds slept and the number of requests made, read off the
    effects. *)
Definition sleeps_of (l : list Effect) : list Z :=
  flat_map (fun e => match e with EffSleep n => [n] | EffRequest _ => [] end) l.

Definition is_request (e : Effect) : bool :=
  match e with EffRequest _ => true | EffSleep _ => false end.

Definition attempts_of (l : list Effect) : nat :=
  length (List.filter is_request l).

(** The active conversation, when there is one, is in the store. *)
Definition active_known (w : World) : Prop :=
  match current_conversation_id w with
  | Some (c :: s) => is_Some (conversations w !! (c :: s))
  | _ => True
  end.

(** An endpoint that streams the single content fragment [c] on every
    call. *)
Definition endpoint_streams (c : str) : nat -> Request -> Outcome :=
  fun _ _ => Returns (mkHandle [content_chunk c] []).

(** An endpoint that fails on the first [k] calls and then answers with
    the single content fragment ["Hi."]. *)
Definition endpoint_fails (k : nat) : nat -> Request -> Outcome :=
  fun n _ => if (n <? k)%nat then Raises [100; 111; 119; 110]%N
             else Returns (mkHandle [content_chunk hi_dot] []).

(** Two worlds that differ at most in the store, its index and the
    number of clock readings. *)
Definition same_outside (w w' : World) : Prop :=
  calls w' = calls w
  /\ effects w' = effects w
  /\ endpoint w' = endpoint w
  /\ system_prompt w' = system_prompt w
  /\ datetime_now w' = datetime_now w
  /\ time_time w' = time_time w.

(** Two worlds with the same store, index and active conversation. *)
Definition same_store (w w' : World) : Prop :=
  conversations w' = conversations w
  /\ current_conversation_id w' = current_conversation_id w
  /\ index_json w' = index_json w.

(** The world in which [generate_response] starts its requests: after
    lines 355-359. *)
Definition turn_started (message : str) (w : World) : World :=
  snd (add_message_current User message (snd (ensure_conversation w))).

(** The request [generate_response] sends. *)
Definition request_of (w : World) (message : str) (history : list (str * str))
    (stream_mode : bool) (model prompt_template : str) : Request :=
  mkRequest (build_messages (system_prompt w prompt_template) history message)
            model stream_mode.

(** ** ConversationManager: the remaining methods *)

(** [get_conversation], lines 158-160.  [None] stands for the empty
    dictionary the method returns for an unknown id. *)
Definition get_conversation (conversation_id : str) (w : World)
  : option Conversation :=
  conversations w !! conversation_id.

(** [get_conversation_history], lines 162-175. *)
Definition get_conversation_history (conversation_id : str) (w : World)
  : list ChatMsg :=
  match get_conversation conversation_id w with
  | None => []
  | Some conv =>
      map (fun m => mkChatMsg (role m) (content m)) (get_messages conv)
  end.

(** [get_conversation_stats], lines 263-272: the pair (likes, dislikes). *)
Definition get_conversation_stats (conversation_id : str) (w : World) : Z * Z :=
  match conversations w !! conversation_id with
  | None => (0, 0)
  | Some conv => (get_likes conv, get_dislikes conv)
  end.

(** [update_conversation_title], lines 274-280. *)
Definition update_conversation_title (conversation_id : str) (t : str) : M bool :=
  fun w =>
    match conversations w !! conversation_id with
    | Some conv =>
        (do_ put_conversation conversation_id (set_title t conv);
         do_ _save_conversations_index;
         ret true) w
    | None => (false, w)
    end.

(** [delete_conversation] of the manager, lines 282-288. *)
Definition delete_conversation (conversation_id : str) : M bool :=
  fun w =>
    match conversations w !! conversation_id with
    | Some _ =>
        (do_ (fun w => (tt, set_conversations
                              (delete conversation_id (conversations w)) w));
         do_ _save_conversations_index;
         ret true) w
    | None => (false, w)
    end.

(** ** The remaining handlers of the interface *)

(** The value a handler receives from the conversation dropdown or the
    id state: nothing, an id, or a (title, id) pair. *)
Inductive Selected : Type :=
| NoSelection
| ById (id : str)
| ByPair (ttl id : str).

(** [not conversation_id] *)
Definition nothing_selected (s : Selected) : bool :=
  match s with
  | NoSelection => true
  | ById id => negb (truthy id)
  | ByPair _ _ => false
  end.

(** Lines 604-605 and the like: a pair stands for its second component. *)
Definition selected_id (s : Selected) : str :=
  match s with
  | NoSelection => []
  | ById id => id
  | ByPair _ id => id
  end.

(** The text of the statistics line: "**当前对话统计：** 👍 l 👎 d". *)
Definition stats_text (l d : Z) : str :=
  [42; 42; 24403; 21069; 23545; 35805; 32479; 35745; 65306; 42; 42; 32;
   128077; 32]%N
  ++ str_of_Z l ++ [32; 128078; 32]%N ++ str_of_Z d.

(** [update_stats_display], lines 667-676. *)
Definition update_stats_display (s : Selected) (w : World) : str :=
  if nothing_selected s then stats_text 0 0
  else let st := get_conversation_stats (selected_id s) w in
       stats_text (fst st) (snd st).

(** [load_conversation], lines 599-626: the chat history, the title and
    the statistics line it returns. *)
Definition load_conversation (s : Selected) : M (list ChatMsg * str * str) :=
  if nothing_selected s then ret ([], [], stats_text 0 0)
  else
    let conversation_id := selected_id s in
    do_ (fun w => (tt, set_current (Some conversation_id) w));
    fun w =>
      let conversation := get_conversation conversation_id w in
      let ttl := match conversation with Some c => title c | None => [] end in
      let chat_history :=
        match conversation with
        | Some c => map (fun m => mkChatMsg (role m) (content m)) (get_messages c)
        | None => []
        end in
      let st := get_conversation_stats conversation_id w in
      ((chat_history, ttl, stats_text (fst st) (snd st)), w).

(** The handler [delete_conversation] of the interface, lines 629-645.
    Of the five values it returns, the four that go to the id state, the
    title box, the chat display and the statistics line (outputs of
    lines 854-856); the first one goes to the dropdown. *)
Definition ui_delete_conversation (s : Selected)
  : M (str * str * list ChatMsg * str) :=
  if nothing_selected s then ret ([], [], [], stats_text 0 0)
  else
    do_ delete_conversation (selected_id s);
    do new_id <- create_conversation None;
    do_ (fun w => (tt, set_current (Some new_id) w));
    ret (new_id, [], [], stats_text 0 0).

(** [rename_conversation], lines 648-660: whether the title was
    updated. *)
Definition rename_conversation (s : Selected) (new_title : str) : M bool :=
  if nothing_selected s || negb (truthy new_title) then ret false
  else update_conversation_title (selected_id s) new_title.

(** [like_message] and [dislike_message], lines 746-767: the statistics
    line they return; the history, the stack and the index are returned
    as received.  Inside the test a pair is replaced by its second
    component, so [update_stats_display] receives the id itself. *)
Definition like_message (s : Selected) : M str :=
  if nothing_selected s then fun w => (update_stats_display s w, w)
  else
    let conversation_id := selected_id s in
    do_ like_conversation conversation_id;
    fun w => (update_stats_display (ById conversation_id) w, w).

Definition dislike_message (s : Selected) : M str :=
  if nothing_selected s then fun w => (update_stats_display s w, w)
  else
    let conversation_id := selected_id s in
    do_ dislike_conversation conversation_id;
    fun w => (update_stats_display (ById conversation_id) w, w).

(** A world with two conversations, ["1"] and ["2"], the first active. *)
Definition cid2 : str := [50]%N.

Definition world_of_two (c1 c2 : Conversation)
    (ep : nat -> Request -> Outcome) : World :=
  mkWorld (<[cid2 := c2]> {[ cid1 := c1 ]}) (Some cid1)
          (<[cid2 := c2]> {[ cid1 := c1 ]}) 0 0 []
          (fun n => str_of_Z (Z.of_nat n)) (fun n => inject_Z (Z.of_nat n))
          ep (fun _ => []).

(** ** Notions used to state further properties of the stream reconstructor *)

(** A snapshot extends another when its reasoning and its content
    extend the other's. *)
Definition extends (a b : Snapshot) : Prop :=
  fst a `prefix_of` fst b /\ snd a `prefix_of` snd b.

(** The snapshot a state of the loop stands for. *)
Definition snapshot_of (st : StreamState) : Snapshot :=
  (reasoning st, full_response st).

(** One more snapshot is due when the buffer is not empty. *)
Definition pending (st : StreamState) : nat :=
  if truthy (buffer st) then 1%nat else 0%nat.

(** ** The handlers that send and edit *)

(** What [respond] hands back besides its outputs: the conversation id,
    the history stack and the index that every output carries. *)
Record Turn : Type := mkTurn {
  turn_run : GenRun UiOut;
  turn_conversation_id : option str;
  turn_message_history : list (list ChatMsg);
  turn_index : Z
}.

(** Every output of [respond] carries the refreshed conversation list. *)
Definition with_refresh (o : UiOut) : UiOut :=
  mkUiOut (out_chatbot o) (out_thinking o) true.

(** [respond], lines 536-583.  With [stream_mode=False] the unpacking of
    line 578 raises [ValueError] once the generator has run to its end,
    as in [retry_last_message]; lines 579-583 are not reached. *)
Definition respond (message : str) (chat_history : list ChatMsg)
    (conversation_id : option str) (stream_mode : bool)
    (model prompt_template : str) (message_history : list (list ChatMsg))
    (current_index : Z) : M Turn :=
  if negb (truthy message) then
    ret (mkTurn (mkGenRun [] Returned) conversation_id message_history
                current_index)
  else
    (* lines 541-543 *)
    do cid <- match conversation_id with
              | Some (c :: s) => ret (c :: s)
              | _ => do new_id <- create_conversation None;
                     do_ (fun w => (tt, set_current (Some new_id) w));
                     ret new_id
              end;
    (* lines 546-547 *)
    let chat_history1 := chat_history ++ [mkChatMsg User message] in
    do_ add_message cid User message;
    (* lines 550-551 *)
    let new_message_history := message_history ++ [chat_history1] in
    let new_current_index := Z.of_nat (length new_message_history) - 1 in
    (* lines 554-557 *)
    let history := pair_history chat_history1 in
    if stream_mode then
      do g <- generate_response message history true model prompt_template;
      let '(outs, am, thinking) :=
        consume chat_history1 (map snapshot (yielded g)) [] [] in
      let outs' := map with_refresh outs in
      match ending g with
      | Returned =>
          do_ (if truthy am then
                 do_ update_last_message cid am;
                 do_ update_title_with_ai cid model;
                 ret tt
               else ret tt);
          ret (mkTurn (mkGenRun outs' Returned) (Some cid)
                      new_message_history new_current_index)
      | e => ret (mkTurn (mkGenRun outs' e) (Some cid)
                         new_message_history new_current_index)
      end
    else
      do g <- generate_response message history false model prompt_template;
      ret (mkTurn (mkGenRun [] (match ending g with
                                | Returned => Failed ValueError
                                | e => e
                                end))
                  (Some cid) new_message_history new_current_index).

(** Lines 789-794: the content of the most recent user entry is
    replaced; [None] when there is no user entry. *)
Fixpoint replace_first_user (edited : str) (l : list ChatMsg)
  : option (list ChatMsg) :=
  match l with
  | [] => None
  | m :: l' =>
      if bool_decide (chat_role m = User)
      then Some (mkChatMsg (chat_role m) edited :: l')
      else cons m <$> replace_first_user edited l'
  end.

Definition replace_last_user (edited : str) (chat_history : list ChatMsg)
  : option (list ChatMsg) :=
  @rev ChatMsg <$> replace_first_user edited (rev chat_history).

(** [edit_message], lines 770-781: the text put into the edit box. *)
Definition edit_message (chat_history : list ChatMsg) (current_index : Z) : str :=
  match chat_history with
  | [] => []
  | _ :: _ =>
      if current_index <? 0 then []
      else default [] (last_user_message chat_history)
  end.

(** [save_edited_message], lines 784-837.  Its outputs are those of
    [retry_last_message] with one more constant value, which hides the
    edit box. *)
Definition save_edited_message (edited_content : str)
    (chat_history : list ChatMsg) (conversation_id : str) (stream_mode : bool)
    (model prompt_template : str) (message_history : list (list ChatMsg))
    (current_index : Z) : M (GenRun UiOut) :=
  match edited_content, chat_history with
  | [], _ | _, [] => ret (mkGenRun [] Returned)
  | _ :: _, _ :: _ =>
      (* lines 789-794 *)
      do chat_history1 <-
        match replace_last_user edited_content chat_history with
        | Some h => do_ update_last_message conversation_id edited_content;
                    ret h
        | None => ret chat_history
        end;
      (* lines 797-800 *)
      do chat_history2 <- remove_trailing_assistant chat_history1 conversation_id;
      if stream_mode
      then regenerate_stream chat_history2 conversation_id edited_content
                             model prompt_template
      else regenerate_plain chat_history2 conversation_id edited_content
                            model prompt_template
  end.

(** A display in which user and assistant entries alternate, given by
    its exchanges. *)
Definition exchanges (ps : list (str * str)) : list ChatMsg :=
  flat_map (fun p => [mkChatMsg User (fst p); mkChatMsg Assistant (snd p)]) ps.

(** ** The stream reconstructor seen from its snapshots *)

(** The snapshots yielded inside the loop of lines 50-76 for the events
    [stream]. *)
Definition loop_snapshots (stream : list Chunk) (w : World) : list Snapshot :=
  snd (fst (stream_loop stream (stream_start w) (after_clock_reading w))).

(** The clock value read for the content fragment that comes after the
    events [pre]: the clock is read once before the loop and once for
    every content fragment. *)
Definition clock_at (pre : list Chunk) (w : World) : Q :=
  time_time w (S (tick w) + length (content_fragments pre)).

(** Whether the event [chunk], coming after the events [pre], makes the
    loop yield a snapshot for its content fragment.  This is read off
    the snapshots yielded: those for [pre], one for the reasoning
    fragment of [chunk] if it has one, and then one more or not. *)
Definition content_emitted (pre : list Chunk) (chunk : Chunk) (w : World) : bool :=
  (length (loop_snapshots pre w)
   + match delta_reasoning_content chunk with Some _ => 1 | None => 0 end
   <? length (loop_snapshots (pre ++ [chunk]) w))%nat.

(** In the words of the amended claim, over the events received so far,
    latest first: the clock value at the last snapshot emitted for a
    content fragment, or at the start of the stream when there was
    none, and the number of characters of the content fragments
    received since. *)
Fixpoint spec_since_emission (w : World) (rev_pre : list Chunk) : Q * nat :=
  match rev_pre with
  | [] => (time_time w (tick w), 0%nat)
  | chunk :: rev_earlier =>
      match delta_content chunk with
      | None => spec_since_emission w rev_earlier
      | Some c =>
          if content_emitted (rev rev_earlier) chunk w
          then (clock_at (rev rev_earlier) w, 0%nat)
          else (fst (spec_since_emission w rev_earlier),
                (snd (spec_since_emission w rev_earlier) + length c)%nat)
      end
  end.

Definition spec_last_emission_time (w : World) (pre : list Chunk) : Q :=
  fst (spec_since_emission w (rev pre)).

Definition spec_chars_since_emission (w : World) (pre : list Chunk) : nat :=
  snd (spec_since_emission w (rev pre)).

(** ** The reply of a turn *)



(** * Properties *)

(** Runs the store steps of a method: binds, clock readings, updates of
    the dictionary and the write of the index. *)
Ltac run_store :=
  unfold bind, now, put_conversation, _save_conversations_index, ret;
  simpl.

(** ** Strings *)

Lemma lstrip_with_all (p : char -> bool) (s : str) :
  Forall (fun c => p c = true) s -> lstrip_with p s = [].
Proof.
  induction 1 as [|c s Hc _ IH]; simpl; [reflexivity|].
  now rewrite Hc.
Qed.

Lemma lstrip_with_nil_inv (p : char -> bool) (s : str) :
  lstrip_with p s = [] -> Forall (fun c => p c = true) s.
Proof.
  induction s as [|c s IH]; simpl; intros H; [constructor|].
  destruct (p c) eqn:Hc; [|discriminate].
  constructor; auto.
Qed.

Lemma lstrip_with_Forall_inv (p : char -> bool) (s : str) :
  Forall (fun c => p c = true) (lstrip_with p s) ->
  Forall (fun c => p c = true) s.
Proof.
  induction s as [|c s IH]; simpl; intros H; [constructor|].
  destruct (p c) eqn:Hc; [constructor; auto | exact H].
Qed.

(** [is_blank] holds exactly of the strings made of whitespace only, the
    empty string among them. *)
Lemma is_blank_iff (c : str) :
  is_blank c = true <-> Forall (fun ch => isspace ch = true) c.
Proof.
  unfold is_blank, strip, strip_with, rstrip_with, str_eqb. split.
  - intros H. apply orb_true_iff in H as [H|H].
    + destruct c; [constructor | discriminate].
    + apply bool_decide_eq_true in H.
      apply (f_equal (@rev char)) in H. rewrite rev_involutive in H.
      simpl in H. apply lstrip_with_nil_inv in H.
      apply lstrip_with_Forall_inv.
      apply Forall_rev in H. now rewrite rev_involutive in H.
  - intros H. apply orb_true_iff. right. apply bool_decide_eq_true.
    now rewrite (lstrip_with_all _ _ H).
Qed.


(** ** Turn store: appending *)

Lemma stored_messages_lookup (w : World) (cid : str) (conv : Conversation) :
  conversations w !! cid = Some conv ->
  stored_messages w cid = get_messages conv.
Proof. intros H. unfold stored_messages. now rewrite H. Qed.

Lemma add_message_unknown (w : World) (cid : str) (r : Role) (c : str) :
  conversations w !! cid = None -> add_message cid r c w = (false, w).
Proof. intros H. unfold add_message. now rewrite H. Qed.

Lemma add_message_blank (w : World) (cid : str) (r : Role) (c : str) :
  is_blank c = true ->
  fst (add_message cid r c w) = false
  /\ stored_messages (snd (add_message cid r c w)) cid = stored_messages w cid
  /\ index_json (snd (add_message cid r c w)) = index_json w.
Proof.
  intros Hb. unfold add_message.
  destruct (conversations w !! cid) as [conv|] eqn:Hl; [|auto].
  rewrite Hb. simpl. repeat split.
  - destruct (messages conv) as [ms|] eqn:Hm; [reflexivity|].
    unfold stored_messages. simpl. rewrite lookup_insert_eq, Hl.
    unfold get_messages. simpl. now rewrite Hm.
  - now destruct (messages conv).
Qed.

Lemma add_message_duplicate (w : World) (cid : str) (r : Role) (c : str)
    (conv : Conversation) :
  conversations w !! cid = Some conv ->
  is_blank c = false ->
  duplicates_last (get_messages conv) r c = true ->
  add_message cid r c w = (true, w).
Proof.
  intros Hl Hb Hd. unfold add_message. rewrite Hl, Hb.
  destruct (messages conv) as [ms|] eqn:Hm.
  - now rewrite Hd.
  - unfold get_messages in Hd. rewrite Hm in Hd. discriminate.
Qed.

Lemma add_message_fresh (w : World) (cid : str) (r : Role) (c : str)
    (conv : Conversation) :
  conversations w !! cid = Some conv ->
  is_blank c = false ->
  duplicates_last (get_messages conv) r c = false ->
  add_message cid r c w = (true, appended cid conv r c w).
Proof.
  intros Hl Hb Hd. unfold add_message. rewrite Hl, Hb.
  destruct (messages conv) as [ms|] eqn:Hm.
  - rewrite Hd. unfold appended, bind, now, put_conversation,
      _save_conversations_index, ret; simpl.
    rewrite insert_insert_eq. reflexivity.
  - unfold get_messages in Hd |- *. rewrite Hm in Hd. simpl in Hd.
    simpl. unfold appended, bind, now, put_conversation,
      _save_conversations_index, ret, get_messages; simpl.
    rewrite Hm. rewrite !insert_insert_eq. reflexivity.
Qed.

Lemma duplicates_last_snoc (msgs : list Message) (r : Role) (c t : str) :
  duplicates_last (msgs ++ [mkMessage r c t]) r c = true.
Proof.
  unfold duplicates_last, str_eqb. rewrite last_snoc. simpl.
  now rewrite !bool_decide_eq_true_2.
Qed.

Lemma appended_lookup (w : World) (cid : str) (r : Role) (c : str)
    (conv : Conversation) :
  conversations (appended cid conv r c w) !! cid =
  Some (set_updated_at (datetime_now w (S (tick w)))
          (set_messages (get_messages conv
                         ++ [mkMessage r c (datetime_now w (tick w))]) conv)).
Proof. unfold appended. simpl. apply lookup_insert_eq. Qed.

(** C7 (as amended).  For a conversation in the store and content that is
    neither empty nor whitespace-only: an append that repeats the role
    and content of the last stored message returns true and changes
    nothing at all; any other append returns true, adds the message at
    the end with the next clock reading as timestamp, sets [updated_at]
    to the reading after it and writes the index; and a second identical
    append right after the first changes nothing, so two consecutive
    identical appends store the message once. *)
Theorem add_message_consecutive_duplicates
    (w : World) (cid : str) (conv : Conversation) (r : Role) (c : str) :
  conversations w !! cid = Some conv ->
  is_blank c = false ->
  let w1 := snd (add_message cid r c w) in
  (duplicates_last (get_messages conv) r c = true ->
     add_message cid r c w = (true, w))
  /\ (duplicates_last (get_messages conv) r c = false ->
        fst (add_message cid r c w) = true
        /\ stored_messages w1 cid
           = get_messages conv ++ [mkMessage r c (datetime_now w (tick w))]
        /\ (exists conv', conversations w1 !! cid = Some conv'
                          /\ updated_at conv' = datetime_now w (S (tick w))
                          /\ title conv' = title conv
                          /\ created_at conv' = created_at conv)
        /\ index_json w1 = conversations w1)
  /\ add_message cid r c w1 = (true, w1).
Proof.
  intros Hl Hb w1. split; [|split].
  - intros Hd. now apply add_message_duplicate with conv.
  - intros Hd. subst w1.
    rewrite (add_message_fresh w cid r c conv Hl Hb Hd). simpl.
    split; [reflexivity|]. split; [|split].
    + unfold stored_messages. simpl. now rewrite lookup_insert_eq.
    + eexists. split; [apply lookup_insert_eq|]. now simpl.
    + reflexivity.
  - subst w1. destruct (duplicates_last (get_messages conv) r c) eqn:Hd.
    + rewrite (add_message_duplicate w cid r c conv Hl Hb Hd). simpl.
      now apply add_message_duplicate with conv.
    + rewrite (add_message_fresh w cid r c conv Hl Hb Hd). simpl.
      eapply add_message_duplicate; [apply appended_lookup | exact Hb |].
      unfold get_messages at 1. simpl. apply duplicates_last_snoc.
Qed.

Lemma add_message_consecutive_duplicates_witness :
  let w := world_of (conversation_of default_title []) endpoint_down in
  let w1 := snd (add_message cid1 User hello w) in
  stored_messages w1 cid1 = [mkMessage User hello [48]%N]
  /\ add_message cid1 User hello w1 = (true, w1).
Proof.
  intros w w1.
  pose proof (add_message_consecutive_duplicates w cid1
                (conversation_of default_title []) User hello
                eq_refl eq_refl) as [_ [H2 H3]].
  split; [|exact H3].
  destruct (H2 eq_refl) as [_ [Hs _]]. exact Hs.
Defined.

(** C7 fails as stated: the content [" "] is not empty, yet appending it
    to a conversation without messages (so it repeats nothing) returns
    false and stores nothing. *)
Lemma add_message_nonempty_counterexample :
  ~ (forall (w : World) (cid : str) (conv : Conversation) (r : Role) (c : str),
        conversations w !! cid = Some conv ->
        c <> [] ->
        (duplicates_last (get_messages conv) r c = true ->
           fst (add_message cid r c w) = true
           /\ stored_messages (snd (add_message cid r c w)) cid
              = get_messages conv)
        /\ (duplicates_last (get_messages conv) r c = false ->
              fst (add_message cid r c w) = true
              /\ stored_messages (snd (add_message cid r c w)) cid
                 = get_messages conv
                   ++ [mkMessage r c (datetime_now w (tick w))])).
Proof.
  intros H.
  destruct (H (world_of (conversation_of default_title []) endpoint_down)
              cid1 (conversation_of default_title []) User [32%N]
              eq_refl ltac:(discriminate)) as [_ H2].
  destruct (H2 eq_refl) as [Hf _]. vm_compute in Hf. discriminate.
Qed.

(** ** Turn store: blank content *)

(** Appending content that is empty or made of whitespace only returns
    false, leaves the stored messages of the conversation (hence their
    number) as they are and writes nothing to the index. *)
Theorem add_message_blank_keeps_messages
    (w : World) (cid : str) (r : Role) (c : str) :
  Forall (fun ch => isspace ch = true) c ->
  fst (add_message cid r c w) = false
  /\ length (stored_messages (snd (add_message cid r c w)) cid)
     = length (stored_messages w cid)
  /\ stored_messages (snd (add_message cid r c w)) cid = stored_messages w cid
  /\ index_json (snd (add_message cid r c w)) = index_json w.
Proof.
  intros Hc. apply is_blank_iff in Hc.
  destruct (add_message_blank w cid r c Hc) as (H1 & H2 & H3).
  rewrite H2. auto.
Qed.

Lemma add_message_blank_keeps_messages_witness :
  let w := world_of (conversation_of default_title [msg_hello]) endpoint_down in
  length (stored_messages (snd (add_message cid1 Assistant [32; 9; 12288]%N w)) cid1)
  = 1%nat.
Proof.
  intros w.
  destruct (add_message_blank_keeps_messages w cid1 Assistant [32; 9; 12288]%N)
    as (_ & H & _).
  - repeat constructor.
  - exact H.
Defined.

(** [add_message] keeps the stored messages free of blank content: if no
    stored message of the conversation is blank before the call, none is
    after it. *)
Theorem add_message_preserves_nonblank
    (w : World) (cid : str) (r : Role) (c : str) :
  Forall (fun m => is_blank (content m) = false) (stored_messages w cid) ->
  Forall (fun m => is_blank (content m) = false)
         (stored_messages (snd (add_message cid r c w)) cid).
Proof.
  intros Hinv.
  destruct (conversations w !! cid) as [conv|] eqn:Hl.
  - destruct (is_blank c) eqn:Hb.
    + destruct (add_message_blank w cid r c Hb) as (_ & H & _). now rewrite H.
    + destruct (duplicates_last (get_messages conv) r c) eqn:Hd.
      * now rewrite (add_message_duplicate w cid r c conv Hl Hb Hd).
      * rewrite (add_message_fresh w cid r c conv Hl Hb Hd). simpl.
        unfold stored_messages at 1. rewrite appended_lookup.
        unfold get_messages at 1. simpl.
        rewrite (stored_messages_lookup _ _ _ Hl) in Hinv.
        apply Forall_app. split; [exact Hinv|]. now repeat constructor.
  - now rewrite add_message_unknown.
Qed.

Lemma add_message_preserves_nonblank_witness :
  Forall (fun m => is_blank (content m) = false)
    (stored_messages
       (snd (add_message cid1 Assistant hi_dot
               (world_of (conversation_of default_title [msg_hello])
                         endpoint_down))) cid1).
Proof.
  apply add_message_preserves_nonblank. repeat constructor.
Defined.

(** C8, the failing input.  [update_last_message] has no such guard: on
    a conversation that ends with the reply ["Hi."] it stores the
    whitespace-only content ["  "] in place of it, returns true and
    writes the index, so that a persisted message has blank content.  A
    handler gets there by itself: when the endpoint streams the single
    fragment [" "] to a retry, [add_message] refuses the blank reply and
    [update_last_message] then writes [" "] over the content of the
    stored user message. *)
Theorem update_last_message_persists_blank :
  let w := world_of (conversation_of default_title [msg_hello; msg_hi])
                    endpoint_down in
  let w' := snd (update_last_message cid1 [32; 32]%N w) in
  let v := world_of (conversation_of default_title [msg_hello; msg_hi])
                    (endpoint_streams [32]%N) in
  let v' := snd (retry_last_message
                   [mkChatMsg User hello; mkChatMsg Assistant hi_dot]
                   cid1 true [] [] [] 0 v) in
  fst (update_last_message cid1 [32; 32]%N w) = true
  /\ (get_messages <$> index_json w' !! cid1)
     = Some [msg_hello; mkMessage Assistant [32; 32]%N [48]%N]
  /\ is_blank [32; 32]%N = true
  /\ (get_messages <$> index_json v' !! cid1)
     = Some [mkMessage User [32]%N [51]%N]
  /\ is_blank [32]%N = true.
Proof. vm_compute. auto. Qed.

(** ** Turn store: likes and dislikes *)

(** C10.  On a known id [like_conversation] returns true, raises the
    likes counter by exactly one, sets [updated_at] to the next clock
    reading and writes the index; the title, the messages, [created_at],
    the id and the dislikes counter of the conversation, and every other
    conversation of the store, are as before.  [dislike_conversation]
    does the same with the two counters exchanged.  On an unknown id both
    return false and leave the world as it is. *)
Theorem like_dislike_frame (w : World) (cid : str) :
  match conversations w !! cid with
  | Some conv =>
      (let w' := snd (like_conversation cid w) in
       fst (like_conversation cid w) = true
       /\ (exists conv', conversations w' !! cid = Some conv'
             /\ get_likes conv' = get_likes conv + 1
             /\ updated_at conv' = datetime_now w (tick w)
             /\ dislikes conv' = dislikes conv
             /\ title conv' = title conv
             /\ messages conv' = messages conv
             /\ created_at conv' = created_at conv
             /\ conv_id conv' = conv_id conv)
       /\ delete cid (conversations w') = delete cid (conversations w)
       /\ current_conversation_id w' = current_conversation_id w
       /\ index_json w' = conversations w')
      /\
      (let w' := snd (dislike_conversation cid w) in
       fst (dislike_conversation cid w) = true
       /\ (exists conv', conversations w' !! cid = Some conv'
             /\ get_dislikes conv' = get_dislikes conv + 1
             /\ updated_at conv' = datetime_now w (tick w)
             /\ likes conv' = likes conv
             /\ title conv' = title conv
             /\ messages conv' = messages conv
             /\ created_at conv' = created_at conv
             /\ conv_id conv' = conv_id conv)
       /\ delete cid (conversations w') = delete cid (conversations w)
       /\ current_conversation_id w' = current_conversation_id w
       /\ index_json w' = conversations w')
  | None =>
      like_conversation cid w = (false, w)
      /\ dislike_conversation cid w = (false, w)
  end.
Proof.
  unfold like_conversation, dislike_conversation.
  destruct (conversations w !! cid) as [conv|] eqn:Hl; [|auto].
  run_store.
  rewrite !insert_insert_eq, !delete_insert_eq.
  split.
  - split; [reflexivity|]. split; [|auto].
    eexists. split; [apply lookup_insert_eq|].
    destruct (likes conv) eqn:E; unfold get_likes; simpl; rewrite ?E; simpl;
      repeat split; reflexivity.
  - split; [reflexivity|]. split; [|auto].
    eexists. split; [apply lookup_insert_eq|].
    destruct (dislikes conv) eqn:E; unfold get_dislikes; simpl; rewrite ?E;
      simpl; repeat split; reflexivity.
Qed.

(** Every other conversation is untouched by a like or a dislike. *)
Lemma like_dislike_other (w : World) (cid cid' : str) :
  cid <> cid' ->
  conversations (snd (like_conversation cid w)) !! cid'
  = conversations w !! cid'
  /\ conversations (snd (dislike_conversation cid w)) !! cid'
     = conversations w !! cid'.
Proof.
  intros Hne. unfold like_conversation, dislike_conversation.
  destruct (conversations w !! cid) as [conv|] eqn:Hl; [|auto].
  run_store.
  now rewrite !lookup_insert_ne by exact Hne.
Qed.

(** ** Stream reconstructor *)

Lemma last_content_app (prev : option str) (ys1 ys2 : list Snapshot) :
  last_content prev (ys1 ++ ys2) = last_content (last_content prev ys1) ys2.
Proof.
  unfold last_content. rewrite last_app.
  destruct (list.last ys2); reflexivity.
Qed.

Lemma stream_step_inv (chunk : Chunk) (st : StreamState) (w : World)
    (prev : option str) :
  stream_inv prev st ->
  let r := fst (stream_step chunk st w) in
  stream_inv (last_content prev (snd r)) (fst r)
  /\ full_response (fst r) = full_response st ++ default [] (delta_content chunk)
  /\ reasoning (fst r)
     = reasoning st ++ default [] (delta_reasoning_content chunk).
Proof.
  intros [Hbuf Hcnt].
  unfold stream_step, step_reasoning, step_content, append_content,
    bind, ret, time_now, stream_inv.
  destruct chunk as [[rc|] [c|]]; simpl;
    try destruct (should_yield _ _ _ _); simpl;
    rewrite ?app_nil_r, ?length_app; repeat split; auto.
  - intros H. apply app_eq_nil in H as [H ->]. now rewrite app_nil_r.
  - intros H. apply app_eq_nil in H as [H ->]. rewrite app_nil_r. auto.
Qed.

Lemma stream_loop_inv (stream : list Chunk) :
  forall (st : StreamState) (w : World) (prev : option str),
  stream_inv prev st ->
  let r := fst (stream_loop stream st w) in
  stream_inv (last_content prev (snd r)) (fst r)
  /\ full_response (fst r)
     = full_response st ++ concat (content_fragments stream)
  /\ reasoning (fst r)
     = reasoning st ++ concat (reasoning_fragments stream).
Proof.
  induction stream as [|chunk rest IH]; intros st w prev Hinv; simpl.
  - unfold ret; simpl. rewrite !app_nil_r. auto.
  - pose proof (stream_step_inv chunk st w prev Hinv) as Hstep.
    unfold bind, ret.
    destruct (stream_step chunk st w) as [[st1 ys1] w1]. simpl in Hstep.
    destruct Hstep as (Hinv1 & Hf1 & Hr1).
    specialize (IH st1 w1 _ Hinv1). simpl.
    destruct (stream_loop rest st1 w1) as [[st2 ys2] w2]. simpl in IH |- *.
    destruct IH as (Hinv2 & Hf2 & Hr2).
    rewrite last_content_app. split; [exact Hinv2|].
    rewrite Hf2, Hr2, Hf1, Hr1.
    unfold content_fragments, reasoning_fragments.
    destruct chunk as [[rc|] [c|]]; simpl; rewrite <- ?app_assoc, ?app_nil_r;
      auto.
Qed.

Lemma truthy_false_nil (s : str) : truthy s = false -> s = [].
Proof. destruct s; [reflexivity | discriminate]. Qed.

(** C1.  Whatever the events and the clock: the last snapshot
    [process_stream_response] yields has as content the concatenation of
    all content fragments in arrival order (and when it yields nothing,
    there was no content: the concatenation is empty); the pair it
    returns holds the concatenated reasoning and content; and its
    snapshots are those of the loop followed, exactly when the buffer is
    not empty at the end of the input, by one more snapshot that carries
    the complete reasoning and content. *)
Theorem process_stream_response_final_content (w : World) (stream : list Chunk) :
  let r := fst (process_stream_response stream w) in
  let all_content := concat (content_fragments stream) in
  let all_reasoning := concat (reasoning_fragments stream) in
  let l := fst (stream_loop stream (stream_start w) (after_clock_reading w)) in
  match list.last (fst r) with
  | Some y => snd y = all_content
  | None => all_content = []
  end
  /\ snd r = (all_reasoning, all_content)
  /\ fst r = snd l ++ (if truthy (buffer (fst l))
                       then [(all_reasoning, all_content)] else []).
Proof.
  unfold process_stream_response, bind, ret, time_now, final_flush.
  fold (stream_start w). fold (after_clock_reading w).
  assert (Hinit : stream_inv None (stream_start w)) by (split; reflexivity).
  pose proof (stream_loop_inv stream _ (after_clock_reading w) None Hinit)
    as Hloop.
  destruct (stream_loop stream (stream_start w) (after_clock_reading w))
    as [[st ys] w']. simpl in Hloop |- *.
  destruct Hloop as ([Hbuf _] & Hf & Hr). simpl in Hf, Hr.
  rewrite Hf, Hr. split; [|split; reflexivity].
  destruct (truthy (buffer st)) eqn:Hb.
  - rewrite last_snoc. reflexivity.
  - rewrite app_nil_r. apply truthy_false_nil in Hb. specialize (Hbuf Hb).
    unfold last_content in Hbuf. rewrite <- Hf.
    destruct (list.last ys); simpl in Hbuf; auto.
Qed.

(** The scenario of the specification, with a clock that advances one
    second per reading: the fragments ["H"], ["i"], [" there."] give
    three snapshots, the last with content ["Hi there."]. *)
Example process_stream_response_scenario :
  fst (process_stream_response
         [content_chunk [72]%N; content_chunk [105]%N;
          content_chunk [32; 116; 104; 101; 114; 101; 46]%N]
         (world_of (conversation_of default_title []) endpoint_down))
  = ([([], [72]%N); ([], [72; 105]%N);
      ([], [72; 105; 32; 116; 104; 101; 114; 101; 46]%N)],
     ([], [72; 105; 32; 116; 104; 101; 114; 101; 46]%N)).
Proof. vm_compute. reflexivity. Qed.

Lemma should_yield_iff (current_time last : Q) (count : nat) (c : str) :
  should_yield current_time last count c = true <->
  (3 # 100 <= current_time - last)%Q \/ (5 <= count)%nat \/ c ∈ punctuation.
Proof.
  unfold should_yield. rewrite !orb_true_iff, Qle_bool_iff,
    Nat.leb_le, bool_decide_eq_true. tauto.
Qed.

Lemma state_after_count (pre : list Chunk) (w : World) :
  char_count (state_after pre w) = length (buffer (state_after pre w)).
Proof.
  unfold state_after.
  assert (Hinit : stream_inv None (stream_start w)) by (split; reflexivity).
  destruct (stream_loop_inv pre _ (after_clock_reading w) None Hinit)
    as ([_ H] & _). exact H.
Qed.

Lemma stream_loop_app (l1 l2 : list Chunk) :
  forall (st : StreamState) (w : World),
  stream_loop (l1 ++ l2) st w
  = let r1 := stream_loop l1 st w in
    let r2 := stream_loop l2 (fst (fst r1)) (snd r1) in
    ((fst (fst r2), snd (fst r1) ++ snd (fst r2)), snd r2).
Proof.
  induction l1 as [|chunk l1 IH]; intros st w.
  - simpl. unfold ret. cbn [fst snd app].
    now destruct (stream_loop l2 st w) as [[st2 ys2] w2].
  - simpl. unfold bind, ret.
    destruct (stream_step chunk st w) as [[st1 ys1] w1]. cbn [fst snd].
    rewrite IH. cbn zeta.
    destruct (stream_loop l1 st1 w1) as [[st2 ys2] w2]. cbn [fst snd].
    destruct (stream_loop l2 st2 w2) as [[st3 ys3] w3]. cbn [fst snd].
    now rewrite app_assoc.
Qed.

Lemma stream_loop_clock (stream : list Chunk) :
  forall (st : StreamState) (w : World),
  tick (snd (stream_loop stream st w))
  = (tick w + length (content_fragments stream))%nat
  /\ time_time (snd (stream_loop stream st w)) = time_time w.
Proof.
  induction stream as [|chunk rest IH]; intros st w.
  - simpl. split; [lia | reflexivity].
  - simpl. unfold bind, ret.
    assert (Hstep : tick (snd (stream_step chunk st w))
                    = (tick w + length (content_fragments [chunk]))%nat
                    /\ time_time (snd (stream_step chunk st w)) = time_time w).
    { unfold stream_step, step_reasoning, step_content, bind, ret, time_now,
        content_fragments.
      destruct (delta_reasoning_content chunk), (delta_content chunk) eqn:E;
        simpl; rewrite E; simpl; split; try reflexivity; lia. }
    destruct (stream_step chunk st w) as [[st1 ys1] w1]. cbn [fst snd] in *.
    specialize (IH st1 w1).
    destruct (stream_loop rest st1 w1) as [[st2 ys2] w2]. cbn [fst snd] in *.
    destruct Hstep as [Ht Hq], IH as [Ht' Hq'].
    split; [|congruence].
    rewrite Ht', Ht. unfold content_fragments. simpl.
    destruct (delta_content chunk); simpl; lia.
Qed.

(** One more event: the state and the snapshots of the loop. *)
Lemma loop_snoc (pre : list Chunk) (chunk : Chunk) (w : World) :
  let st := state_after pre w in
  let st1 := fst (step_reasoning chunk st) in
  let out := match delta_content chunk with
             | Some c => append_content c (clock_at pre w) st1
             | None => (st1, [])
             end in
  state_after (pre ++ [chunk]) w = fst out
  /\ loop_snapshots (pre ++ [chunk]) w
     = loop_snapshots pre w ++ snd (step_reasoning chunk st) ++ snd out.
Proof.
  cbn zeta. unfold state_after, loop_snapshots, clock_at.
  rewrite stream_loop_app. cbn zeta.
  destruct (stream_loop_clock pre (stream_start w) (after_clock_reading w))
    as [Ht Hq].
  destruct (stream_loop pre (stream_start w) (after_clock_reading w))
    as [[st ys] w1]. cbn [fst snd] in *.
  change (tick (after_clock_reading w)) with (S (tick w)) in Ht.
  change (time_time (after_clock_reading w)) with (time_time w) in Hq.
  simpl stream_loop. unfold bind, ret, stream_step.
  destruct (step_reasoning chunk st) as [st1 ys1]. cbn [fst snd].
  unfold step_content, bind, ret, time_now.
  destruct (delta_content chunk) as [c|]; cbn [fst snd].
  - rewrite Hq, Ht. rewrite !app_nil_r. split; reflexivity.
  - rewrite !app_nil_r. split; reflexivity.
Qed.

Lemma step_reasoning_fields (chunk : Chunk) (st : StreamState) :
  last_yield_time (fst (step_reasoning chunk st)) = last_yield_time st
  /\ char_count (fst (step_reasoning chunk st)) = char_count st
  /\ full_response (fst (step_reasoning chunk st)) = full_response st
  /\ reasoning (fst (step_reasoning chunk st))
     = reasoning st ++ default [] (delta_reasoning_content chunk)
  /\ snd (step_reasoning chunk st)
     = match delta_reasoning_content chunk with
       | Some _ => [(reasoning st ++ default [] (delta_reasoning_content chunk),
                     full_response st)]
       | None => []
       end.
Proof.
  unfold step_reasoning. destruct (delta_reasoning_content chunk); simpl;
    rewrite ?app_nil_r; auto.
Qed.

(** A snapshot is yielded for a content fragment exactly when the test
    of lines 66-70 holds in the state the loop is in. *)
Lemma content_emitted_should_yield (pre : list Chunk) (chunk : Chunk)
    (c : str) (w : World) :
  delta_content chunk = Some c ->
  content_emitted pre chunk w
  = should_yield (clock_at pre w) (last_yield_time (state_after pre w))
                 (char_count (state_after pre w) + length c) c.
Proof.
  intros Hc. unfold content_emitted.
  destruct (loop_snoc pre chunk w) as [_ Hs]. cbn zeta in Hs.
  rewrite Hs, Hc.
  destruct (step_reasoning_fields chunk (state_after pre w))
    as (Hl & Hn & _ & _ & Hy).
  rewrite Hy. unfold append_content. rewrite Hl, Hn.
  rewrite !length_app.
  destruct (should_yield _ _ _ c); destruct (delta_reasoning_content chunk);
    simpl; [apply Nat.ltb_lt | apply Nat.ltb_lt | apply Nat.ltb_ge
            | apply Nat.ltb_ge]; lia.
Qed.

(** What the loop keeps in [last_yield_time] and [char_count] is what
    the history of the stream says: the clock value at the last
    snapshot emitted for a content fragment, and the characters received
    since. *)
Lemma state_after_since (w : World) (pre : list Chunk) :
  last_yield_time (state_after pre w) = spec_last_emission_time w pre
  /\ char_count (state_after pre w) = spec_chars_since_emission w pre.
Proof.
  unfold spec_last_emission_time, spec_chars_since_emission.
  induction pre as [|chunk pre IH] using rev_ind; [split; reflexivity|].
  rewrite rev_app_distr. cbn [rev app spec_since_emission].
  rewrite rev_involutive.
  destruct (loop_snoc pre chunk w) as [Hst _]. cbn zeta in Hst.
  rewrite Hst.
  destruct (step_reasoning_fields chunk (state_after pre w))
    as (Hl & Hn & _).
  destruct (delta_content chunk) as [c|] eqn:Hc.
  - rewrite (content_emitted_should_yield pre chunk c w Hc).
    unfold append_content. rewrite Hl, Hn.
    destruct (should_yield _ _ _ c); cbn [fst snd last_yield_time char_count].
    + split; reflexivity.
    + destruct IH as [IH1 IH2]. now rewrite IH1, IH2.
  - cbn [fst]. now rewrite Hl, Hn.
Qed.

(** C3 (as amended).  Let the event [chunk] with the content fragment
    [c] come after any events [pre].  A snapshot is yielded for [c]
    when it is appended if and only if (a) the clock value read for it
    is at least 0.03 s after the clock value at the last snapshot
    emitted for a content fragment of [pre], or at the start of the
    stream when there was none, or (b) the content fragments received
    since that snapshot, [c] included, hold at least 5 characters, or
    (c) [c] is one of the seven one-character strings of the
    punctuation list.  Snapshots emitted for reasoning fragments count
    for neither (a) nor (b).  The snapshots of the loop are then those
    for [pre], followed by the snapshot for the reasoning fragment of
    [chunk] if it has one, followed, when one is emitted for [c], by the
    pair of the whole reasoning and the whole content so far; and they
    are the first snapshots [process_stream_response] yields for these
    events. *)
Theorem content_snapshot_iff (w : World) (pre : list Chunk) (rc : option str)
    (c : str) :
  let chunk := mkChunk rc (Some c) in
  let t := clock_at pre w in
  let last := spec_last_emission_time w pre in
  let count := (spec_chars_since_emission w pre + length c)%nat in
  let all_reasoning := concat (reasoning_fragments pre) ++ default [] rc in
  let content_before := concat (content_fragments pre) in
  (content_emitted pre chunk w = true <->
     (3 # 100 <= t - last)%Q \/ (5 <= count)%nat \/ c ∈ punctuation)
  /\ loop_snapshots (pre ++ [chunk]) w
     = loop_snapshots pre w
       ++ match rc with
          | Some _ => [(all_reasoning, content_before)]
          | None => []
          end
       ++ (if content_emitted pre chunk w
           then [(all_reasoning, content_before ++ c)] else [])
  /\ (loop_snapshots (pre ++ [chunk]) w
      `prefix_of` fst (fst (process_stream_response (pre ++ [chunk]) w))).
Proof.
  intros chunk t last count all_reasoning content_before.
  pose proof (content_emitted_should_yield pre chunk c w eq_refl) as He.
  destruct (state_after_since w pre) as [Hlast Hcount].
  rewrite Hlast, Hcount in He. fold last count t in He.
  split; [|split].
  - rewrite He. apply should_yield_iff.
  - destruct (loop_snoc pre chunk w) as [_ Hs]. cbn zeta in Hs.
    rewrite Hs.
    destruct (step_reasoning_fields chunk (state_after pre w))
      as (Hl & Hn & Hf & Hr & Hy).
    assert (Hinit : stream_inv None (stream_start w)) by (split; reflexivity).
    destruct (stream_loop_inv pre _ (after_clock_reading w) None Hinit)
      as (_ & Hfull & Hreas).
    fold (state_after pre w) in Hfull, Hreas.
    cbn [full_response reasoning stream_start app] in Hfull, Hreas.
    rewrite Hy. cbn [delta_content delta_reasoning_content chunk].
    f_equal. f_equal.
    + subst chunk. cbn [delta_reasoning_content].
      destruct rc; [|reflexivity]. now rewrite Hreas, Hfull.
    + rewrite He. subst last count t. rewrite <- Hlast, <- Hcount.
      unfold append_content. rewrite Hl, Hn, Hf, Hr, Hfull, Hreas.
      subst chunk. cbn [delta_reasoning_content]. clear He.
      destruct (should_yield (clock_at pre w)
                  (last_yield_time (state_after pre w))
                  (char_count (state_after pre w) + length c) c);
        reflexivity.
  - unfold process_stream_response, loop_snapshots, bind, ret, time_now.
    fold (stream_start w). fold (after_clock_reading w).
    destruct (stream_loop (pre ++ [chunk]) (stream_start w)
                          (after_clock_reading w)) as [[st ys] w1].
    cbn [fst snd]. now apply prefix_app_r.
Qed.

(** C3 fails as stated: with the clock standing still, the fragment
    ["Hi."] ends in a full stop, yet no snapshot is emitted when it is
    appended; of the two fragments ["Hi."] and ["x"] only the flush at
    the end of the input yields a snapshot. *)
Lemma should_yield_suffix_counterexample :
  let st := stream_start (world_frozen (conversation_of default_title [])
                                       endpoint_down) in
  ~ (snd (append_content hi_dot 0 st) <> [] <->
     spec_should_yield 0 (last_yield_time st)
                       (char_count st + length hi_dot) hi_dot = true)
  /\ fst (fst (process_stream_response
                 [content_chunk hi_dot; content_chunk [120]%N]
                 (world_frozen (conversation_of default_title [])
                               endpoint_down)))
     = [([], [72; 105; 46; 120]%N)].
Proof.
  split; [|vm_compute; reflexivity].
  intros [_ H]. apply H; vm_compute; reflexivity.
Qed.

(** ** Title generation *)

(** With fewer than two stored messages, or on an unknown id,
    [update_title_with_ai] returns false, makes no request and leaves the
    world as it is. *)
Lemma update_title_with_ai_needs_exchange (w : World) (cid model : str) :
  (length (stored_messages w cid) < 2)%nat ->
  update_title_with_ai cid model w = (false, w).
Proof.
  intros Hlen. unfold update_title_with_ai, stored_messages in *.
  destruct (conversations w !! cid) as [conv|]; [|reflexivity].
  destruct (2 <=? length (get_messages conv))%nat eqn:E; [|reflexivity].
  apply Nat.leb_le in E. lia.
Qed.

(** When the conversation has at least two messages and the completion
    request raises, [update_title_with_ai] still returns true and sets
    the title to the default title. *)
Lemma update_title_with_ai_request_fails
    (w : World) (cid model : str) (conv : Conversation) :
  conversations w !! cid = Some conv ->
  (2 <= length (get_messages conv))%nat ->
  (forall r, exists e, endpoint w (calls w) r = Raises e) ->
  fst (update_title_with_ai cid model w) = true
  /\ title <$> (conversations (snd (update_title_with_ai cid model w)) !! cid)
     = Some default_title
  /\ title <$> (index_json (snd (update_title_with_ai cid model w)) !! cid)
     = Some default_title.
Proof.
  intros Hl Hlen Hfail. unfold update_title_with_ai. rewrite Hl.
  apply Nat.leb_le in Hlen. rewrite Hlen.
  unfold generate_conversation_title.
  destruct (get_messages conv) as [|m ms] eqn:Hm; [discriminate|].
  unfold bind, create, put_conversation, _save_conversations_index, ret.
  destruct (Hfail (mkRequest
                     [(System, title_system_prompt);
                      (User, title_user_prefix ++ conversation_text (m :: ms))]
                     model false)) as [e He].
  rewrite He. simpl. rewrite lookup_insert_eq. auto.
Qed.

(** C2, the failing input.  A conversation titled ["Hello"] holds one full
    exchange; the endpoint is down.  [update_title_with_ai] returns true
    and the title, in memory and in the index, is now the default title
    and no longer ["Hello"]: the failure of the request did not leave the
    title unchanged. *)
Theorem update_title_with_ai_overwrites_on_failure :
  let w := world_of (conversation_of hello [msg_hello; msg_hi]) endpoint_down in
  let r := update_title_with_ai cid1 [] w in
  title <$> (conversations w !! cid1) = Some hello
  /\ fst r = true
  /\ title <$> (conversations (snd r) !! cid1) = Some default_title
  /\ title <$> (index_json (snd r) !! cid1) = Some default_title
  /\ default_title <> hello.
Proof. vm_compute. repeat split; discriminate. Qed.

(** ** Retry controller *)

Lemma request_loop_run (req : Request) (w : World) :
  request_loop (Z.to_nat max_retries) req 0 w =
  match endpoint w (calls w) req with
  | Returns h => (Established h, after_attempts 1 req w)
  | Raises _ =>
      match endpoint w (S (calls w)) req with
      | Returns h => (Established h, after_attempts 2 req w)
      | Raises _ =>
          match endpoint w (S (S (calls w))) req with
          | Returns h => (Established h, after_attempts 3 req w)
          | Raises e => (Exhausted e, after_attempts 3 req w)
          end
      end
  end.
Proof.
  change (Z.to_nat max_retries) with 3%nat.
  unfold request_loop, create, bind, sleep, ret, after_attempts,
    attempts_effects, set_calls, set_effects; simpl.
  destruct (endpoint w (calls w) req); simpl;
    [destruct (endpoint w (S (calls w)) req); simpl;
     [destruct (endpoint w (S (S (calls w))) req); simpl|]|];
    rewrite <- ?app_assoc; simpl;
    repeat (f_equal; try lia).
Qed.

Lemma same_outside_refl (w : World) : same_outside w w.
Proof. repeat split. Qed.

Lemma same_outside_trans (w1 w2 w3 : World) :
  same_outside w1 w2 -> same_outside w2 w3 -> same_outside w1 w3.
Proof.
  unfold same_outside. intros (A1 & A2 & A3 & A4 & A5 & A6)
    (B1 & B2 & B3 & B4 & B5 & B6).
  repeat split; congruence.
Qed.

Lemma add_message_outside (w : World) (cid : str) (r : Role) (c : str) :
  same_outside w (snd (add_message cid r c w))
  /\ current_conversation_id (snd (add_message cid r c w))
     = current_conversation_id w.
Proof.
  unfold add_message.
  destruct (conversations w !! cid) as [conv|];
    [|split; [apply same_outside_refl | reflexivity]].
  destruct (messages conv), (is_blank c); simpl;
    try destruct (duplicates_last _ r c); simpl;
    (split; [repeat split | reflexivity]).
Qed.

Lemma add_message_keeps_known (w : World) (cid cid' : str) (r : Role) (c : str) :
  is_Some (conversations w !! cid') ->
  is_Some (conversations (snd (add_message cid r c w)) !! cid').
Proof.
  intros Hk. unfold add_message.
  destruct (conversations w !! cid) as [conv|] eqn:Hl; [|exact Hk].
  destruct (messages conv), (is_blank c); simpl;
    try destruct (duplicates_last _ r c); simpl; try exact Hk;
    run_store;
    rewrite ?insert_insert_eq;
    (destruct (decide (cid = cid')) as [->|Hne];
     [rewrite lookup_insert_eq; eauto | now rewrite lookup_insert_ne]).
Qed.

Lemma duplicates_last_true (msgs : list Message) (r : Role) (c : str) :
  duplicates_last msgs r c = true ->
  exists m, list.last msgs = Some m /\ role m = r /\ content m = c.
Proof.
  unfold duplicates_last, str_eqb. destruct (list.last msgs) as [m|]; [|discriminate].
  intros H. apply andb_true_iff in H as [H1 H2].
  apply bool_decide_eq_true in H1, H2. eauto.
Qed.

(** After an append of non-blank content to a known conversation, the
    conversation ends with a message of that role and content. *)
Lemma add_message_last (w : World) (cid : str) (r : Role) (c : str)
    (conv : Conversation) :
  conversations w !! cid = Some conv ->
  is_blank c = false ->
  exists m, list.last (stored_messages (snd (add_message cid r c w)) cid) = Some m
            /\ role m = r /\ content m = c.
Proof.
  intros Hl Hb.
  destruct (duplicates_last (get_messages conv) r c) eqn:Hd.
  - rewrite (add_message_duplicate w cid r c conv Hl Hb Hd). simpl.
    rewrite (stored_messages_lookup _ _ _ Hl).
    now apply duplicates_last_true.
  - rewrite (add_message_fresh w cid r c conv Hl Hb Hd). simpl.
    unfold stored_messages. rewrite appended_lookup.
    unfold get_messages at 1. simpl. rewrite last_snoc. eauto.
Qed.

Lemma create_conversation_known (title_arg : option str) (w : World) :
  let r := create_conversation title_arg w in
  current_conversation_id (snd r) = Some (fst r)
  /\ is_Some (conversations (snd r) !! fst r)
  /\ same_outside w (snd r).
Proof.
  unfold create_conversation, bind, time_now, now, put_conversation,
    _save_conversations_index, ret; simpl.
  split; [reflexivity|]. split; [|repeat split].
  rewrite lookup_insert_eq. eauto.
Qed.

Lemma ensure_conversation_known (w : World) :
  active_known w ->
  let w1 := snd (ensure_conversation w) in
  (exists cid, current_conversation_id w1 = Some cid
               /\ is_Some (conversations w1 !! cid))
  /\ same_outside w w1.
Proof.
  unfold active_known, ensure_conversation. intros Hk.
  destruct (current_conversation_id w) as [[|c s]|] eqn:Hc; simpl.
  - destruct (create_conversation_known None w) as (H1 & H2 & H3). eauto.
  - split; [eauto | apply same_outside_refl].
  - destruct (create_conversation_known None w) as (H1 & H2 & H3). eauto.
Qed.

Lemma final_error_msg_not_blank (e : str) : is_blank (final_error_msg e) = false.
Proof.
  destruct (is_blank (final_error_msg e)) eqn:Hb; [|reflexivity].
  apply is_blank_iff in Hb. inversion Hb as [|? ? H _]. discriminate.
Qed.


Lemma add_message_current_outside (w : World) (r : Role) (c : str) :
  same_outside w (snd (add_message_current r c w))
  /\ current_conversation_id (snd (add_message_current r c w))
     = current_conversation_id w.
Proof.
  unfold add_message_current.
  destruct (current_conversation_id w) as [cid|] eqn:Hc.
  - destruct (add_message_outside w cid r c) as [H1 H2]. split; congruence.
  - split; [apply same_outside_refl | exact Hc].
Qed.

Lemma turn_started_outside (message : str) (w : World) :
  same_outside w (turn_started message w).
Proof.
  unfold turn_started.
  eapply same_outside_trans; [|apply add_message_current_outside].
  unfold ensure_conversation.
  destruct (current_conversation_id w) as [[|c s]|];
    try apply same_outside_refl; apply create_conversation_known.
Qed.

Lemma generate_response_unfold (message : str) (history : list (str * str))
    (stream_mode : bool) (model prompt_template : str) (w : World) :
  generate_response message history stream_mode model prompt_template w =
  let w2 := turn_started message w in
  let req := request_of w message history stream_mode model prompt_template in
  let r := request_loop (Z.to_nat max_retries) req 0 w2 in
  after_loop (fst r) stream_mode (snd r).
Proof.
  unfold generate_response, bind, request_of.
  destruct (turn_started_outside message w) as (_ & _ & _ & Hs & _).
  unfold turn_started in *.
  destruct (ensure_conversation w) as [[] w1]. cbn [fst snd] in *.
  destruct (add_message_current User message w1) as [b w2]. cbn [fst snd] in *.
  rewrite Hs.
  destruct (request_loop _ _ 0 w2) as [a w3]. reflexivity.
Qed.

Lemma stream_loop_world (stream : list Chunk) :
  forall (st : StreamState) (w : World),
  same_outside w (snd (stream_loop stream st w))
  /\ same_store w (snd (stream_loop stream st w)).
Proof.
  induction stream as [|chunk rest IH]; intros st w; simpl.
  - split; repeat split.
  - unfold bind, ret.
    assert (Hstep : same_outside w (snd (stream_step chunk st w))
                    /\ same_store w (snd (stream_step chunk st w))).
    { unfold stream_step, step_reasoning, step_content, bind, ret, time_now.
      destruct (delta_reasoning_content chunk), (delta_content chunk); simpl;
        split; repeat split. }
    destruct (stream_step chunk st w) as [[st1 ys1] w1]. simpl in *.
    specialize (IH st1 w1).
    destruct (stream_loop rest st1 w1) as [[st2 ys2] w2]. simpl in *.
    destruct Hstep as [Ho Hs], IH as [Ho' Hs'].
    split; [eapply same_outside_trans; eauto|].
    unfold same_store in *. intuition congruence.
Qed.

Lemma process_stream_response_world (stream : list Chunk) (w : World) :
  same_outside w (snd (process_stream_response stream w))
  /\ same_store w (snd (process_stream_response stream w)).
Proof.
  unfold process_stream_response, bind, ret, time_now.
  pose proof (stream_loop_world stream
                (mkStreamState [] [] [] (time_time w (tick w)) 0)
                (set_tick (S (tick w)) w)) as H.
  destruct (stream_loop _ _ _) as [[st ys] w1]. simpl in *. exact H.
Qed.

Lemma after_loop_outside (a : Attempted) (stream_mode : bool) (w : World) :
  same_outside w (snd (after_loop a stream_mode w)).
Proof.
  destruct a as [h|e| |]; simpl; try apply same_outside_refl.
  - destruct stream_mode.
    + unfold bind, ret.
      pose proof (process_stream_response_world (events h) w) as [Ho _].
      destruct (process_stream_response (events h) w) as [r w1]. simpl in *.
      destruct (truthy (final_content_of r.1)).
      * pose proof (add_message_current_outside w1 Assistant
                      (final_content_of r.1)) as [Ho' _].
        destruct (add_message_current _ _ w1) as [b w2]. simpl in *.
        eapply same_outside_trans; eauto.
      * exact Ho.
    + unfold bind.
      pose proof (add_message_current_outside w Assistant
                    (process_non_stream_response (response h)).2) as [Ho' _].
      destruct (add_message_current _ _ w) as [b w2]. simpl in *. exact Ho'.
  - unfold bind.
    pose proof (add_message_current_outside w Assistant (final_error_msg e))
      as [Ho' _].
    destruct (add_message_current _ _ w) as [b w2]. simpl in *. exact Ho'.
Qed.

Lemma interleaved_count (req : Request) (l : list nat) :
  attempts_of (flat_map (fun i => [EffRequest req; EffSleep (Z.of_nat i * 2)]) l
               ++ [EffRequest req]) = S (length l)
  /\ sleeps_of (flat_map (fun i => [EffRequest req; EffSleep (Z.of_nat i * 2)]) l
                ++ [EffRequest req])
     = map (fun i => Z.of_nat i * 2) l.
Proof.
  unfold attempts_of, sleeps_of. split.
  - rewrite List.filter_app, length_app. simpl.
    induction l as [|i l IH]; simpl; [reflexivity|]. simpl in IH. lia.
  - rewrite flat_map_app. simpl. rewrite app_nil_r.
    induction l as [|i l IH]; simpl; [reflexivity|]. now rewrite IH.
Qed.

Lemma attempts_effects_count (n : nat) (req : Request) :
  attempts_of (attempts_effects n req) = S (n - 1)
  /\ sleeps_of (attempts_effects n req)
     = map (fun i => Z.of_nat i * 2) (seq 1 (n - 1)).
Proof.
  unfold attempts_effects.
  destruct (interleaved_count req (seq 1 (n - 1))) as [H1 H2].
  rewrite length_seq in H1. auto.
Qed.

Lemma request_loop_fail_then_succeed
    (req : Request) (w : World) (k : nat) (h : Handle) :
  (k < 3)%nat ->
  (forall i, (i < k)%nat -> exists e, endpoint w (calls w + i)%nat req = Raises e) ->
  endpoint w (calls w + k)%nat req = Returns h ->
  request_loop (Z.to_nat max_retries) req 0 w
  = (Established h, after_attempts (S k) req w).
Proof.
  intros Hk Hfail Hok. rewrite request_loop_run.
  destruct k as [|[|[|k]]]; try lia.
  - rewrite Nat.add_0_r in Hok. now rewrite Hok.
  - destruct (Hfail 0%nat ltac:(lia)) as [e0 H0].
    rewrite Nat.add_0_r in H0. rewrite Nat.add_1_r in Hok.
    now rewrite H0, Hok.
  - destruct (Hfail 0%nat ltac:(lia)) as [e0 H0].
    destruct (Hfail 1%nat ltac:(lia)) as [e1 H1].
    rewrite Nat.add_0_r in H0. rewrite Nat.add_1_r in H1.
    replace (calls w + 2)%nat with (S (S (calls w))) in Hok by lia.
    now rewrite H0, H1, Hok.
Qed.

Lemma request_loop_bounded (req : Request) (w : World) :
  exists (n : nat) (a : Attempted),
    (1 <= n <= 3)%nat
    /\ request_loop (Z.to_nat max_retries) req 0 w = (a, after_attempts n req w)
    /\ a <> NoFuel /\ a <> NoBreak.
Proof.
  rewrite request_loop_run.
  destruct (endpoint w (calls w) req);
    [destruct (endpoint w (S (calls w)) req);
     [destruct (endpoint w (S (S (calls w))) req)|]|];
    eexists _, _; (split; [|split; [reflexivity|split; discriminate]]); lia.
Qed.

(** C4.  [generate_response] makes between one and three requests, with
    a sleep of [2 * i] seconds after the [i]-th failed one and none
    after the last.  When the first [k < 3] requests fail and the next
    succeeds, it makes exactly [k + 1] requests and sleeps exactly [k]
    times, for 2, 4, ... seconds, and the loop is left with the handle
    of the successful request. *)
Theorem generate_response_backoff (w : World) (message : str)
    (history : list (str * str)) (stream_mode : bool)
    (model prompt_template : str) :
  let req := request_of w message history stream_mode model prompt_template in
  let w' := snd (generate_response message history stream_mode model
                                   prompt_template w) in
  (exists n : nat, (1 <= n <= 3)%nat
     /\ effects w' = effects w ++ attempts_effects n req
     /\ attempts_of (attempts_effects n req) = n
     /\ calls w' = (calls w + n)%nat)
  /\ forall (k : nat) (h : Handle),
       (k < 3)%nat ->
       (forall i, (i < k)%nat ->
          exists e, endpoint w (calls w + i)%nat req = Raises e) ->
       endpoint w (calls w + k)%nat req = Returns h ->
       effects w' = effects w ++ attempts_effects (S k) req
       /\ attempts_of (attempts_effects (S k) req) = S k
       /\ sleeps_of (attempts_effects (S k) req)
          = map (fun i => Z.of_nat i * 2) (seq 1 k)
       /\ calls w' = (calls w + S k)%nat
       /\ fst (request_loop (Z.to_nat max_retries) req 0
                            (turn_started message w)) = Established h.
Proof.
  intros req w'. subst w'. rewrite generate_response_unfold. cbn zeta.
  fold req.
  destruct (turn_started_outside message w) as (Hc & He & Hep & _).
  set (w2 := turn_started message w) in *.
  split.
  - destruct (request_loop_bounded req w2) as (n & a & Hn & Hrun & _).
    rewrite Hrun. cbn [fst snd].
    destruct (after_loop_outside a stream_mode (after_attempts n req w2))
      as (Hc' & He' & _).
    exists n. split; [exact Hn|].
    rewrite He', Hc'. simpl. rewrite He, Hc.
    destruct (attempts_effects_count n req) as [Ha _].
    repeat split; auto. rewrite Ha. lia.
  - intros k h Hk Hfail Hok.
    rewrite <- Hep, <- Hc in Hok.
    assert (Hfail' : forall i, (i < k)%nat ->
              exists e, endpoint w2 (calls w2 + i)%nat req = Raises e).
    { intros i Hi. rewrite Hep, Hc. auto. }
    rewrite (request_loop_fail_then_succeed req w2 k h Hk Hfail' Hok).
    cbn [fst snd].
    destruct (after_loop_outside (Established h) stream_mode
                (after_attempts (S k) req w2)) as (Hc' & He' & _).
    rewrite He', Hc'. simpl effects. simpl calls. rewrite He, Hc.
    destruct (attempts_effects_count (S k) req) as [Ha Hs].
    simpl in Ha, Hs. rewrite Nat.sub_0_r in Ha, Hs.
    repeat split; auto.
Qed.

Lemma generate_response_backoff_witness :
  let w := world_of (conversation_of default_title []) (endpoint_fails 2) in
  let w' := snd (generate_response hello [] true [] [] w) in
  sleeps_of (attempts_effects 3 (request_of w hello [] true [] [])) = [2; 4]
  /\ attempts_of (attempts_effects 3 (request_of w hello [] true [] [])) = 3%nat
  /\ effects w' = attempts_effects 3 (request_of w hello [] true [] [])
  /\ calls w' = 3%nat.
Proof.
  intros w w'.
  destruct (generate_response_backoff w hello [] true [] []) as [_ H].
  destruct (H 2%nat (mkHandle [content_chunk hi_dot] [])) as (H1 & H2 & H3 & H4 & _).
  - lia.
  - intros i Hi. exists [100; 111; 119; 110]%N.
    destruct i as [|[|i]]; [reflexivity | reflexivity | lia].
  - reflexivity.
  - split; [exact H3 | split; [exact H2 | split; [exact H1 | exact H4]]].
Defined.

(** ** Terminal failure *)

Lemma turn_started_known (message : str) (w : World) :
  active_known w ->
  exists cid conv,
    current_conversation_id (turn_started message w) = Some cid
    /\ conversations (turn_started message w) !! cid = Some conv
    /\ (is_blank message = false ->
        exists m, list.last (get_messages conv) = Some m
                  /\ role m = User /\ content m = message).
Proof.
  intros Hk. unfold turn_started.
  destruct (ensure_conversation_known w Hk) as [(cid & Hc & [conv1 Hl]) _].
  set (w1 := snd (ensure_conversation w)) in *.
  unfold add_message_current. rewrite Hc.
  destruct (add_message_outside w1 cid User message) as [_ Hcur].
  destruct (add_message_keeps_known w1 cid cid User message) as [conv Hl2];
    [eauto|].
  exists cid, conv. split; [congruence|]. split; [exact Hl2|].
  intros Hb.
  destruct (add_message_last w1 cid User message conv1 Hl Hb)
    as (m & Hlast & Hr & Hcont).
  rewrite (stored_messages_lookup _ _ _ Hl2) in Hlast. eauto.
Qed.


(** C5 (as amended).  When the three requests of a turn all fail and
    the active conversation, if any is set, is in the store,
    [generate_response] yields exactly one pair, empty reasoning and
    the error text: the fixed prefix, the text of the last error, and
    the heading with the four fixed hints.  When that pair reaches the
    consumer, the active conversation ends with an assistant message
    whose content is this text.  The message has been appended to what
    the conversation held once the user message of the turn was
    handled, and the index written, except when the conversation
    already ended there with an assistant message of this very content,
    in which case nothing is appended; that exception does not occur
    when the message of the turn is not blank. *)
Theorem generate_response_exhausted (w : World) (message : str)
    (history : list (str * str)) (stream_mode : bool)
    (model prompt_template : str) (e1 e2 e3 : str) :
  let req := request_of w message history stream_mode model prompt_template in
  active_known w ->
  endpoint w (calls w) req = Raises e1 ->
  endpoint w (S (calls w)) req = Raises e2 ->
  endpoint w (S (S (calls w))) req = Raises e3 ->
  let r := generate_response message history stream_mode model
                             prompt_template w in
  let before := stored_messages (turn_started message w) in
  let error_text :=
    final_error_prefix ++ e3 ++ [10; 10]%N ++ solutions_heading
    ++ [10]%N ++ hint_network ++ [10]%N ++ hint_credentials
    ++ [10]%N ++ hint_vpn ++ [10]%N ++ hint_retry_later in
  ending (fst r) = Returned
  /\ yielded (fst r) = [mkYielded ([], error_text) (conversations (snd r))]
  /\ exists cid m,
       current_conversation_id (snd r) = Some cid
       /\ list.last (stored_messages (snd r) cid) = Some m
       /\ role m = Assistant
       /\ content m = error_text
       /\ (if duplicates_last (before cid) Assistant error_text
           then stored_messages (snd r) cid = before cid
           else stored_messages (snd r) cid = before cid ++ [m]
                /\ index_json (snd r) = conversations (snd r))
       /\ (is_blank message = false ->
           duplicates_last (before cid) Assistant error_text = false
           /\ stored_messages (snd r) cid = before cid ++ [m]).
Proof.
  intros req Hk H1 H2 H3 r before error_text.
  change error_text with (final_error_msg e3).
  subst r before. rewrite generate_response_unfold. cbn zeta. fold req.
  destruct (turn_started_outside message w) as (Hc & _ & Hep & _).
  destruct (turn_started_known message w Hk) as (cid & conv & Hcur & Hl & Huser).
  set (w2 := turn_started message w) in *.
  rewrite request_loop_run, Hep, Hc, H1, H2, H3. cbn [fst snd after_loop].
  set (w3 := after_attempts 3 req w2).
  assert (Hl3 : conversations w3 !! cid = Some conv) by exact Hl.
  assert (Hcur3 : current_conversation_id w3 = Some cid) by exact Hcur.
  unfold bind, add_message_current. rewrite Hcur3.
  pose proof (final_error_msg_not_blank e3) as Hb.
  destruct (add_message_outside w3 cid Assistant (final_error_msg e3))
    as [_ Hcur4].
  pose proof (stored_messages_lookup w2 cid conv Hl) as Hbefore.
  destruct (duplicates_last (get_messages conv) Assistant (final_error_msg e3))
    eqn:Hd.
  - rewrite (add_message_duplicate w3 cid Assistant _ conv Hl3 Hb Hd) in *.
    cbn [fst snd ending yielded].
    split; [reflexivity|]. split; [reflexivity|].
    destruct (duplicates_last_true _ _ _ Hd) as (m & Hlast & Hr & Hcont).
    exists cid, m. rewrite Hbefore, (stored_messages_lookup w3 cid conv Hl3), Hd.
    repeat split; auto;
      destruct (Huser H) as (mu & Hlu & Hru & _);
      rewrite Hlu in Hlast; injection Hlast as ->; congruence.
  - rewrite (add_message_fresh w3 cid Assistant _ conv Hl3 Hb Hd) in *.
    cbn [fst snd ending yielded].
    split; [reflexivity|]. split; [reflexivity|].
    exists cid, (mkMessage Assistant (final_error_msg e3)
                           (datetime_now w3 (tick w3))).
    rewrite Hbefore, Hd. unfold stored_messages. rewrite appended_lookup.
    unfold get_messages at 1. simpl messages. simpl default.
    rewrite last_snoc. repeat split; auto.
Qed.

Lemma generate_response_exhausted_witness :
  let w := world_of (conversation_of default_title []) endpoint_down in
  let r := generate_response hello [] true [] [] w in
  yielded (fst r)
  = [mkYielded ([], final_error_msg [100; 111; 119; 110]%N)
               (conversations (snd r))]
  /\ (role <$> stored_messages (snd r) cid1) = [User; Assistant].
Proof.
  intros w r.
  destruct (generate_response_exhausted w hello [] true [] []
              [100; 111; 119; 110]%N [100; 111; 119; 110]%N
              [100; 111; 119; 110]%N)
    as (_ & Hy & _).
  - vm_compute. eauto.
  - reflexivity.
  - reflexivity.
  - reflexivity.
  - split; [exact Hy | vm_compute; reflexivity].
Defined.

(** C5 fails as stated.  With an active id that names no conversation
    of the store (as [delete_conversation] of the manager leaves it),
    the three requests fail, the error text is yielded, and nothing is
    appended anywhere: the store is as before.  And in a conversation
    that already ends with the error text, a turn with a blank message
    whose requests fail again appends nothing either. *)
Lemma generate_response_exhausted_counterexample :
  let w := set_current (Some cid2)
             (world_of (conversation_of default_title [msg_hello])
                       endpoint_down) in
  let r := generate_response hello [] true [] [] w in
  let error_text := final_error_msg [100; 111; 119; 110]%N in
  let v := world_of (conversation_of default_title
                       [msg_hello; mkMessage Assistant error_text [48]%N])
                    endpoint_down in
  let r' := generate_response [32]%N [] true [] [] v in
  (map snapshot (yielded (fst r)) = [([], error_text)]
   /\ attempts_of (effects (snd r)) = 3%nat
   /\ current_conversation_id (snd r) = Some cid2
   /\ conversations (snd r) = conversations w
   /\ stored_messages (snd r) cid2 = [])
  /\ (map snapshot (yielded (fst r')) = [([], error_text)]
      /\ current_conversation_id (snd r') = Some cid1
      /\ stored_messages (snd r') cid1 = stored_messages v cid1
      /\ length (stored_messages (snd r') cid1) = 2%nat).
Proof. vm_compute. repeat split; reflexivity. Qed.

(** ** Undo *)

(** At an index that is not positive [undo_last_message] returns the
    history and the index it was given and leaves the world alone. *)
Lemma undo_last_message_not_positive (w : World) (chat_history : Visible)
    (message_history : list (list ChatMsg)) (current_index : Z) :
  current_index <= 0 ->
  undo_last_message chat_history message_history current_index w
  = ((chat_history, current_index), w).
Proof.
  intros H. unfold undo_last_message.
  destruct (0 <? current_index) eqn:E; [apply Z.ltb_lt in E; lia | reflexivity].
Qed.

(** C9.  At index 0, one undo, and any number [n] of undos in a row,
    return the visible history unchanged and the index 0, and leave the
    world (store, index file, requests made, effects) exactly as it was. *)
Theorem undo_at_oldest_entry (n : nat) (w : World) (chat_history : Visible)
    (message_history : list (list ChatMsg)) :
  undo_last_message chat_history message_history 0 w = ((chat_history, 0), w)
  /\ undo_repeat n chat_history message_history 0 w = ((chat_history, 0), w).
Proof.
  split; [reflexivity|].
  induction n as [|n IH]; [reflexivity|].
  simpl. unfold bind.
  rewrite undo_last_message_not_positive by lia. exact IH.
Qed.

(** Above the oldest entry an undo steps the index back by one, returns
    the stack cut after the new index, and leaves the world alone. *)
Lemma undo_last_message_positive (w : World) (chat_history : Visible)
    (message_history : list (list ChatMsg)) (current_index : Z) :
  0 < current_index ->
  undo_last_message chat_history message_history current_index w
  = ((Stack (firstn (Z.to_nat current_index) message_history),
      current_index - 1), w).
Proof.
  intros H. unfold undo_last_message, ret.
  destruct (0 <? current_index) eqn:E; [|apply Z.ltb_ge in E; lia].
  destruct (0 <=? current_index - 1) eqn:E2; [|apply Z.leb_gt in E2; lia].
  now replace (current_index - 1 + 1) with current_index by lia.
Qed.

(** ** Retry *)

Lemma user_count_app (l1 l2 : list Message) :
  user_count (l1 ++ l2) = (user_count l1 + user_count l2)%nat.
Proof. unfold user_count. now rewrite list.filter_app, length_app. Qed.

Lemma user_count_not_user (m : Message) :
  role m <> User -> user_count [m] = 0%nat.
Proof.
  intros H. unfold user_count. rewrite filter_cons_False by exact H.
  reflexivity.
Qed.

(** What an append does to the stored messages of any conversation. *)
Lemma add_message_stored (w : World) (cid cid' : str) (r : Role) (c : str) :
  stored_messages (snd (add_message cid r c w)) cid' = stored_messages w cid'
  \/ exists t, stored_messages (snd (add_message cid r c w)) cid'
               = stored_messages w cid' ++ [mkMessage r c t].
Proof.
  destruct (conversations w !! cid) as [conv|] eqn:Hl;
    [|rewrite add_message_unknown; auto].
  destruct (is_blank c) eqn:Hb.
  - left. unfold add_message. rewrite Hl, Hb. unfold stored_messages.
    destruct (messages conv) eqn:Hm; [reflexivity|]. simpl.
    destruct (decide (cid = cid')) as [<-|Hne].
    + rewrite lookup_insert_eq, Hl. unfold get_messages. now rewrite Hm.
    + now rewrite lookup_insert_ne.
  - destruct (duplicates_last (get_messages conv) r c) eqn:Hd.
    + left. now rewrite (add_message_duplicate w cid r c conv Hl Hb Hd).
    + rewrite (add_message_fresh w cid r c conv Hl Hb Hd).
      unfold stored_messages, appended. simpl.
      destruct (decide (cid = cid')) as [<-|Hne].
      * right. rewrite lookup_insert_eq, Hl. eauto.
      * left. now rewrite lookup_insert_ne.
Qed.

Lemma add_message_assistant_user_count (w : World) (cid cid' : str) (c : str) :
  user_count (stored_messages (snd (add_message cid Assistant c w)) cid')
  = user_count (stored_messages w cid').
Proof.
  destruct (add_message_stored w cid cid' Assistant c) as [->|[t ->]];
    [reflexivity|].
  rewrite user_count_app, user_count_not_user by discriminate. lia.
Qed.

Lemma add_message_current_assistant_user_count (w : World) (cid' : str) (c : str) :
  user_count (stored_messages (snd (add_message_current Assistant c w)) cid')
  = user_count (stored_messages w cid').
Proof.
  unfold add_message_current.
  destruct (current_conversation_id w); [|reflexivity].
  apply add_message_assistant_user_count.
Qed.

Lemma app_removelast_last_opt {A : Type} (l : list A) (x : A) :
  list.last l = Some x -> l = removelast l ++ [x].
Proof.
  intros H. destruct (list.last_Some l x) as [[l' ->] _]; [exact H|].
  now rewrite removelast_last.
Qed.

Lemma update_last_message_user_count (w : World) (cid cid' : str) (c : str) :
  user_count (stored_messages (snd (update_last_message cid c w)) cid')
  = user_count (stored_messages w cid').
Proof.
  unfold update_last_message.
  destruct (conversations w !! cid) as [conv|] eqn:Hl; [|reflexivity].
  destruct (list.last (get_messages conv)) as [m|] eqn:Hlast; [|reflexivity].
  unfold bind, now, put_conversation, _save_conversations_index, ret,
    stored_messages; simpl.
  rewrite insert_insert_eq.
  destruct (decide (cid = cid')) as [<-|Hne].
  - rewrite lookup_insert_eq, Hl. unfold get_messages at 1. simpl.
    rewrite (app_removelast_last_opt _ _ Hlast) at 2.
    rewrite !user_count_app. f_equal.
    unfold user_count. simpl.
    destruct (decide (role m = User)) as [Hu|Hu].
    + rewrite !filter_cons_True by exact Hu. reflexivity.
    + rewrite !filter_cons_False by exact Hu. reflexivity.
  - now rewrite lookup_insert_ne.
Qed.

Lemma generate_conversation_title_store (msgs : list Message) (model : str)
    (w : World) :
  same_store w (snd (generate_conversation_title msgs model w)).
Proof.
  unfold generate_conversation_title.
  destruct msgs as [|m ms]; [repeat split|].
  unfold bind, create, ret.
  destruct (endpoint w (calls w) _) as [e|h]; simpl; [repeat split|].
  destruct (response h) as [|cm ?]; [repeat split|].
  destruct (message_content cm); repeat split.
Qed.

Lemma update_title_with_ai_stored (w : World) (cid cid' model : str) :
  stored_messages (snd (update_title_with_ai cid model w)) cid'
  = stored_messages w cid'.
Proof.
  unfold update_title_with_ai.
  destruct (conversations w !! cid) as [conv|] eqn:Hl; [|reflexivity].
  destruct (2 <=? length (get_messages conv))%nat; [|reflexivity].
  unfold bind.
  pose proof (generate_conversation_title_store (get_messages conv) model w)
    as (Hs & _).
  destruct (generate_conversation_title _ _ w) as [t w1]. simpl in Hs.
  unfold put_conversation, _save_conversations_index, ret, stored_messages.
  simpl. rewrite Hs.
  destruct (decide (cid = cid')) as [<-|Hne].
  - rewrite lookup_insert_eq, Hl. reflexivity.
  - now rewrite lookup_insert_ne.
Qed.

Lemma same_store_stored (w w' : World) (cid : str) :
  same_store w w' -> stored_messages w' cid = stored_messages w cid.
Proof. intros (H & _). unfold stored_messages. now rewrite H. Qed.

Lemma after_loop_user_count (a : Attempted) (stream_mode : bool) (w : World)
    (cid : str) :
  user_count (stored_messages (snd (after_loop a stream_mode w)) cid)
  = user_count (stored_messages w cid).
Proof.
  destruct a as [h|e| |]; simpl; try reflexivity.
  - destruct stream_mode.
    + unfold bind, ret.
      pose proof (process_stream_response_world (events h) w) as [_ Hs].
      destruct (process_stream_response (events h) w) as [r w1]. simpl in *.
      rewrite <- (same_store_stored w w1 cid Hs).
      destruct (truthy (final_content_of r.1)); [|reflexivity].
      pose proof (add_message_current_assistant_user_count w1 cid
                    (final_content_of r.1)) as Hu.
      destruct (add_message_current _ _ w1) as [b w2]. exact Hu.
    + unfold bind.
      pose proof (add_message_current_assistant_user_count w cid
                    (process_non_stream_response (response h)).2) as Hu.
      destruct (add_message_current _ _ w) as [b w2]. exact Hu.
  - unfold bind.
    pose proof (add_message_current_assistant_user_count w cid
                  (final_error_msg e)) as Hu.
    destruct (add_message_current _ _ w) as [b w2]. exact Hu.
Qed.

Lemma after_loop_ending (a : Attempted) (stream_mode : bool) (w : World) :
  a <> NoFuel -> a <> NoBreak ->
  ending (fst (after_loop a stream_mode w)) = Returned
  /\ (stream_mode = false ->
      length (yielded (fst (after_loop a stream_mode w))) = 1%nat).
Proof.
  intros H1 H2. destruct a as [h|e| |]; try congruence; simpl.
  - destruct stream_mode.
    + unfold bind, ret.
      destruct (process_stream_response (events h) w) as [r w1].
      destruct (truthy (final_content_of r.1)).
      * destruct (add_message_current _ _ w1). split; [reflexivity|discriminate].
      * split; [reflexivity|discriminate].
    + unfold bind. destruct (add_message_current _ _ w). split; reflexivity.
  - unfold bind. destruct (add_message_current _ _ w). split; reflexivity.
Qed.

(** A run of [generate_response] ends by returning; it leaves the number
    of stored user entries as it is once the message of the turn has
    been appended; and with [stream_mode=False] it yields once. *)
Lemma generate_response_run (message : str) (history : list (str * str))
    (stream_mode : bool) (model prompt_template : str) (w : World) (cid : str) :
  let r := generate_response message history stream_mode model
                             prompt_template w in
  ending (fst r) = Returned
  /\ (stream_mode = false -> length (yielded (fst r)) = 1%nat)
  /\ user_count (stored_messages (snd r) cid)
     = user_count (stored_messages (turn_started message w) cid).
Proof.
  cbn zeta. rewrite generate_response_unfold. cbn zeta.
  set (req := request_of _ _ _ _ _ _). set (w2 := turn_started message w).
  destruct (request_loop_bounded req w2) as (n & a & _ & Hrun & Hf & Hb).
  rewrite Hrun. cbn [fst snd].
  destruct (after_loop_ending a stream_mode (after_attempts n req w2) Hf Hb)
    as [He Hy].
  split; [exact He|]. split; [exact Hy|].
  rewrite after_loop_user_count. reflexivity.
Qed.

Lemma consume_outputs (base : list ChatMsg) (ys : list Snapshot) :
  forall am thinking : str,
  Forall (fun o => exists c, out_chatbot o = base ++ [mkChatMsg Assistant c])
         (fst (fst (consume base ys am thinking)))
  /\ length (fst (fst (consume base ys am thinking))) = length ys.
Proof.
  induction ys as [|[th c] ys IH]; intros am thinking; simpl.
  - split; [constructor | reflexivity].
  - specialize (IH (if truthy c then c else am) th).
    destruct (consume base ys _ th) as [[outs am'] th']. simpl in *.
    destruct IH as [IH1 IH2]. split; [|now rewrite IH2].
    constructor; [eauto | exact IH1].
Qed.

Lemma regenerate_stream_run (chat_history : list ChatMsg)
    (conversation_id message model prompt_template : str) (w : World)
    (cid : str) :
  let r := regenerate_stream chat_history conversation_id message model
                             prompt_template w in
  ending (fst r) = Returned
  /\ Forall (fun o => exists c,
               out_chatbot o = chat_history ++ [mkChatMsg Assistant c])
            (yielded (fst r))
  /\ user_count (stored_messages (snd r) cid)
     = user_count (stored_messages (turn_started message w) cid).
Proof.
  cbn zeta. unfold regenerate_stream, bind.
  pose proof (generate_response_run message (pair_history chat_history) true
                model prompt_template w cid) as Hg.
  cbn zeta in Hg.
  destruct (generate_response message (pair_history chat_history) true model
                              prompt_template w) as [g w1].
  cbn [fst snd] in Hg. destruct Hg as (He & _ & Hu).
  pose proof (consume_outputs chat_history (map snapshot (yielded g)) [] [])
    as [Hout _].
  destruct (consume chat_history (map snapshot (yielded g)) [] [])
    as [[outs am] thinking]. cbn [fst] in Hout.
  rewrite He.
  destruct (truthy am).
  - pose proof (update_last_message_user_count w1 conversation_id cid am) as H1.
    destruct (update_last_message conversation_id am w1) as [b1 w2].
    cbn [snd] in H1.
    pose proof (update_title_with_ai_stored w2 conversation_id cid model) as H2.
    destruct (update_title_with_ai conversation_id model w2) as [b2 w3].
    cbn [snd] in H2. unfold ret. cbn [fst snd ending yielded].
    split; [reflexivity|]. split.
    + apply Forall_app. split; [exact Hout|]. repeat constructor. eauto.
    + rewrite H2. congruence.
  - unfold ret. cbn [fst snd ending yielded]. auto.
Qed.

Lemma regenerate_plain_run (chat_history : list ChatMsg)
    (conversation_id message model prompt_template : str) (w : World)
    (cid : str) :
  let r := regenerate_plain chat_history conversation_id message model
                            prompt_template w in
  fst r = mkGenRun [] (Failed ValueError)
  /\ user_count (stored_messages (snd r) cid)
     = user_count (stored_messages (turn_started message w) cid).
Proof.
  cbn zeta. unfold regenerate_plain, bind.
  pose proof (generate_response_run message (pair_history chat_history) false
                model prompt_template w cid) as Hg.
  cbn zeta in Hg.
  destruct (generate_response message (pair_history chat_history) false model
                              prompt_template w) as [g w1].
  cbn [fst snd] in Hg. destruct Hg as (He & _ & Hu).
  rewrite He. unfold ret. cbn [fst snd]. auto.
Qed.

Lemma remove_last_message_known (w : World) (cid : str) (conv : Conversation) :
  conversations w !! cid = Some conv ->
  get_messages conv <> [] ->
  let w1 := snd (remove_last_message cid w) in
  conversations w1 !! cid
  = Some (set_updated_at (datetime_now w (tick w))
            (set_messages (removelast (get_messages conv)) conv))
  /\ current_conversation_id w1 = current_conversation_id w
  /\ index_json w1 = conversations w1.
Proof.
  intros Hl Hne. unfold remove_last_message. rewrite Hl.
  destruct (get_messages conv) as [|m ms] eqn:Hm; [congruence|].
  run_store.
  rewrite insert_insert_eq, lookup_insert_eq. auto.
Qed.

(** Appending what the conversation already ends with, or blank content,
    to a conversation that has a message list leaves the world as it
    is. *)
Lemma add_message_repeat (w : World) (cid : str) (conv : Conversation)
    (msgs : list Message) (m : Message) :
  conversations w !! cid = Some conv ->
  messages conv = Some msgs ->
  list.last msgs = Some m ->
  snd (add_message cid (role m) (content m) w) = w.
Proof.
  intros Hl Hm Hlast. unfold add_message. rewrite Hl, Hm.
  destruct (is_blank (content m)); [reflexivity|].
  unfold get_messages, duplicates_last, str_eqb. rewrite Hm. simpl.
  rewrite Hlast. now rewrite !bool_decide_eq_true_2.
Qed.

Lemma retry_last_message_ready (chat_history : list ChatMsg) (cid : str)
    (stream_mode : bool) (model prompt_template : str)
    (message_history : list (list ChatMsg)) (current_index : Z) (w : World)
    (c : char) (u : str) :
  chat_history <> [] ->
  0 <= current_index ->
  last_user_message chat_history = Some (c :: u) ->
  retry_last_message chat_history cid stream_mode model prompt_template
                     message_history current_index w
  = let removed := remove_trailing_assistant chat_history cid w in
    if stream_mode
    then regenerate_stream (fst removed) cid (c :: u) model prompt_template
                           (snd removed)
    else regenerate_plain (fst removed) cid (c :: u) model prompt_template
                          (snd removed).
Proof.
  intros Hne Hidx Hu. unfold retry_last_message.
  destruct chat_history as [|x rest] eqn:Hch; [congruence|].
  destruct (current_index <? 0) eqn:E; [apply Z.ltb_lt in E; lia|].
  rewrite Hu. unfold bind.
  destruct (remove_trailing_assistant (x :: rest) cid w).
  now destruct stream_mode.
Qed.


(** * Further properties of the code *)

(** ** Turn store: editing the last message *)

(** X1.  [remove_last_message] on a known conversation with at least one
    message returns true, drops exactly the last message, sets
    [updated_at] to the next clock reading and writes the index; the
    other fields of the conversation, the other conversations and the
    active id are as before.  On an unknown id, or on a conversation
    without messages, it returns false and changes nothing. *)
Theorem remove_last_message_effect (w : World) (cid : str) :
  match conversations w !! cid with
  | Some conv =>
      match list.last (get_messages conv) with
      | None => remove_last_message cid w = (false, w)
      | Some m =>
          let w' := snd (remove_last_message cid w) in
          fst (remove_last_message cid w) = true
          /\ stored_messages w' cid ++ [m] = get_messages conv
          /\ (exists conv', conversations w' !! cid = Some conv'
                /\ updated_at conv' = datetime_now w (tick w)
                /\ title conv' = title conv
                /\ likes conv' = likes conv
                /\ dislikes conv' = dislikes conv
                /\ created_at conv' = created_at conv)
          /\ delete cid (conversations w') = delete cid (conversations w)
          /\ current_conversation_id w' = current_conversation_id w
          /\ index_json w' = conversations w'
      end
  | None => remove_last_message cid w = (false, w)
  end.
Proof.
  unfold remove_last_message.
  destruct (conversations w !! cid) as [conv|] eqn:Hl; [|reflexivity].
  destruct (list.last (get_messages conv)) as [m|] eqn:Hlast.
  - pose proof (app_removelast_last_opt _ _ Hlast) as Hsnoc.
    destruct (get_messages conv) as [|m0 ms] eqn:Hm; [discriminate|].
    remember (m0 :: ms) as msgs.
    run_store. rewrite insert_insert_eq, delete_insert_eq.
    unfold stored_messages. simpl. rewrite lookup_insert_eq.
    unfold get_messages at 1. simpl.
    split; [reflexivity|]. split; [now rewrite <- Hsnoc|].
    split; [|auto]. eexists. split; [reflexivity|]. simpl. auto.
  - destruct (get_messages conv) as [|m0 ms]; [reflexivity|].
    apply last_None in Hlast. discriminate.
Qed.

(** X2.  [update_last_message] on a known conversation with at least
    one message returns true and replaces the content of the last
    message by the new content, whatever it is; the role of that
    message, all earlier messages and the number of messages are as
    before; the message gets the next clock reading as timestamp,
    [updated_at] the one after, and the index is written.  On an unknown
    id, or on a conversation without messages, it returns false and
    changes nothing. *)
Theorem update_last_message_effect (w : World) (cid c : str) :
  match conversations w !! cid with
  | Some conv =>
      match list.last (get_messages conv) with
      | None => update_last_message cid c w = (false, w)
      | Some m =>
          let w' := snd (update_last_message cid c w) in
          fst (update_last_message cid c w) = true
          /\ stored_messages w' cid
             = removelast (get_messages conv)
               ++ [mkMessage (role m) c (datetime_now w (tick w))]
          /\ length (stored_messages w' cid) = length (get_messages conv)
          /\ (exists conv', conversations w' !! cid = Some conv'
                /\ updated_at conv' = datetime_now w (S (tick w))
                /\ title conv' = title conv
                /\ likes conv' = likes conv
                /\ dislikes conv' = dislikes conv)
          /\ delete cid (conversations w') = delete cid (conversations w)
          /\ index_json w' = conversations w'
      end
  | None => update_last_message cid c w = (false, w)
  end.
Proof.
  unfold update_last_message.
  destruct (conversations w !! cid) as [conv|] eqn:Hl; [|reflexivity].
  destruct (list.last (get_messages conv)) as [m|] eqn:Hlast; [|reflexivity].
  run_store. rewrite insert_insert_eq, delete_insert_eq.
  unfold stored_messages. simpl. rewrite lookup_insert_eq.
  change (get_messages (set_updated_at (datetime_now w (S (tick w)))
            (set_messages (removelast (get_messages conv)
               ++ [mkMessage (role m) c (datetime_now w (tick w))]) conv)))
    with (removelast (get_messages conv)
          ++ [mkMessage (role m) c (datetime_now w (tick w))]).
  split; [reflexivity|]. split; [reflexivity|]. split.
  - rewrite (app_removelast_last_opt _ _ Hlast) at 2.
    now rewrite !length_app.
  - split; [|auto]. eexists. split; [reflexivity|]. simpl. auto.
Qed.

(** X3.  An append followed by [remove_last_message] gives back the
    stored messages only when the append stored something: when the
    content is blank or repeats the last message, nothing was appended
    and the removal takes away the message that was last before. *)
Theorem add_then_remove_last (w : World) (cid : str) (conv : Conversation)
    (r : Role) (c : str) :
  conversations w !! cid = Some conv ->
  let w1 := snd (add_message cid r c w) in
  let w2 := snd (remove_last_message cid w1) in
  stored_messages w2 cid
  = if is_blank c || duplicates_last (get_messages conv) r c
    then removelast (get_messages conv)
    else get_messages conv.
Proof.
  intros Hl w1 w2. subst w1 w2.
  assert (Hrem : forall v conv', conversations v !! cid = Some conv' ->
            stored_messages (snd (remove_last_message cid v)) cid
            = removelast (get_messages conv')).
  { intros v conv' Hv. unfold remove_last_message. rewrite Hv.
    destruct (get_messages conv') as [|m ms] eqn:Hm.
    - simpl. unfold stored_messages. now rewrite Hv, Hm.
    - run_store. unfold stored_messages. simpl.
      now rewrite insert_insert_eq, lookup_insert_eq. }
  destruct (is_blank c) eqn:Hb; simpl.
  - destruct (add_message_keeps_known w cid cid r c) as [conv' Hl']; [eauto|].
    rewrite (Hrem _ _ Hl').
    destruct (add_message_blank w cid r c Hb) as (_ & Hs & _).
    rewrite (stored_messages_lookup _ _ _ Hl') in Hs.
    rewrite (stored_messages_lookup _ _ _ Hl) in Hs. now rewrite Hs.
  - destruct (duplicates_last (get_messages conv) r c) eqn:Hd.
    + rewrite (add_message_duplicate w cid r c conv Hl Hb Hd). simpl.
      now apply Hrem.
    + rewrite (add_message_fresh w cid r c conv Hl Hb Hd). simpl.
      rewrite (Hrem _ _ (appended_lookup w cid r c conv)).
      unfold get_messages at 1. simpl. apply removelast_last.
Qed.

Lemma add_then_remove_last_witness :
  let w := world_of (conversation_of default_title [msg_hello]) endpoint_down in
  stored_messages
    (snd (remove_last_message cid1 (snd (add_message cid1 Assistant hi_dot w))))
    cid1 = [msg_hello]
  /\ stored_messages
       (snd (remove_last_message cid1 (snd (add_message cid1 User hello w))))
       cid1 = [].
Proof.
  intros w. split.
  - exact (add_then_remove_last w cid1 (conversation_of default_title [msg_hello])
             Assistant hi_dot eq_refl).
  - exact (add_then_remove_last w cid1 (conversation_of default_title [msg_hello])
             User hello eq_refl).
Defined.

(** ** Turn store: deleting, renaming, creating *)

(** X4.  [delete_conversation] of the manager on a known id returns
    true, takes the conversation out of the store and writes the index,
    and leaves every other conversation alone.  It does not touch the
    active id: when the deleted conversation was the active one, the
    active id stays and names no conversation, and an append to it
    returns false and stores nothing.  On an unknown id it returns false
    and changes nothing. *)
Theorem delete_conversation_effect (w : World) (cid : str) :
  match conversations w !! cid with
  | Some _ =>
      let w' := snd (delete_conversation cid w) in
      fst (delete_conversation cid w) = true
      /\ conversations w' = delete cid (conversations w)
      /\ get_conversation cid w' = None
      /\ get_conversation_history cid w' = []
      /\ index_json w' = conversations w'
      /\ current_conversation_id w' = current_conversation_id w
      /\ (forall (r : Role) (c : str), add_message cid r c w' = (false, w'))
  | None => delete_conversation cid w = (false, w)
  end.
Proof.
  unfold delete_conversation.
  destruct (conversations w !! cid) as [conv|] eqn:Hl; [|reflexivity].
  unfold bind, _save_conversations_index, ret, get_conversation_history,
    get_conversation; simpl.
  rewrite lookup_delete_eq. repeat split.
  intros r c. apply add_message_unknown. simpl. apply lookup_delete_eq.
Qed.

(** X5.  [rename_conversation] does nothing when no conversation is
    selected or the new title is empty.  Otherwise, on a known id, the
    conversation gets the new title and the index is written, while its
    messages, counters and also its [updated_at] stay as they are, as do
    the other conversations; on an unknown id nothing changes. *)
Theorem rename_conversation_effect (w : World) (s : Selected) (new_title : str) :
  if nothing_selected s || negb (truthy new_title)
  then rename_conversation s new_title w = (false, w)
  else
    match conversations w !! selected_id s with
    | Some conv =>
        let w' := snd (rename_conversation s new_title w) in
        fst (rename_conversation s new_title w) = true
        /\ conversations w' !! selected_id s = Some (set_title new_title conv)
        /\ updated_at (set_title new_title conv) = updated_at conv
        /\ stored_messages w' (selected_id s) = get_messages conv
        /\ get_conversation_stats (selected_id s) w'
           = get_conversation_stats (selected_id s) w
        /\ delete (selected_id s) (conversations w')
           = delete (selected_id s) (conversations w)
        /\ index_json w' = conversations w'
    | None => rename_conversation s new_title w = (false, w)
    end.
Proof.
  unfold rename_conversation.
  destruct (nothing_selected s || negb (truthy new_title)); [reflexivity|].
  unfold update_conversation_title, get_conversation_stats, stored_messages.
  destruct (conversations w !! selected_id s) as [conv|] eqn:Hl; [|reflexivity].
  unfold bind, put_conversation, _save_conversations_index, ret; simpl.
  rewrite lookup_insert_eq, delete_insert_eq. repeat split.
Qed.

(** X6.  [create_conversation] names the new conversation by the
    decimal text of the clock value in whole seconds, makes it the
    active one, stores it with no messages, zero counters, the two
    timestamps equal and the default title when none (or an empty one)
    is given, and writes the index.  Whatever was stored under that id
    before is replaced; the other conversations are as before. *)
Theorem create_conversation_effect (w : World) (title_arg : option str) :
  let r := create_conversation title_arg w in
  fst r = str_of_Z (py_int (time_time w (tick w)))
  /\ current_conversation_id (snd r) = Some (fst r)
  /\ (exists conv, conversations (snd r) !! fst r = Some conv
        /\ conv_id conv = fst r
        /\ get_messages conv = []
        /\ get_likes conv = 0 /\ get_dislikes conv = 0
        /\ created_at conv = updated_at conv
        /\ updated_at conv = datetime_now w (S (tick w))
        /\ title conv = match title_arg with
                        | Some (c :: t) => c :: t
                        | _ => default_title
                        end)
  /\ delete (fst r) (conversations (snd r)) = delete (fst r) (conversations w)
  /\ index_json (snd r) = conversations (snd r).
Proof.
  unfold create_conversation, bind, time_now, now, put_conversation,
    _save_conversations_index, ret; simpl.
  rewrite lookup_insert_eq, delete_insert_eq.
  split; [reflexivity|]. split; [reflexivity|]. split; [|auto].
  eexists. split; [reflexivity|]. simpl.
  destruct title_arg as [[|c t]|]; repeat split.
Qed.

(** X7.  Two creations within the same clock second get the same id:
    the second replaces the conversation the first created, and the
    message stored in between is gone.  (The second creation reads the
    clock four readings after the first: creating takes two readings
    and the append two more.) *)
Theorem create_conversation_same_second (w : World) (r : Role) (c : str) :
  py_int (time_time w (tick w + 4)%nat) = py_int (time_time w (tick w)) ->
  is_blank c = false ->
  let first := create_conversation None w in
  let w1 := snd (add_message (fst first) r c (snd first)) in
  let second := create_conversation None w1 in
  fst second = fst first
  /\ length (stored_messages w1 (fst first)) = 1%nat
  /\ stored_messages (snd second) (fst first) = [].
Proof.
  intros Hsame Hb first w1 second.
  set (id0 := str_of_Z (py_int (time_time w (tick w)))).
  set (conv0 := mkConversation id0 default_title (datetime_now w (S (tick w)))
                               (datetime_now w (S (tick w)))
                               (Some []) (Some 0) (Some 0)).
  assert (Hfst : fst first = id0) by reflexivity.
  assert (Hl : conversations (snd first) !! id0 = Some conv0).
  { unfold first, create_conversation, bind, time_now, now, put_conversation,
      _save_conversations_index, ret; simpl. apply lookup_insert_eq. }
  assert (Htick : tick (snd first) = S (S (tick w))) by reflexivity.
  assert (Htime : time_time (snd first) = time_time w) by reflexivity.
  assert (Hadd : add_message id0 r c (snd first)
                 = (true, appended id0 conv0 r c (snd first))).
  { apply add_message_fresh; [exact Hl | exact Hb | reflexivity]. }
  assert (Hw1 : w1 = appended id0 conv0 r c (snd first)).
  { unfold w1. rewrite Hfst, Hadd. reflexivity. }
  assert (Htick1 : tick w1 = (tick w + 4)%nat).
  { rewrite Hw1. change (tick (appended id0 conv0 r c (snd first)))
      with (S (S (tick (snd first)))). rewrite Htick. lia. }
  assert (Htime1 : time_time w1 = time_time w) by (rewrite Hw1; exact Htime).
  assert (Hid : fst second = id0).
  { change (fst second) with (str_of_Z (py_int (time_time w1 (tick w1)))).
    rewrite Htick1, Htime1, Hsame. reflexivity. }
  rewrite Hfst. split; [exact Hid|]. split.
  - rewrite Hw1. unfold stored_messages. rewrite appended_lookup.
    reflexivity.
  - rewrite <- Hid. unfold stored_messages, second, create_conversation, bind,
      time_now, now, put_conversation, _save_conversations_index, ret; simpl.
    now rewrite lookup_insert_eq.
Qed.

Lemma create_conversation_same_second_witness :
  let w := world_frozen (conversation_of default_title []) endpoint_down in
  let first := create_conversation None w in
  let w1 := snd (add_message (fst first) User hello (snd first)) in
  fst (create_conversation None w1) = fst first
  /\ stored_messages (snd (create_conversation None w1)) (fst first) = [].
Proof.
  intros w first w1.
  destruct (create_conversation_same_second w User hello eq_refl eq_refl)
    as (H1 & _ & H3).
  split; [exact H1 | exact H3].
Defined.

(** ** Loading and deleting from the interface *)

(** X8.  [load_conversation] with nothing selected returns an empty
    history and changes nothing.  Otherwise it makes the selected id the
    active one without touching the store, and returns the stored
    messages as (role, content) entries in order, the title and the
    statistics line; for an id that is not in the store these are the
    empty history, the empty title and the line with two zeros, and the
    active id then names no conversation. *)
Theorem load_conversation_effect (w : World) (s : Selected) :
  if nothing_selected s
  then load_conversation s w = (([], [], stats_text 0 0), w)
  else
    let r := load_conversation s w in
    current_conversation_id (snd r) = Some (selected_id s)
    /\ conversations (snd r) = conversations w
    /\ index_json (snd r) = index_json w
    /\ match conversations w !! selected_id s with
       | Some conv =>
           fst r = (map (fun m => mkChatMsg (role m) (content m))
                        (stored_messages w (selected_id s)),
                    title conv,
                    stats_text (get_likes conv) (get_dislikes conv))
           /\ fst (fst (fst r)) = get_conversation_history (selected_id s) w
           /\ active_known (snd r)
       | None =>
           fst r = ([], [], stats_text 0 0)
           /\ (truthy (selected_id s) = true -> ~ active_known (snd r))
       end.
Proof.
  unfold load_conversation.
  destruct (nothing_selected s); [reflexivity|].
  unfold bind, get_conversation_history, get_conversation,
    get_conversation_stats, stored_messages, active_known; simpl.
  split; [reflexivity|]. split; [reflexivity|]. split; [reflexivity|].
  generalize (selected_id s). intros id.
  destruct (conversations w !! id) as [conv|] eqn:Hl; simpl.
  - split; [reflexivity|]. split; [reflexivity|].
    destruct id; [exact I | eauto].
  - split; [reflexivity|]. intros Ht.
    destruct id as [|c t]; [discriminate|]. simpl.
    apply eq_None_not_Some. exact Hl.
Qed.

(** X9.  Loading a conversation after a storing append shows the
    appended entry last: the history returned is the one from before
    the append followed by that (role, content) entry. *)
Theorem load_after_append (w : World) (cid : str) (conv : Conversation)
    (r : Role) (c : str) :
  conversations w !! cid = Some conv ->
  truthy cid = true ->
  is_blank c = false ->
  duplicates_last (get_messages conv) r c = false ->
  let w1 := snd (add_message cid r c w) in
  fst (fst (fst (load_conversation (ById cid) w1)))
  = get_conversation_history cid w ++ [mkChatMsg r c]
  /\ get_conversation_history cid w1
     = get_conversation_history cid w ++ [mkChatMsg r c].
Proof.
  intros Hl Ht Hb Hd w1. subst w1.
  rewrite (add_message_fresh w cid r c conv Hl Hb Hd). simpl.
  unfold load_conversation. simpl. rewrite Ht. simpl.
  unfold bind, get_conversation_history, get_conversation. simpl.
  rewrite lookup_insert_eq, Hl.
  change (get_messages
            (set_updated_at (datetime_now w (S (tick w)))
               (set_messages
                  (get_messages conv ++ [mkMessage r c (datetime_now w (tick w))])
                  conv)))
    with (get_messages conv ++ [mkMessage r c (datetime_now w (tick w))]).
  rewrite map_app. split; reflexivity.
Qed.

Lemma load_after_append_witness :
  let w := world_of (conversation_of default_title [msg_hello]) endpoint_down in
  get_conversation_history cid1 (snd (add_message cid1 Assistant hi_dot w))
  = [mkChatMsg User hello; mkChatMsg Assistant hi_dot].
Proof.
  intros w.
  exact (proj2 (load_after_append w cid1
                  (conversation_of default_title [msg_hello])
                  Assistant hi_dot eq_refl eq_refl eq_refl eq_refl)).
Defined.

(** X10.  The handler that deletes a conversation always hands the
    interface an empty title, an empty chat display and the statistics
    line with two zeros.  With nothing selected it leaves the store and
    the active id of the manager as they are, but the id it returns for
    the id state of the session is the empty string.  Otherwise it
    removes the selected conversation and creates a new, empty one,
    named by the clock, which becomes the active conversation and whose
    id it returns: afterwards the store is the old one without the
    selected id and with the new conversation, the active id is in the
    store, and the store is not empty. *)
Theorem ui_delete_conversation_effect (w : World) (s : Selected) :
  let r := ui_delete_conversation s w in
  snd (fst (fst (fst r))) = []
  /\ snd (fst (fst r)) = []
  /\ snd (fst r) = stats_text 0 0
  /\ if nothing_selected s
     then fst (fst (fst (fst r))) = [] /\ snd r = w
     else
       let w0 := snd (delete_conversation (selected_id s) w) in
       let new_id := str_of_Z (py_int (time_time w (tick w))) in
       fst (fst (fst (fst r))) = new_id
       /\ current_conversation_id (snd r) = Some new_id
       /\ conversations w0 = delete (selected_id s) (conversations w)
       /\ delete new_id (conversations (snd r))
          = delete new_id (conversations w0)
       /\ stored_messages (snd r) new_id = []
       /\ is_Some (conversations (snd r) !! new_id)
       /\ conversations (snd r) <> ∅
       /\ index_json (snd r) = conversations (snd r).
Proof.
  cbn zeta. unfold ui_delete_conversation.
  destruct (nothing_selected s); [repeat split|].
  unfold bind, delete_conversation.
  destruct (conversations w !! selected_id s) as [conv|] eqn:Hl.
  - unfold bind, _save_conversations_index, ret, create_conversation,
      time_now, now, put_conversation, stored_messages; simpl.
    rewrite lookup_insert_eq, delete_insert_eq. repeat split; eauto.
    apply insert_non_empty.
  - unfold bind, _save_conversations_index, ret, create_conversation,
      time_now, now, put_conversation, stored_messages; simpl.
    rewrite lookup_insert_eq, delete_insert_eq. repeat split; eauto.
    + symmetry. now apply delete_id.
    + apply insert_non_empty.
Qed.

(** ** Stream reconstructor: the sequence of snapshots *)

Lemma extends_refl (a : Snapshot) : extends a a.
Proof. split; reflexivity. Qed.

Lemma extends_trans (a b c : Snapshot) : extends a b -> extends b c -> extends a c.
Proof. intros [H1 H2] [H3 H4]. split; etrans; eauto. Qed.

Lemma stream_step_chain (chunk : Chunk) (st : StreamState) (w : World) :
  let r := fst (stream_step chunk st w) in
  StronglySorted extends (snd r)
  /\ Forall (fun y => extends (snapshot_of st) y
                      /\ extends y (snapshot_of (fst r))) (snd r)
  /\ extends (snapshot_of st) (snapshot_of (fst r))
  /\ (length (snd r) + pending (fst r)
      <= pending st + length (reasoning_fragments [chunk])
         + length (content_fragments [chunk]))%nat
  /\ (length (reasoning_fragments [chunk]) <= length (snd r))%nat.
Proof.
  unfold stream_step, step_reasoning, step_content, append_content, bind, ret,
    time_now, snapshot_of, extends, pending, reasoning_fragments,
    content_fragments.
  destruct chunk as [[rc|] [c|]]; simpl;
    try destruct (should_yield _ _ _ _); simpl;
    repeat match goal with
           | |- _ /\ _ => split
           | |- StronglySorted _ _ => constructor
           | |- Forall _ _ => constructor
           | |- _ `prefix_of` _ => first [reflexivity | apply prefix_app_r; reflexivity]
           end;
    try (destruct (buffer st); destruct c; simpl; lia);
    try (destruct (buffer st); simpl; lia).
Qed.

Lemma stream_loop_chain (stream : list Chunk) :
  forall (st : StreamState) (w : World),
  let r := fst (stream_loop stream st w) in
  StronglySorted extends (snd r)
  /\ Forall (fun y => extends (snapshot_of st) y
                      /\ extends y (snapshot_of (fst r))) (snd r)
  /\ extends (snapshot_of st) (snapshot_of (fst r))
  /\ (length (snd r) + pending (fst r)
      <= pending st + length (reasoning_fragments stream)
         + length (content_fragments stream))%nat
  /\ (length (reasoning_fragments stream) <= length (snd r))%nat.
Proof.
  induction stream as [|chunk rest IH]; intros st w; simpl.
  - unfold ret; simpl. repeat split; try constructor; try reflexivity; lia.
  - pose proof (stream_step_chain chunk st w) as Hstep.
    unfold bind, ret.
    destruct (stream_step chunk st w) as [[st1 ys1] w1]. simpl in Hstep.
    destruct Hstep as (Hs1 & Hb1 & He1 & Hc1 & Hr1).
    specialize (IH st1 w1). simpl.
    destruct (stream_loop rest st1 w1) as [[st2 ys2] w2]. simpl in IH |- *.
    destruct IH as (Hs2 & Hb2 & He2 & Hc2 & Hr2).
    split; [|split; [|split; [|split]]].
    + apply StronglySorted_app_2; auto.
      intros x1 x2 Hx1 Hx2.
      rewrite Forall_forall in Hb1, Hb2.
      eapply extends_trans; [apply (Hb1 x1 Hx1) | apply (Hb2 x2 Hx2)].
    + apply Forall_app. split.
      * eapply Forall_impl; [exact Hb1|]. intros y [Hy1 Hy2].
        split; [exact Hy1 | eapply extends_trans; eauto].
      * eapply Forall_impl; [exact Hb2|]. intros y [Hy1 Hy2].
        split; [eapply extends_trans; eauto | exact Hy2].
    + eapply extends_trans; eauto.
    + unfold reasoning_fragments, content_fragments in *. simpl in *.
      rewrite length_app.
      destruct (delta_reasoning_content chunk), (delta_content chunk);
        simpl in *; lia.
    + unfold reasoning_fragments in *. simpl in *. rewrite length_app.
      destruct (delta_reasoning_content chunk); simpl in *; lia.
Qed.

(** X11.  The snapshots [process_stream_response] yields are
    cumulative: in each snapshot the reasoning and the content extend
    those of every earlier snapshot, and all of them are beginnings of
    the pair the generator returns. *)
Theorem process_stream_response_cumulative (w : World) (stream : list Chunk) :
  let r := fst (process_stream_response stream w) in
  StronglySorted extends (fst r)
  /\ Forall (fun y => extends y (snd r)) (fst r).
Proof.
  unfold process_stream_response, bind, ret, time_now, final_flush.
  pose proof (stream_loop_chain stream
                (mkStreamState [] [] [] (time_time w (tick w)) 0)
                (set_tick (S (tick w)) w)) as H.
  destruct (stream_loop _ _ _) as [[st ys] w']. simpl in H |- *.
  destruct H as (Hs & Hb & _).
  assert (Hup : Forall (fun y => extends y (snapshot_of st)) ys).
  { eapply Forall_impl; [exact Hb|]. now intros y [_ Hy]. }
  destruct (truthy (buffer st)).
  - split.
    + apply StronglySorted_app_2; auto; [|repeat constructor].
      intros x1 x2 Hx1 Hx2. apply list_elem_of_singleton in Hx2 as ->.
      rewrite Forall_forall in Hup. now apply Hup.
    + apply Forall_app. split; [exact Hup|].
      constructor; [apply extends_refl | constructor].
  - rewrite app_nil_r. auto.
Qed.

(** X12.  [process_stream_response] yields at least one snapshot for
    every reasoning fragment and never more snapshots than there are
    fragments, reasoning and content together. *)
Theorem process_stream_response_count (w : World) (stream : list Chunk) :
  let n := length (fst (fst (process_stream_response stream w))) in
  (length (reasoning_fragments stream) <= n)%nat
  /\ (n <= length (reasoning_fragments stream)
           + length (content_fragments stream))%nat.
Proof.
  unfold process_stream_response, bind, ret, time_now, final_flush.
  pose proof (stream_loop_chain stream
                (mkStreamState [] [] [] (time_time w (tick w)) 0)
                (set_tick (S (tick w)) w)) as H.
  destruct (stream_loop _ _ _) as [[st ys] w']. simpl in H |- *.
  destruct H as (_ & _ & _ & Hc & Hr).
  unfold pending in Hc. simpl in Hc. rewrite length_app.
  destruct (truthy (buffer st)); simpl in *; lia.
Qed.

(** ** Response generation: successful and stray turns *)

Lemma final_content_of_snoc (ys : list Snapshot) (y : Snapshot) :
  final_content_of (ys ++ [y])
  = if truthy (snd y) then snd y else final_content_of ys.
Proof. unfold final_content_of. now rewrite fold_left_app. Qed.

Lemma final_content_of_empty (ys : list Snapshot) :
  Forall (fun y => snd y = []) ys -> final_content_of ys = [].
Proof.
  induction ys as [|y ys IH] using rev_ind; intros H; [reflexivity|].
  apply Forall_app in H as [H1 H2]. apply Forall_inv in H2.
  destruct y as [yr yc]. simpl in H2. subst yc.
  rewrite final_content_of_snoc. simpl. auto.
Qed.

Lemma final_content_of_last (ys : list Snapshot) (all : str) :
  Forall (fun y => snd y `prefix_of` all) ys ->
  default [] (last_content None ys) = all ->
  final_content_of ys = all.
Proof.
  destruct ys as [|y ys] using rev_ind; intros Hp Hl.
  - simpl in Hl. now subst.
  - unfold last_content in Hl. rewrite last_snoc in Hl. simpl in Hl.
    rewrite final_content_of_snoc, Hl.
    destruct all as [|c all']; [|reflexivity]. simpl.
    apply Forall_app in Hp as [Hp _]. apply final_content_of_empty.
    eapply Forall_impl; [exact Hp|]. intros z Hz. now apply prefix_nil_inv.
Qed.

(** The snapshots of [process_stream_response]: their last non-empty
    content is the whole content, and the last of them, if any, carries
    it. *)
Lemma process_stream_response_snapshots (stream : list Chunk) (w : World) :
  let ys := fst (fst (process_stream_response stream w)) in
  let all := concat (content_fragments stream) in
  final_content_of ys = all
  /\ default [] (last_content None ys) = all.
Proof.
  unfold process_stream_response, bind, ret, time_now, final_flush.
  assert (Hinit : stream_inv None (mkStreamState [] [] []
                                     (time_time w (tick w)) 0))
    by (split; reflexivity).
  pose proof (stream_loop_inv stream _ (set_tick (S (tick w)) w) None Hinit)
    as Hinv.
  pose proof (stream_loop_chain stream
                (mkStreamState [] [] [] (time_time w (tick w)) 0)
                (set_tick (S (tick w)) w)) as Hch.
  destruct (stream_loop _ _ _) as [[st ys] w']. simpl in Hinv, Hch |- *.
  destruct Hinv as ([Hbuf _] & Hf & _). destruct Hch as (_ & Hb & _).
  simpl in Hf. rewrite <- Hf.
  assert (Hup : Forall (fun y => snd y `prefix_of` full_response st) ys).
  { eapply Forall_impl; [exact Hb|]. intros y [_ [_ Hy]]. exact Hy. }
  assert (Hlast : default [] (last_content None
                     (ys ++ (if truthy (buffer st)
                             then [(reasoning st, full_response st)] else [])))
                  = full_response st).
  { destruct (truthy (buffer st)) eqn:Hb'.
    - unfold last_content. now rewrite last_snoc.
    - rewrite app_nil_r. apply Hbuf. now apply truthy_false_nil. }
  split; [|exact Hlast].
  apply final_content_of_last; [|exact Hlast].
  apply Forall_app. split; [exact Hup|].
  destruct (truthy (buffer st)); [|constructor].
  constructor; [reflexivity | constructor].
Qed.

(** What the append of an assistant reply to the active conversation
    leaves in the store. *)
Lemma add_message_current_reply (v : World) (cid : str) (conv : Conversation)
    (c : str) :
  current_conversation_id v = Some cid ->
  conversations v !! cid = Some conv ->
  let v' := snd (add_message_current Assistant c v) in
  current_conversation_id v' = Some cid
  /\ (is_blank c = true -> stored_messages v' cid = get_messages conv)
  /\ (is_blank c = false ->
      exists m, list.last (stored_messages v' cid) = Some m
                /\ role m = Assistant /\ content m = c)
  /\ (is_blank c = false ->
      (exists mu, list.last (get_messages conv) = Some mu /\ role mu = User) ->
      exists t, stored_messages v' cid
                = get_messages conv ++ [mkMessage Assistant c t]).
Proof.
  intros Hcur Hl v'. subst v'. unfold add_message_current. rewrite Hcur.
  destruct (add_message_outside v cid Assistant c) as [_ Hc].
  split; [congruence|]. split; [|split].
  - intros Hb. destruct (add_message_blank v cid Assistant c Hb) as (_ & H & _).
    now rewrite H, (stored_messages_lookup _ _ _ Hl).
  - intros Hb. now apply add_message_last with conv.
  - intros Hb (mu & Hlast & Hr).
    assert (Hd : duplicates_last (get_messages conv) Assistant c = false).
    { unfold duplicates_last. rewrite Hlast.
      rewrite bool_decide_eq_false_2; [reflexivity | congruence]. }
    rewrite (add_message_fresh v cid Assistant c conv Hl Hb Hd). simpl.
    unfold stored_messages. rewrite appended_lookup. eauto.
Qed.

(** A streamed turn whose first request succeeds: what is yielded and
    what is stored. *)
Lemma generate_response_stream_reply (w : World) (message : str)
    (history : list (str * str)) (model prompt_template : str) (h : Handle) :
  let req := request_of w message history true model prompt_template in
  active_known w ->
  endpoint w (calls w) req = Returns h ->
  let r := generate_response message history true model prompt_template w in
  let before := stored_messages (turn_started message w) in
  let all := concat (content_fragments (events h)) in
  ending (fst r) = Returned
  /\ effects (snd r) = effects w ++ [EffRequest req]
  /\ default [] (last_content None (map snapshot (yielded (fst r)))) = all
  /\ final_content_of (map snapshot (yielded (fst r))) = all
  /\ exists cid,
       current_conversation_id (snd r) = Some cid
       /\ (is_blank all = true -> stored_messages (snd r) cid = before cid)
       /\ (is_blank all = false ->
           exists m, list.last (stored_messages (snd r) cid) = Some m
                     /\ role m = Assistant /\ content m = all)
       /\ (is_blank all = false -> is_blank message = false ->
           exists t, stored_messages (snd r) cid
                     = before cid ++ [mkMessage Assistant all t]).
Proof.
  intros req Hk Hok r before all. subst r before.
  rewrite generate_response_unfold. cbn zeta. fold req.
  destruct (turn_started_outside message w) as (Hc & He & Hep & _).
  destruct (turn_started_known message w Hk) as (cid & conv & Hcur & Hl & Huser).
  set (w2 := turn_started message w) in *.
  rewrite request_loop_run, Hep, Hc, Hok. cbn [fst snd after_loop].
  set (w3 := after_attempts 1 req w2).
  unfold bind, ret. cbn [fst snd].
  pose proof (process_stream_response_world (events h) w3) as [Ho Hs].
  pose proof (process_stream_response_snapshots (events h) w3) as [Hfin Hlast].
  cbn zeta in Hfin, Hlast. fold all in Hfin, Hlast.
  destruct (process_stream_response (events h) w3) as [[ys ret] w4].
  cbn [fst snd] in *.
  assert (Hcur4 : current_conversation_id w4 = Some cid).
  { destruct Hs as (_ & H & _). rewrite H. exact Hcur. }
  assert (Hl4 : conversations w4 !! cid = Some conv).
  { destruct Hs as (H & _). rewrite H. exact Hl. }
  assert (Heff4 : effects w4 = effects w ++ [EffRequest req]).
  { destruct Ho as (_ & H & _). rewrite H. simpl. now rewrite He. }
  pose proof (stored_messages_lookup w2 cid conv Hl) as Hbefore.
  pose proof Hfin as Hfin'. rewrite Hfin.
  assert (Hmap : map snapshot (map (fun s => mkYielded s (conversations w3)) ys)
                 = ys).
  { rewrite map_map. simpl. apply map_id. }
  destruct (truthy all) eqn:Ht.
  - pose proof (add_message_current_reply w4 cid conv all Hcur4 Hl4)
      as (Hc5 & Hblank & Hnb & Happ).
    pose proof (add_message_current_outside w4 Assistant all)
      as [(_ & He5 & _) _].
    destruct (add_message_current Assistant all w4) as [b w5].
    cbn [fst snd ending yielded] in *.
    split; [reflexivity|]. split; [rewrite He5; exact Heff4|].
    split; [now rewrite Hmap|]. split; [rewrite Hmap; exact Hfin'|].
    exists cid. rewrite Hbefore. split; [exact Hc5|]. split; [exact Hblank|].
    split; [exact Hnb|]. intros Hb Hm. apply Happ; [exact Hb|].
    destruct (Huser Hm) as (mu & Hmu & Hr & _). eauto.
  - cbn [fst snd ending yielded].
    split; [reflexivity|]. split; [exact Heff4|]. split; [now rewrite Hmap|].
    split; [rewrite Hmap; exact Hfin'|].
    exists cid. rewrite Hbefore, (stored_messages_lookup w4 cid conv Hl4).
    apply truthy_false_nil in Ht.
    split; [exact Hcur4|]. split; [reflexivity|].
    split; intros Hb; rewrite Ht in Hb; discriminate.
Qed.

(** X13.  A streamed turn whose first request succeeds.  With the
    active conversation (if any is set) in the store,
    [generate_response] makes that one request and no sleep and yields
    the snapshots of the stream, the last of which carries the
    concatenation of all content fragments.  When that text is blank
    nothing is stored for the reply; otherwise the active conversation
    ends with an assistant message holding exactly that text, which is
    appended after the user message of the turn when this message is
    not blank. *)
Theorem generate_response_stream_success (w : World) (message : str)
    (history : list (str * str)) (model prompt_template : str) (h : Handle) :
  let req := request_of w message history true model prompt_template in
  active_known w ->
  endpoint w (calls w) req = Returns h ->
  let r := generate_response message history true model prompt_template w in
  let before := stored_messages (turn_started message w) in
  let all := concat (content_fragments (events h)) in
  ending (fst r) = Returned
  /\ effects (snd r) = effects w ++ [EffRequest req]
  /\ default [] (last_content None (map snapshot (yielded (fst r)))) = all
  /\ exists cid,
       current_conversation_id (snd r) = Some cid
       /\ (is_blank all = true -> stored_messages (snd r) cid = before cid)
       /\ (is_blank all = false ->
           exists m, list.last (stored_messages (snd r) cid) = Some m
                     /\ role m = Assistant /\ content m = all)
       /\ (is_blank all = false -> is_blank message = false ->
           exists t, stored_messages (snd r) cid
                     = before cid ++ [mkMessage Assistant all t]).
Proof.
  intros req Hk Hok r before all.
  destruct (generate_response_stream_reply w message history model
              prompt_template h Hk Hok)
    as (He & Heff & Hlast & _ & cid & Hcur & H1 & H2 & H3).
  split; [exact He|]. split; [exact Heff|]. split; [exact Hlast|].
  exists cid. split; [exact Hcur|]. split; [exact H1|]. split; [exact H2|].
  exact H3.
Qed.

Lemma generate_response_stream_success_witness :
  let w := world_of (conversation_of default_title []) (endpoint_streams hi_dot) in
  let r := generate_response hello [] true [] [] w in
  (content <$> stored_messages (snd r) cid1) = [hello; hi_dot]
  /\ (role <$> stored_messages (snd r) cid1) = [User; Assistant].
Proof.
  intros w r.
  destruct (generate_response_stream_success w hello [] [] []
              (mkHandle [content_chunk hi_dot] []))
    as (_ & _ & _ & cid & Hc & _ & _ & Hs).
  - vm_compute. eauto.
  - reflexivity.
  - destruct (Hs eq_refl eq_refl) as [t Ht].
    assert (Hcid : Some cid1 = Some cid) by (rewrite <- Hc; reflexivity).
    injection Hcid as <-.
    fold w r in Ht. rewrite Ht. split; reflexivity.
Defined.

(** X14.  A turn with [stream_mode=False] whose first request
    succeeds, in a world where the active conversation (if any is set)
    is in the store.  [generate_response] makes that one request and
    yields exactly once, the reasoning and the content of the first
    choice of the response (two empty strings when the response has no
    choice), after the store has been updated.  Blank content is not
    stored; other content ends up as the content of the last,
    assistant, message of the active conversation, appended after the
    user message of the turn when this message is not blank. *)
Theorem generate_response_plain_success (w : World) (message : str)
    (history : list (str * str)) (model prompt_template : str) (h : Handle) :
  let req := request_of w message history false model prompt_template in
  active_known w ->
  endpoint w (calls w) req = Returns h ->
  let r := generate_response message history false model prompt_template w in
  let before := stored_messages (turn_started message w) in
  let rc := match response h with
            | [] => ([], [])
            | m :: _ => (default [] (message_reasoning_content m),
                         default [] (message_content m))
            end in
  ending (fst r) = Returned
  /\ yielded (fst r) = [mkYielded rc (conversations (snd r))]
  /\ effects (snd r) = effects w ++ [EffRequest req]
  /\ exists cid,
       current_conversation_id (snd r) = Some cid
       /\ (is_blank (snd rc) = true -> stored_messages (snd r) cid = before cid)
       /\ (is_blank (snd rc) = false ->
           exists m, list.last (stored_messages (snd r) cid) = Some m
                     /\ role m = Assistant /\ content m = snd rc)
       /\ (is_blank (snd rc) = false -> is_blank message = false ->
           exists t, stored_messages (snd r) cid
                     = before cid ++ [mkMessage Assistant (snd rc) t]).
Proof.
  intros req Hk Hok r before rc. subst r before.
  change rc with (process_non_stream_response (response h)). clear rc.
  set (rc := process_non_stream_response (response h)).
  rewrite generate_response_unfold. cbn zeta. fold req.
  destruct (turn_started_outside message w) as (Hc & He & Hep & _).
  destruct (turn_started_known message w Hk) as (cid & conv & Hcur & Hl & Huser).
  set (w2 := turn_started message w) in *.
  rewrite request_loop_run, Hep, Hc, Hok. cbn [fst snd after_loop]. fold rc.
  set (w3 := after_attempts 1 req w2).
  assert (Hcur3 : current_conversation_id w3 = Some cid) by exact Hcur.
  assert (Hl3 : conversations w3 !! cid = Some conv) by exact Hl.
  assert (Heff3 : effects w3 = effects w ++ [EffRequest req]).
  { unfold w3. simpl. now rewrite He. }
  pose proof (stored_messages_lookup w2 cid conv Hl) as Hbefore.
  unfold bind.
  pose proof (add_message_current_reply w3 cid conv (snd rc) Hcur3 Hl3)
    as (Hc5 & Hblank & Hnb & Happ).
  pose proof (add_message_current_outside w3 Assistant (snd rc))
    as [(_ & He5 & _) _].
  destruct (add_message_current Assistant (snd rc) w3) as [b w5].
  cbn [fst snd ending yielded] in *.
  split; [reflexivity|]. split; [reflexivity|].
  split; [rewrite He5; exact Heff3|].
  exists cid. rewrite Hbefore. split; [exact Hc5|]. split; [exact Hblank|].
  split; [exact Hnb|]. intros Hb Hm. apply Happ; [exact Hb|].
  destruct (Huser Hm) as (mu & Hmu & Hr & _). eauto.
Qed.

Lemma generate_response_plain_success_witness :
  let ep := fun (_ : nat) (_ : Request) =>
              Returns (mkHandle [] [mkChoiceMessage (Some hi_dot) None]) in
  let w := world_of (conversation_of default_title []) ep in
  let r := generate_response hello [] false [] [] w in
  map snapshot (yielded (fst r)) = [([], hi_dot)]
  /\ (content <$> stored_messages (snd r) cid1) = [hello; hi_dot].
Proof.
  intros ep w r.
  destruct (generate_response_plain_success w hello [] [] []
              (mkHandle [] [mkChoiceMessage (Some hi_dot) None]))
    as (_ & Hy & _ & cid & Hc & _ & _ & Hs).
  - vm_compute. eauto.
  - reflexivity.
  - destruct (Hs eq_refl eq_refl) as [t Ht].
    assert (Hcid : Some cid1 = Some cid) by (rewrite <- Hc; reflexivity).
    injection Hcid as <-.
    fold w r in Ht, Hy. rewrite Ht, Hy. split; reflexivity.
Defined.

Lemma add_message_current_dangling (v : World) (cid : str) (r : Role) (c : str) :
  current_conversation_id v = Some cid ->
  conversations v !! cid = None ->
  add_message_current r c v = (false, v).
Proof.
  intros Hc Hl. unfold add_message_current. rewrite Hc.
  now apply add_message_unknown.
Qed.

Lemma after_loop_dangling (a : Attempted) (stream_mode : bool) (v : World)
    (cid : str) :
  current_conversation_id v = Some cid ->
  conversations v !! cid = None ->
  same_store v (snd (after_loop a stream_mode v)).
Proof.
  intros Hc Hl. destruct a as [h|e| |]; simpl.
  - destruct stream_mode.
    + unfold bind, ret.
      pose proof (process_stream_response_world (events h) v) as [_ Hs].
      destruct (process_stream_response (events h) v) as [r v1]. simpl in *.
      destruct (truthy (final_content_of r.1)); [|exact Hs].
      destruct Hs as (H1 & H2 & H3).
      rewrite (add_message_current_dangling v1 cid); simpl;
        [repeat split; assumption | congruence | now rewrite H1].
    + unfold bind. rewrite (add_message_current_dangling v cid) by assumption.
      repeat split.
  - unfold bind. rewrite (add_message_current_dangling v cid) by assumption.
    repeat split.
  - repeat split.
  - repeat split.
Qed.

(** X15.  When the active id is set but names no conversation of the
    store, [generate_response] still makes its requests and yields, but
    stores nothing: neither the user message, nor the reply, nor the
    error text of a failed turn; the store and its index are as
    before. *)
Theorem generate_response_dangling (w : World) (message : str)
    (history : list (str * str)) (stream_mode : bool)
    (model prompt_template : str) (cid : str) :
  current_conversation_id w = Some cid ->
  truthy cid = true ->
  conversations w !! cid = None ->
  let r := generate_response message history stream_mode model
                             prompt_template w in
  conversations (snd r) = conversations w
  /\ index_json (snd r) = index_json w
  /\ current_conversation_id (snd r) = Some cid
  /\ ending (fst r) = Returned
  /\ (effects w `prefix_of` effects (snd r))
  /\ (calls w < calls (snd r))%nat.
Proof.
  intros Hc Ht Hl r. subst r.
  rewrite generate_response_unfold. cbn zeta.
  assert (Hstart : turn_started message w = w).
  { unfold turn_started, ensure_conversation. rewrite Hc.
    destruct cid as [|c0 s]; [discriminate|]. simpl.
    now rewrite (add_message_current_dangling w (c0 :: s)). }
  rewrite Hstart.
  set (req := request_of _ _ _ _ _ _).
  destruct (request_loop_bounded req w) as (n & a & Hn & Hrun & Hf & Hb).
  rewrite Hrun. cbn [fst snd].
  destruct (after_loop_dangling a stream_mode (after_attempts n req w) cid)
    as (H1 & H2 & H3); [exact Hc | exact Hl |].
  destruct (after_loop_outside a stream_mode (after_attempts n req w))
    as (Hca & Hef & _).
  destruct (after_loop_ending a stream_mode (after_attempts n req w) Hf Hb)
    as [He _].
  rewrite H1, H2, H3, Hca, Hef. simpl.
  repeat split; auto; [now apply prefix_app_r | lia].
Qed.

Lemma generate_response_dangling_witness :
  let w := snd (delete_conversation cid1
                  (world_of (conversation_of default_title [msg_hello])
                            endpoint_down)) in
  let r := generate_response hello [] true [] [] w in
  conversations (snd r) = ∅ /\ ending (fst r) = Returned.
Proof.
  intros w r.
  destruct (generate_response_dangling w hello [] true [] [] cid1
              eq_refl eq_refl eq_refl) as (H1 & _ & _ & H4 & _).
  split; [|exact H4]. fold r in H1. rewrite H1. reflexivity.
Defined.

Lemma add_message_current_prefix (v : World) (cid : str) (r : Role) (c : str) :
  stored_messages v cid
  `prefix_of` stored_messages (snd (add_message_current r c v)) cid.
Proof.
  unfold add_message_current.
  destruct (current_conversation_id v) as [cur|]; [|reflexivity].
  destruct (add_message_stored v cur cid r c) as [->|[t ->]];
    [reflexivity | now apply prefix_app_r].
Qed.

Lemma after_loop_grows (a : Attempted) (stream_mode : bool) (v : World)
    (cid : str) :
  stored_messages v cid
  `prefix_of` stored_messages (snd (after_loop a stream_mode v)) cid
  /\ current_conversation_id (snd (after_loop a stream_mode v))
     = current_conversation_id v.
Proof.
  destruct a as [h|e| |]; simpl; try (split; reflexivity).
  - destruct stream_mode.
    + unfold bind, ret.
      pose proof (process_stream_response_world (events h) v) as [_ Hs].
      destruct (process_stream_response (events h) v) as [r v1]. simpl in *.
      rewrite <- (same_store_stored v v1 cid Hs).
      destruct Hs as (_ & Hcur & _). rewrite <- Hcur.
      destruct (truthy (final_content_of r.1)); [|split; reflexivity].
      pose proof (add_message_current_prefix v1 cid Assistant
                    (final_content_of r.1)) as Hp.
      pose proof (add_message_current_outside v1 Assistant
                    (final_content_of r.1)) as [_ Hc].
      destruct (add_message_current _ _ v1) as [b v2]. simpl in *. auto.
    + unfold bind.
      pose proof (add_message_current_prefix v cid Assistant
                    (process_non_stream_response (response h)).2) as Hp.
      pose proof (add_message_current_outside v Assistant
                    (process_non_stream_response (response h)).2) as [_ Hc].
      destruct (add_message_current _ _ v) as [b v2]. simpl in *. auto.
  - unfold bind.
    pose proof (add_message_current_prefix v cid Assistant (final_error_msg e))
      as Hp.
    pose proof (add_message_current_outside v Assistant (final_error_msg e))
      as [_ Hc].
    destruct (add_message_current _ _ v) as [b v2]. simpl in *. auto.
Qed.

(** [generate_response] only ever adds to the stored messages that are
    there once the message of the turn has been appended, and keeps the
    active id. *)
Lemma generate_response_grows (message : str) (history : list (str * str))
    (stream_mode : bool) (model prompt_template : str) (w : World) (cid : str) :
  let r := generate_response message history stream_mode model
                             prompt_template w in
  stored_messages (turn_started message w) cid
  `prefix_of` stored_messages (snd r) cid
  /\ current_conversation_id (snd r)
     = current_conversation_id (turn_started message w).
Proof.
  cbn zeta. rewrite generate_response_unfold. cbn zeta.
  set (req := request_of _ _ _ _ _ _). set (w2 := turn_started message w).
  destruct (request_loop_bounded req w2) as (n & a & _ & Hrun & _).
  rewrite Hrun. cbn [fst snd].
  exact (after_loop_grows a stream_mode (after_attempts n req w2) cid).
Qed.

(** X16.  When no conversation is active (the id is [None] or empty),
    [generate_response] first creates one, named by the clock in whole
    seconds, and makes it the active conversation; a message that is
    not blank becomes its first stored message, and stays the only user
    message of that conversation to the end of the turn.  The other
    conversations are untouched by these first steps. *)
Theorem generate_response_creates_conversation (w : World) (message : str)
    (history : list (str * str)) (stream_mode : bool)
    (model prompt_template : str) :
  truthy (default [] (current_conversation_id w)) = false ->
  is_blank message = false ->
  let new_id := str_of_Z (py_int (time_time w (tick w))) in
  let w2 := turn_started message w in
  let r := generate_response message history stream_mode model
                             prompt_template w in
  current_conversation_id (snd r) = Some new_id
  /\ stored_messages w2 new_id
     = [mkMessage User message (datetime_now w (S (S (tick w))))]
  /\ delete new_id (conversations w2) = delete new_id (conversations w)
  /\ ([mkMessage User message (datetime_now w (S (S (tick w))))]
      `prefix_of` stored_messages (snd r) new_id)
  /\ user_count (stored_messages (snd r) new_id) = 1%nat.
Proof.
  intros Hnone Hb new_id w2 r.
  set (conv0 := mkConversation new_id default_title
                               (datetime_now w (S (tick w)))
                               (datetime_now w (S (tick w)))
                               (Some []) (Some 0) (Some 0)).
  set (w1 := snd (create_conversation None w)).
  assert (Hens : snd (ensure_conversation w) = w1).
  { unfold ensure_conversation.
    destruct (current_conversation_id w) as [[|c s]|]; try reflexivity.
    discriminate. }
  assert (Hl1 : conversations w1 !! new_id = Some conv0).
  { unfold w1, create_conversation, bind, time_now, now, put_conversation,
      _save_conversations_index, ret; simpl. apply lookup_insert_eq. }
  assert (Hcur1 : current_conversation_id w1 = Some new_id) by reflexivity.
  assert (Hadd : add_message new_id User message w1
                 = (true, appended new_id conv0 User message w1)).
  { apply add_message_fresh; [exact Hl1 | exact Hb | reflexivity]. }
  assert (Hw2 : w2 = appended new_id conv0 User message w1).
  { unfold w2, turn_started. rewrite Hens. unfold add_message_current.
    rewrite Hcur1, Hadd. reflexivity. }
  assert (Hst2 : stored_messages w2 new_id
                 = [mkMessage User message (datetime_now w (S (S (tick w))))]).
  { rewrite Hw2. unfold stored_messages. rewrite appended_lookup. reflexivity. }
  destruct (generate_response_grows message history stream_mode model
              prompt_template w new_id) as [Hpre Hcur].
  destruct (generate_response_run message history stream_mode model
              prompt_template w new_id) as (_ & _ & Hcnt).
  fold r w2 in Hpre, Hcur, Hcnt. rewrite Hst2 in Hpre, Hcnt.
  split; [rewrite Hcur, Hw2; reflexivity|]. split; [exact Hst2|].
  split; [|split; [exact Hpre | exact Hcnt]].
  rewrite Hw2. unfold appended. simpl conversations.
  rewrite delete_insert_eq.
  unfold w1, create_conversation, bind, time_now, now, put_conversation,
    _save_conversations_index, ret; simpl.
  apply delete_insert_eq.
Qed.

Lemma generate_response_creates_conversation_witness :
  let w := set_current None
             (world_of (conversation_of default_title []) endpoint_down) in
  let r := generate_response hello [] true [] [] w in
  current_conversation_id (snd r) = Some [48]%N
  /\ user_count (stored_messages (snd r) [48]%N) = 1%nat.
Proof.
  intros w r.
  destruct (generate_response_creates_conversation w hello [] true [] []
              eq_refl eq_refl) as (H1 & _ & _ & _ & H5).
  split; [exact H1 | exact H5].
Defined.

(** ** Title generation: what a title can be *)

Lemma lstrip_with_head (p : char -> bool) (s : str) (c : char) :
  head (lstrip_with p s) = Some c -> p c = false.
Proof.
  induction s as [|a s IH]; simpl; [discriminate|].
  destruct (p a) eqn:Ha; [exact IH|]. simpl. now intros [= <-].
Qed.

Lemma lstrip_with_suffix (p : char -> bool) (s : str) :
  exists k, s = k ++ lstrip_with p s.
Proof.
  induction s as [|a s [k IH]]; simpl; [now exists []|].
  destruct (p a).
  - exists (a :: k). simpl. now rewrite <- IH.
  - now exists [].
Qed.

Lemma rstrip_with_prefix (p : char -> bool) (s : str) :
  rstrip_with p s `prefix_of` s.
Proof.
  unfold rstrip_with. destruct (lstrip_with_suffix p (rev s)) as [k Hk].
  exists (rev k). rewrite <- rev_app_distr, <- Hk. now rewrite rev_involutive.
Qed.

Lemma head_rev_last {A : Type} (l : list A) : head (rev l) = list.last l.
Proof.
  induction l as [|a l IH] using rev_ind; [reflexivity|].
  now rewrite rev_app_distr, last_snoc.
Qed.

(** What [strip] leaves neither begins nor ends with a character of the
    stripped set. *)
Lemma strip_with_ends (p : char -> bool) (s : str) (c : char) :
  (head (strip_with p s) = Some c -> p c = false)
  /\ (list.last (strip_with p s) = Some c -> p c = false).
Proof.
  unfold strip_with. split.
  - intros H. destruct (rstrip_with_prefix p (lstrip_with p s)) as [k Hk].
    apply (lstrip_with_head p s c). rewrite Hk.
    destruct (rstrip_with p (lstrip_with p s)); [discriminate | exact H].
  - unfold rstrip_with. intros H. rewrite <- head_rev_last, rev_involutive in H.
    now apply lstrip_with_head in H.
Qed.


(** X17.  The title [generate_conversation_title] returns is never
    empty and neither begins nor ends with a quote character.  Without
    messages it is the default title and no request is made; otherwise
    exactly one request is made, with [stream=False], and the store is
    left alone. *)
Theorem generate_conversation_title_shape (msgs : list Message) (model : str)
    (w : World) :
  let r := generate_conversation_title msgs model w in
  fst r <> []
  /\ (forall c, head (fst r) = Some c -> is_quote c = false)
  /\ (forall c, list.last (fst r) = Some c -> is_quote c = false)
  /\ same_store w (snd r)
  /\ match msgs with
     | [] => r = (default_title, w)
     | _ :: _ =>
         calls (snd r) = S (calls w)
         /\ exists req, effects (snd r) = effects w ++ [EffRequest req]
                        /\ req_stream req = false
                        /\ req_model req = model
     end.
Proof.
  cbn zeta.
  assert (Hdef : default_title <> []
                 /\ (forall c, head default_title = Some c -> is_quote c = false)
                 /\ (forall c, list.last default_title = Some c
                               -> is_quote c = false)).
  { split; [discriminate|]. split; intros c [= <-]; reflexivity. }
  split; [|split; [|split; [|split]]];
    try apply generate_conversation_title_store;
    unfold generate_conversation_title;
    destruct msgs as [|m ms]; try apply Hdef; try reflexivity;
    unfold bind, create, ret;
    try (destruct (endpoint w (calls w) _) as [e|h]; simpl;
         [apply Hdef|];
         destruct (response h) as [|cm ?]; [apply Hdef|];
         destruct (message_content cm) as [c0|]; [|apply Hdef];
         simpl;
         destruct (strip_with is_quote (strip c0)) as [|a t] eqn:Hs; simpl;
         [apply Hdef|]).
  - discriminate.
  - intros c [= <-].
    apply (proj1 (strip_with_ends is_quote (strip c0) a)). now rewrite Hs.
  - intros c Hc.
    apply (proj2 (strip_with_ends is_quote (strip c0) c)). now rewrite Hs.
  - destruct (endpoint w (calls w) _) as [e|h]; simpl.
    + split; [reflexivity|]. eexists. split; [reflexivity|]. split; reflexivity.
    + destruct (response h) as [|cm ?];
        [|destruct (message_content cm)];
        (split; [reflexivity|]; eexists; split; [reflexivity|];
         split; reflexivity).
Qed.



(** ** Sending from the interface *)

Lemma consume_result (base : list ChatMsg) (ys : list Snapshot) :
  forall am thinking : str,
  let r := consume base ys am thinking in
  snd (fst r)
  = fold_left (fun acc y => if truthy (snd y) then snd y else acc) ys am
  /\ length (fst (fst r)) = length ys
  /\ (forall o, list.last (fst (fst r)) = Some o ->
        out_chatbot o = base ++ [mkChatMsg Assistant (snd (fst r))]).
Proof.
  induction ys as [|[th c] ys IH]; intros am thinking; simpl.
  - repeat split. discriminate.
  - specialize (IH (if truthy c then c else am) th).
    destruct (consume base ys _ th) as [[outs am'] th'] eqn:E. simpl in *.
    destruct IH as (IH1 & IH2 & IH3). split; [exact IH1|].
    split; [now rewrite IH2|]. intros o Ho.
    destruct outs as [|o' outs'].
    + simpl in Ho. injection Ho as <-. simpl.
      destruct ys; [simpl in IH1; now subst | discriminate].
    + apply IH3. exact Ho.
Qed.

Lemma update_last_message_stored (v : World) (cid c : str) (conv : Conversation)
    (m : Message) :
  conversations v !! cid = Some conv ->
  list.last (get_messages conv) = Some m ->
  stored_messages (snd (update_last_message cid c v)) cid
  = removelast (get_messages conv)
    ++ [mkMessage (role m) c (datetime_now v (tick v))].
Proof.
  intros Hl Hlast. unfold update_last_message. rewrite Hl, Hlast.
  run_store. unfold stored_messages. simpl.
  now rewrite insert_insert_eq, lookup_insert_eq.
Qed.

Lemma get_conversation_history_stored (v : World) (cid : str) :
  get_conversation_history cid v
  = map (fun m => mkChatMsg (role m) (content m)) (stored_messages v cid).
Proof.
  unfold get_conversation_history, get_conversation, stored_messages.
  now destruct (conversations v !! cid).
Qed.

Lemma is_blank_false_truthy (c : str) : is_blank c = false -> truthy c = true.
Proof. destruct c; [discriminate | reflexivity]. Qed.

(** In a session whose conversation is the active one and ends with the
    user message of the turn, the first steps of [generate_response]
    change nothing. *)
Lemma turn_started_in_sync (v : World) (cid : str) (conv : Conversation)
    (msgs : list Message) (m : Message) :
  current_conversation_id v = Some cid ->
  truthy cid = true ->
  conversations v !! cid = Some conv ->
  messages conv = Some msgs ->
  list.last msgs = Some m ->
  role m = User ->
  turn_started (content m) v = v.
Proof.
  intros Hc Ht Hl Hm Hlast Hr.
  unfold turn_started, ensure_conversation. rewrite Hc.
  destruct cid as [|c0 s]; [discriminate|]. simpl.
  unfold add_message_current. rewrite Hc, <- Hr.
  now apply add_message_repeat with conv msgs.
Qed.

Lemma respond_stream_unfold (message : str) (chat_history : list ChatMsg)
    (cid : str) (model prompt_template : str)
    (message_history : list (list ChatMsg)) (current_index : Z) (w : World) :
  truthy message = true ->
  truthy cid = true ->
  respond message chat_history (Some cid) true model prompt_template
          message_history current_index w
  = let chat1 := chat_history ++ [mkChatMsg User message] in
    let w1 := snd (add_message cid User message w) in
    let g := generate_response message (pair_history chat1) true model
                               prompt_template w1 in
    let c := consume chat1 (map snapshot (yielded (fst g))) [] [] in
    let am := snd (fst c) in
    (mkTurn (mkGenRun (map with_refresh (fst (fst c))) (ending (fst g)))
            (Some cid) (message_history ++ [chat1])
            (Z.of_nat (length (message_history ++ [chat1])) - 1),
     match ending (fst g) with
     | Returned =>
         if truthy am
         then snd (update_title_with_ai cid model
                     (snd (update_last_message cid am (snd g))))
         else snd g
     | _ => snd g
     end).
Proof.
  intros Htm Ht. unfold respond. rewrite Htm.
  change (negb true) with false. cbv iota.
  destruct cid as [|c0 s]; [discriminate|].
  cbn zeta. unfold bind, ret.
  destruct (add_message (c0 :: s) User message w) as [b w1]. cbn [fst snd].
  destruct (generate_response _ _ true _ _ w1) as [g w5]. cbn [fst snd].
  destruct (consume _ _ [] []) as [[outs am] thinking]. cbn [fst snd].
  destruct (ending g); try reflexivity.
  destruct (truthy am); [|reflexivity].
  destruct (update_last_message (c0 :: s) am w5) as [b6 w6]. cbn [snd].
  destruct (update_title_with_ai (c0 :: s) model w6) as [b7 w7]. reflexivity.
Qed.

(** X20.  A streamed send that succeeds at the first request, in a
    session whose conversation id is the active one and in the store,
    with a message that is not blank and does not repeat the last
    stored message, and a reply that is not blank.  The display and the
    stored conversation gain the same two entries, the user message and
    an assistant entry holding the whole reply; the history stack gains
    one snapshot, the display with the user message, and the index
    points at it. *)
Theorem respond_stream_success (w : World) (message : str)
    (chat_history : list ChatMsg) (cid : str) (conv : Conversation)
    (model prompt_template : str) (message_history : list (list ChatMsg))
    (current_index : Z) (h : Handle) :
  let chat1 := chat_history ++ [mkChatMsg User message] in
  let all := concat (content_fragments (events h)) in
  is_blank message = false ->
  truthy cid = true ->
  current_conversation_id w = Some cid ->
  conversations w !! cid = Some conv ->
  duplicates_last (get_messages conv) User message = false ->
  endpoint w (calls w)
           (request_of w message (pair_history chat1) true model prompt_template)
  = Returns h ->
  is_blank all = false ->
  let r := respond message chat_history (Some cid) true model prompt_template
                   message_history current_index w in
  ending (turn_run (fst r)) = Returned
  /\ (exists o, list.last (yielded (turn_run (fst r))) = Some o
                /\ out_chatbot o
                   = chat_history ++ [mkChatMsg User message;
                                      mkChatMsg Assistant all])
  /\ get_conversation_history cid (snd r)
     = get_conversation_history cid w
       ++ [mkChatMsg User message; mkChatMsg Assistant all]
  /\ turn_message_history (fst r) = message_history ++ [chat1]
  /\ turn_index (fst r) = Z.of_nat (length message_history)
  /\ turn_conversation_id (fst r) = Some cid.
Proof.
  intros chat1 all Hb Ht Hcur Hl Hd Hok Hall r.
  assert (Eall : all = concat (content_fragments (events h))) by reflexivity.
  clearbody all.
  pose proof (is_blank_false_truthy _ Hb) as Htm.
  pose proof (is_blank_false_truthy _ Hall) as Hta.
  (* the user message is appended *)
  pose proof (add_message_fresh w cid User message conv Hl Hb Hd) as Hadd.
  set (w1 := appended cid conv User message w) in *.
  set (mu := mkMessage User message (datetime_now w (tick w))).
  assert (Hl1 : conversations w1 !! cid
                = Some (set_updated_at (datetime_now w (S (tick w)))
                          (set_messages (get_messages conv ++ [mu]) conv)))
    by apply appended_lookup.
  assert (Hcur1 : current_conversation_id w1 = Some cid) by exact Hcur.
  assert (Hst1 : stored_messages w1 cid = get_messages conv ++ [mu]).
  { unfold stored_messages. now rewrite Hl1. }
  assert (Hstart : turn_started message w1 = w1).
  { change message with (content mu) at 1.
    eapply (turn_started_in_sync w1 cid _ _ mu);
      [exact Hcur1 | exact Ht | exact Hl1 | reflexivity | apply last_snoc
      | reflexivity]. }
  assert (Hk1 : active_known w1).
  { unfold active_known. rewrite Hcur1.
    destruct cid; [exact I | eexists; exact Hl1]. }
  (* the turn *)
  assert (Hok1 : endpoint w1 (calls w1)
                   (request_of w1 message (pair_history chat1) true model
                               prompt_template) = Returns h) by exact Hok.
  destruct (generate_response_stream_reply w1 message (pair_history chat1)
              model prompt_template h Hk1 Hok1)
    as (Hend & _ & Hlast & Hfin & cid' & Hcur5 & _ & _ & Happ).
  rewrite <- Eall in Hlast, Hfin, Happ.
  destruct (generate_response_grows message (pair_history chat1) true model
              prompt_template w1 cid) as [_ Hcurg].
  rewrite Hstart in Happ, Hcurg.
  assert (cid' = cid) by congruence. subst cid'.
  destruct (Happ Hall Hb) as [t Hst5]. rewrite Hst1 in Hst5.
  (* the handler *)
  subst r. rewrite (respond_stream_unfold _ _ _ _ _ _ _ _ Htm Ht).
  cbn zeta. rewrite Hadd. cbn [snd]. fold chat1.
  destruct (generate_response message (pair_history chat1) true model
              prompt_template w1) as [g w5].
  cbn [fst snd] in *.
  pose proof (consume_result chat1 (map snapshot (yielded g)) [] [])
    as (Ham & Hlen & Hout).
  cbn zeta in Ham, Hlen, Hout.
  destruct (consume chat1 (map snapshot (yielded g)) [] [])
    as [[outs am] thinking]. cbn [fst snd] in *.
  fold (final_content_of (map snapshot (yielded g))) in Ham.
  rewrite Hfin in Ham. subst am. rewrite Hend, Hta.
  (* the stored reply is rewritten, the title set *)
  assert (Hl5 : exists conv5, conversations w5 !! cid = Some conv5
                              /\ get_messages conv5
                                 = get_messages conv
                                   ++ [mu; mkMessage Assistant all t]).
  { unfold stored_messages in Hst5.
    destruct (conversations w5 !! cid) as [conv5|] eqn:E.
    - exists conv5. split; [reflexivity|]. rewrite Hst5.
      now rewrite <- app_assoc.
    - destruct (get_messages conv); discriminate. }
  destruct Hl5 as (conv5 & Hl5 & Hm5).
  assert (Hlast5 : list.last (get_messages conv5)
                   = Some (mkMessage Assistant all t)).
  { rewrite Hm5. change [mu; mkMessage Assistant all t]
      with ([mu] ++ [mkMessage Assistant all t]).
    rewrite app_assoc. apply last_snoc. }
  pose proof (update_last_message_stored w5 cid all conv5 _ Hl5 Hlast5) as Hup.
  pose proof (update_title_with_ai_stored
                (snd (update_last_message cid all w5)) cid cid model) as Htitle.
  cbn [fst snd turn_run turn_message_history turn_index
       turn_conversation_id ending yielded].
  split; [reflexivity|]. split; [|split; [|split; [reflexivity|split]]].
  - assert (Hne : outs <> []).
    { intros ->. simpl in Hlen. symmetry in Hlen.
      apply length_zero_iff_nil in Hlen. rewrite Hlen in Hlast.
      simpl in Hlast. rewrite <- Hlast in Hta. discriminate. }
    destruct (exists_last Hne) as (outs' & o & ->).
    exists (with_refresh o). rewrite map_app. simpl. rewrite last_snoc.
    split; [reflexivity|]. simpl.
    rewrite (Hout o (last_snoc _ _)). unfold chat1.
    now rewrite <- app_assoc.
  - rewrite !get_conversation_history_stored, Htitle, Hup, Hm5.
    rewrite (stored_messages_lookup w cid conv Hl).
    change [mu; mkMessage Assistant all t]
      with ([mu] ++ [mkMessage Assistant all t]).
    rewrite app_assoc, removelast_last, !map_app. simpl.
    now rewrite <- app_assoc.
  - rewrite length_app. simpl. lia.
  - reflexivity.
Qed.

Lemma respond_stream_success_witness :
  let w := world_of (conversation_of default_title []) (endpoint_streams hi_dot) in
  let r := respond hello [] (Some cid1) true [] [] [] (-1) w in
  get_conversation_history cid1 (snd r)
  = [mkChatMsg User hello; mkChatMsg Assistant hi_dot]
  /\ turn_index (fst r) = 0.
Proof.
  intros w r.
  destruct (respond_stream_success w hello [] cid1
              (conversation_of default_title []) [] [] [] (-1)
              (mkHandle [content_chunk hi_dot] [])
              eq_refl eq_refl eq_refl eq_refl eq_refl eq_refl eq_refl)
    as (_ & _ & H3 & _ & H5 & _).
  split; [exact H3 | exact H5].
Defined.

(** ** Title update, likes from the interface *)

Lemma generate_conversation_title_nonempty (msgs : list Message) (model : str)
    (w : World) :
  fst (generate_conversation_title msgs model w) <> [].
Proof.
  unfold generate_conversation_title.
  destruct msgs as [|m ms]; [discriminate|].
  unfold bind, create, ret.
  destruct (endpoint w (calls w) _) as [e|h]; simpl; [discriminate|].
  destruct (response h) as [|cm ?]; [discriminate|].
  destruct (message_content cm) as [c0|]; [|discriminate]. simpl.
  destruct (strip_with is_quote (strip c0)); discriminate.
Qed.

(** X19.  [update_title_with_ai] on a known conversation with at least
    two messages returns true and sets the title to what
    [generate_conversation_title] returns for its messages, a title
    that is never empty; it makes one request and writes the index.
    The messages, the counters and also [updated_at] of the
    conversation stay as they are, as do the other conversations.  With
    fewer than two messages, or on an unknown id, it returns false,
    makes no request and changes nothing. *)
Theorem update_title_with_ai_effect (w : World) (cid model : str) :
  match conversations w !! cid with
  | Some conv =>
      if (2 <=? length (get_messages conv))%nat then
        let r := update_title_with_ai cid model w in
        let new_title :=
          fst (generate_conversation_title (get_messages conv) model w) in
        fst r = true
        /\ conversations (snd r) !! cid = Some (set_title new_title conv)
        /\ new_title <> []
        /\ updated_at (set_title new_title conv) = updated_at conv
        /\ stored_messages (snd r) cid = get_messages conv
        /\ get_conversation_stats cid (snd r) = get_conversation_stats cid w
        /\ delete cid (conversations (snd r)) = delete cid (conversations w)
        /\ index_json (snd r) = conversations (snd r)
        /\ calls (snd r) = S (calls w)
      else update_title_with_ai cid model w = (false, w)
  | None => update_title_with_ai cid model w = (false, w)
  end.
Proof.
  unfold update_title_with_ai, get_conversation_stats, stored_messages.
  destruct (conversations w !! cid) as [conv|] eqn:Hl; [|reflexivity].
  destruct (2 <=? length (get_messages conv))%nat eqn:Hlen; [|reflexivity].
  pose proof (generate_conversation_title_nonempty (get_messages conv) model w)
    as Hne.
  pose proof (generate_conversation_title_store (get_messages conv) model w)
    as (Hs & _).
  assert (Hcalls : calls (snd (generate_conversation_title (get_messages conv)
                                 model w)) = S (calls w)).
  { unfold generate_conversation_title.
    destruct (get_messages conv) as [|m ms]; [discriminate|].
    unfold bind, create, ret.
    destruct (endpoint w (calls w) _) as [e|h]; simpl; [reflexivity|].
    destruct (response h) as [|cm ?]; [reflexivity|].
    now destruct (message_content cm). }
  unfold bind.
  destruct (generate_conversation_title (get_messages conv) model w)
    as [t w1]. cbn [fst snd] in *.
  unfold put_conversation, _save_conversations_index, ret. simpl.
  rewrite Hs, lookup_insert_eq, delete_insert_eq. repeat split; auto.
Qed.

(** X21.  With [stream_mode=False] the generator [generate_response]
    yields exactly once and ends, on every path.  [respond] and
    [retry_last_message] unpack it into two names: whenever they get
    as far as calling it, they end with [ValueError] and give the
    interface no output, after the generator has run to its end. *)
Theorem plain_mode_raises (w : World) (message : str)
    (chat_history : list ChatMsg) (cid : str) (model prompt_template : str)
    (message_history : list (list ChatMsg)) (current_index : Z) :
  (forall history,
     let g := fst (generate_response message history false model
                                     prompt_template w) in
     length (yielded g) = 1%nat /\ ending g = Returned)
  /\ (truthy message = true -> truthy cid = true ->
      turn_run (fst (respond message chat_history (Some cid) false model
                             prompt_template message_history current_index w))
      = mkGenRun [] (Failed ValueError))
  /\ (forall c u, chat_history <> [] -> 0 <= current_index ->
        last_user_message chat_history = Some (c :: u) ->
        fst (retry_last_message chat_history cid false model prompt_template
                                message_history current_index w)
        = mkGenRun [] (Failed ValueError)).
Proof.
  split; [|split].
  - intros history g. subst g.
    destruct (generate_response_run message history false model
                prompt_template w cid) as (He & Hy & _). auto.
  - intros Htm Ht. unfold respond. rewrite Htm.
    change (negb true) with false. cbv iota.
    destruct cid as [|c0 s]; [discriminate|].
    cbn zeta. unfold bind, ret.
    destruct (add_message (c0 :: s) User message w) as [b w1].
    pose proof (generate_response_run message
                  (pair_history (chat_history ++ [mkChatMsg User message]))
                  false model prompt_template w1 []) as (He & _).
    destruct (generate_response _ _ false _ _ w1) as [g w5].
    cbn [fst snd] in *. now rewrite He.
  - intros c u Hne Hidx Hu.
    rewrite (retry_last_message_ready chat_history cid false model
               prompt_template message_history current_index w c u Hne Hidx Hu).
    cbn zeta.
    destruct (regenerate_plain_run
                (fst (remove_trailing_assistant chat_history cid w)) cid
                (c :: u) model prompt_template
                (snd (remove_trailing_assistant chat_history cid w)) [])
      as [H _]. exact H.
Qed.

Lemma plain_mode_raises_witness :
  let ep := fun (_ : nat) (_ : Request) =>
              Returns (mkHandle [] [mkChoiceMessage (Some hi_dot) None]) in
  let w := world_of (conversation_of default_title []) ep in
  let r := respond hello [] (Some cid1) false [] [] [] (-1) w in
  turn_run (fst r) = mkGenRun [] (Failed ValueError)
  /\ get_conversation_history cid1 (snd r)
     = [mkChatMsg User hello; mkChatMsg Assistant hi_dot].
Proof.
  intros ep w r.
  destruct (plain_mode_raises w hello [] cid1 [] [] [] (-1)) as (_ & H & _).
  split; [exact (H eq_refl eq_refl) | reflexivity].
Defined.

(** X25.  [like_message] and [dislike_message] with nothing selected
    change nothing and return the statistics line with two zeros.  On a
    selected conversation of the store the line they return shows the
    counter just raised by one beside the other counter (when the
    selection is a pair whose id is the empty string, the counter is
    raised but the line shows two zeros).  On an id that is not in the
    store nothing changes and the line shows two zeros. *)
Theorem like_message_stats (w : World) (s : Selected) :
  if nothing_selected s
  then like_message s w = (stats_text 0 0, w)
       /\ dislike_message s w = (stats_text 0 0, w)
  else
    match conversations w !! selected_id s with
    | Some conv =>
        fst (like_message s w)
        = (if truthy (selected_id s)
           then stats_text (get_likes conv + 1) (get_dislikes conv)
           else stats_text 0 0)
        /\ fst (dislike_message s w)
           = (if truthy (selected_id s)
              then stats_text (get_likes conv) (get_dislikes conv + 1)
              else stats_text 0 0)
        /\ get_conversation_stats (selected_id s) (snd (like_message s w))
           = (get_likes conv + 1, get_dislikes conv)
        /\ get_conversation_stats (selected_id s) (snd (dislike_message s w))
           = (get_likes conv, get_dislikes conv + 1)
    | None =>
        like_message s w = (stats_text 0 0, w)
        /\ dislike_message s w = (stats_text 0 0, w)
    end.
Proof.
  unfold like_message, dislike_message, update_stats_display.
  destruct (nothing_selected s) eqn:Hn; [split; reflexivity|].
  cbn zeta. cbn [nothing_selected selected_id].
  unfold bind, like_conversation, dislike_conversation, get_conversation_stats.
  destruct (conversations w !! selected_id s) as [conv|] eqn:Hl.
  - run_store. rewrite !insert_insert_eq, !lookup_insert_eq.
    destruct (truthy (selected_id s));
      destruct (likes conv) eqn:E1, (dislikes conv) eqn:E2;
      unfold get_likes, get_dislikes; simpl; rewrite ?E1, ?E2; simpl;
      repeat split; reflexivity.
  - simpl. rewrite Hl. destruct (truthy (selected_id s)); split; reflexivity.
Qed.

(** ** Editing the last user message *)

Lemma replace_last_user_exchange (edited old a : str) (pre : list ChatMsg) :
  replace_last_user edited
    (pre ++ [mkChatMsg User old; mkChatMsg Assistant a])
  = Some (pre ++ [mkChatMsg User edited; mkChatMsg Assistant a]).
Proof.
  unfold replace_last_user. rewrite rev_app_distr. simpl.
  rewrite rev_involutive, <- app_assoc. reflexivity.
Qed.

Lemma update_last_message_known (w : World) (cid c : str) (conv : Conversation)
    (m : Message) :
  conversations w !! cid = Some conv ->
  list.last (get_messages conv) = Some m ->
  let w1 := snd (update_last_message cid c w) in
  exists conv1,
    conversations w1 !! cid = Some conv1
    /\ get_messages conv1
       = removelast (get_messages conv)
         ++ [mkMessage (role m) c (datetime_now w (tick w))]
    /\ current_conversation_id w1 = current_conversation_id w.
Proof.
  intros Hl Hlast. unfold update_last_message. rewrite Hl, Hlast.
  run_store. rewrite insert_insert_eq, lookup_insert_eq.
  eexists. split; [reflexivity|]. split; reflexivity.
Qed.

(** X22.  Let the display end with a user entry followed by an
    assistant reply, and let the stored conversation, the active one,
    end with a user message [mu] followed by an assistant message.
    Saving a non-empty edited text rewrites the user entry of the
    display, but in the store [update_last_message] writes the text over
    the assistant message, which is removed next: when the text is sent
    the stored conversation ends with [mu] as it was.  Sending it
    appends a further user message unless the text is blank or equal to
    the content of [mu]; so over the whole edit the number of stored
    user messages grows by one for a changed, non-blank text, while
    every history shown has the edited entry in place of the old one,
    followed by one assistant entry. *)
Theorem save_edited_message_store (w : World) (pre : list ChatMsg)
    (old a edited : str) (cid : str) (conv : Conversation) (ms : list Message)
    (mu ma : Message) (stream_mode : bool) (model prompt_template : str)
    (message_history : list (list ChatMsg)) (current_index : Z) :
  let chat_history := pre ++ [mkChatMsg User old; mkChatMsg Assistant a] in
  edited <> [] ->
  current_conversation_id w = Some cid ->
  cid <> [] ->
  conversations w !! cid = Some conv ->
  get_messages conv = ms ++ [mu; ma] ->
  role mu = User ->
  role ma = Assistant ->
  let w2 := snd (remove_last_message cid
                   (snd (update_last_message cid edited w))) in
  let r := save_edited_message edited chat_history cid stream_mode model
                               prompt_template message_history
                               current_index w in
  let unchanged := is_blank edited || str_eqb (content mu) edited in
  stored_messages w2 cid = ms ++ [mu]
  /\ (if unchanged
      then stored_messages (turn_started edited w2) cid = ms ++ [mu]
      else stored_messages (turn_started edited w2) cid
           = ms ++ [mu; mkMessage User edited (datetime_now w2 (tick w2))])
  /\ user_count (stored_messages (snd r) cid)
     = (user_count (get_messages conv) + if unchanged then 0 else 1)%nat
  /\ Forall (fun o => exists c,
               out_chatbot o
               = pre ++ [mkChatMsg User edited; mkChatMsg Assistant c])
            (yielded (fst r))
  /\ ending (fst r) = if stream_mode then Returned else Failed ValueError.
Proof.
  intros chat_history Hed Hcur Hcid Hl Hmsgs Hrmu Hrma w2 r unchanged.
  assert (Hlast : list.last (get_messages conv) = Some ma).
  { rewrite Hmsgs. change (ms ++ [mu; ma]) with (ms ++ [mu] ++ [ma]).
    rewrite app_assoc. apply last_snoc. }
  assert (Hrl : removelast (get_messages conv) = ms ++ [mu]).
  { rewrite Hmsgs. change (ms ++ [mu; ma]) with (ms ++ [mu] ++ [ma]).
    rewrite app_assoc. apply removelast_last. }
  (* the text is written over the assistant message *)
  destruct (update_last_message_known w cid edited conv ma Hl Hlast)
    as (conv1 & Hl1 & Hm1 & Hcur1).
  set (w1 := snd (update_last_message cid edited w)) in *.
  rewrite Hrl in Hm1.
  (* which is then removed *)
  assert (Hne1 : get_messages conv1 <> []).
  { rewrite Hm1. intros H. apply app_eq_nil in H as [_ H]. discriminate. }
  destruct (remove_last_message_known w1 cid conv1 Hl1 Hne1)
    as (Hl2 & Hcur2 & _).
  fold w2 in Hl2, Hcur2.
  assert (Hrl1 : removelast (get_messages conv1) = ms ++ [mu]).
  { rewrite Hm1. apply removelast_last. }
  set (conv2 := set_updated_at (datetime_now w1 (tick w1))
                  (set_messages (removelast (get_messages conv1)) conv1)) in *.
  assert (Hm2 : get_messages conv2 = ms ++ [mu]).
  { subst conv2. unfold get_messages. simpl. exact Hrl1. }
  assert (Hstored2 : stored_messages w2 cid = ms ++ [mu]).
  { unfold stored_messages. rewrite Hl2. exact Hm2. }
  (* the text is sent *)
  assert (Hstart : turn_started edited w2
                   = snd (add_message cid User edited w2)).
  { unfold turn_started, ensure_conversation, add_message_current.
    rewrite Hcur2, Hcur1, Hcur. destruct cid as [|c0 s]; [congruence|].
    cbn [snd]. now rewrite Hcur2, Hcur1, Hcur. }
  assert (Hdup : duplicates_last (get_messages conv2) User edited
                 = str_eqb (content mu) edited).
  { unfold duplicates_last. rewrite Hm2, last_snoc.
    now rewrite bool_decide_eq_true_2 by exact Hrmu. }
  assert (Hsent : if unchanged
                  then stored_messages (turn_started edited w2) cid = ms ++ [mu]
                  else stored_messages (turn_started edited w2) cid
                       = ms ++ [mu; mkMessage User edited
                                      (datetime_now w2 (tick w2))]).
  { subst unchanged. rewrite Hstart.
    destruct (is_blank edited) eqn:Hb; cbn [orb].
    - destruct (add_message_blank w2 cid User edited Hb) as (_ & H & _).
      now rewrite H.
    - destruct (str_eqb (content mu) edited) eqn:He.
      + rewrite (add_message_duplicate w2 cid User edited conv2 Hl2 Hb)
          by (now rewrite Hdup).
        exact Hstored2.
      + rewrite (add_message_fresh w2 cid User edited conv2 Hl2 Hb)
          by (now rewrite Hdup).
        cbn [snd]. unfold stored_messages. rewrite appended_lookup.
        unfold get_messages at 1. simpl. rewrite Hm2, <- app_assoc.
        reflexivity. }
  assert (Hcount : user_count (stored_messages (turn_started edited w2) cid)
                   = (user_count (get_messages conv)
                      + if unchanged then 0 else 1)%nat).
  { rewrite Hmsgs. change (ms ++ [mu; ma]) with (ms ++ [mu] ++ [ma]).
    rewrite app_assoc, (user_count_app (ms ++ [mu]) [ma]).
    rewrite (user_count_not_user ma) by congruence.
    destruct unchanged; rewrite Hsent.
    - lia.
    - change (ms ++ [mu; mkMessage User edited (datetime_now w2 (tick w2))])
        with (ms ++ [mu] ++ [mkMessage User edited (datetime_now w2 (tick w2))]).
      rewrite app_assoc, user_count_app. unfold user_count at 2.
      rewrite filter_cons_True by reflexivity. simpl. lia. }
  split; [exact Hstored2|]. split; [exact Hsent|].
  (* the whole edit *)
  assert (Hrun : r = if stream_mode
                     then regenerate_stream (pre ++ [mkChatMsg User edited]) cid
                            edited model prompt_template w2
                     else regenerate_plain (pre ++ [mkChatMsg User edited]) cid
                            edited model prompt_template w2).
  { subst r. unfold save_edited_message.
    destruct edited as [|e0 es]; [congruence|].
    subst chat_history.
    destruct (pre ++ [mkChatMsg User old; mkChatMsg Assistant a]) as [|x l] eqn:E;
      [destruct pre; discriminate|].
    rewrite <- E. rewrite replace_last_user_exchange.
    unfold bind at 1. unfold bind at 1.
    fold w1. unfold ret at 1.
    destruct (update_last_message cid (e0 :: es) w) as [b1 w1'] eqn:Eu.
    subst w1. cbn [snd fst] in *.
    unfold bind. unfold remove_trailing_assistant, ends_with_assistant.
    change (pre ++ [mkChatMsg User (e0 :: es); mkChatMsg Assistant a])
      with (pre ++ [mkChatMsg User (e0 :: es)] ++ [mkChatMsg Assistant a]).
    rewrite app_assoc, last_snoc. cbn [chat_role].
    rewrite bool_decide_eq_true_2 by reflexivity.
    unfold bind, ret. subst w2.
    destruct (remove_last_message cid w1') as [b2 w2'].
    rewrite removelast_last. cbn [snd fst]. now destruct stream_mode. }
  rewrite Hrun. destruct stream_mode.
  - destruct (regenerate_stream_run (pre ++ [mkChatMsg User edited]) cid edited
                model prompt_template w2 cid) as (He & Hout & Hcnt).
    split; [now rewrite Hcnt, Hcount|]. split; [|exact He].
    eapply Forall_impl; [exact Hout|]. intros o [c Ho]. exists c.
    rewrite Ho, <- app_assoc. reflexivity.
  - destruct (regenerate_plain_run (pre ++ [mkChatMsg User edited]) cid edited
                model prompt_template w2 cid) as (Hr & Hcnt).
    split; [now rewrite Hcnt, Hcount|]. rewrite Hr. simpl.
    split; [constructor | reflexivity].
Qed.

Lemma save_edited_message_store_witness :
  let w := world_of (conversation_of default_title [msg_hello; msg_hi])
                    (endpoint_streams hi_dot) in
  let r := save_edited_message hi_dot
             [mkChatMsg User hello; mkChatMsg Assistant hi_dot]
             cid1 true [] [] [] 0 w in
  user_count (stored_messages (snd r) cid1) = 2%nat
  /\ ending (fst r) = Returned.
Proof.
  intros w r.
  pose proof (save_edited_message_store w [] hello hi_dot hi_dot cid1
                (conversation_of default_title [msg_hello; msg_hi])
                [] msg_hello msg_hi true [] [] [] 0) as H.
  cbn zeta in H.
  specialize (H ltac:(discriminate) eq_refl ltac:(discriminate) eq_refl
                eq_refl eq_refl eq_refl).
  destruct H as (_ & _ & Hc & _ & He).
  split; [exact Hc | exact He].
Defined.

(** ** Undo above the oldest entry *)

Lemma undo_repeat_not_positive (n : nat) (w : World) (chat_history : Visible)
    (message_history : list (list ChatMsg)) (current_index : Z) :
  current_index <= 0 ->
  undo_repeat n chat_history message_history current_index w
  = ((chat_history, current_index), w).
Proof.
  intros H. induction n as [|n IH]; [reflexivity|].
  simpl. unfold bind. rewrite undo_last_message_not_positive by exact H.
  exact IH.
Qed.

(** X23.  From an index above 0, [n >= 1] undos in a row step the index
    back by [n] but not below 0, and what they return for the display is
    the history stack cut after the new index, a list of snapshots and
    not one chat history; the display received is dropped.  The world,
    and with it the stored conversation, is left as it was: an undo
    takes nothing back from the store. *)
Theorem undo_repeat_effect (n : nat) (w : World) (chat_history : Visible)
    (message_history : list (list ChatMsg)) (current_index : Z) :
  0 < current_index ->
  (0 < n)%nat ->
  undo_repeat n chat_history message_history current_index w
  = ((Stack (firstn (Z.to_nat (Z.max 1 (current_index - Z.of_nat n + 1)))
                    message_history),
      Z.max 0 (current_index - Z.of_nat n)), w).
Proof.
  revert chat_history current_index.
  induction n as [|n IH]; intros chat_history current_index Hi Hn; [lia|].
  simpl undo_repeat. unfold bind.
  rewrite undo_last_message_positive by exact Hi. cbn [fst snd].
  destruct n as [|n'].
  - simpl undo_repeat. unfold ret.
    replace (Z.max 1 (current_index - Z.of_nat 1 + 1)) with current_index
      by lia.
    replace (Z.max 0 (current_index - Z.of_nat 1)) with (current_index - 1)
      by lia.
    reflexivity.
  - destruct (Z.eq_dec current_index 1) as [->|Hne].
    + rewrite undo_repeat_not_positive by lia.
      replace (Z.max 1 (1 - Z.of_nat (S (S n')) + 1)) with 1 by lia.
      replace (Z.max 0 (1 - Z.of_nat (S (S n')))) with 0 by lia.
      reflexivity.
    + rewrite IH by lia.
      replace (current_index - 1 - Z.of_nat (S n') + 1)
        with (current_index - Z.of_nat (S (S n')) + 1) by lia.
      replace (current_index - 1 - Z.of_nat (S n'))
        with (current_index - Z.of_nat (S (S n'))) by lia.
      reflexivity.
Qed.

Lemma undo_repeat_effect_witness :
  let w := world_of (conversation_of default_title [msg_hello; msg_hi])
                    endpoint_down in
  let h1 := [mkChatMsg User hello] in
  let h2 := [mkChatMsg User hello; mkChatMsg Assistant hi_dot;
             mkChatMsg User hi_dot] in
  undo_repeat 1 (Chat (h2 ++ [mkChatMsg Assistant hello])) [h1; h2] 1 w
  = ((Stack [h1], 0), w).
Proof.
  intros w h1 h2.
  exact (undo_repeat_effect 1 w (Chat (h2 ++ [mkChatMsg Assistant hello]))
           [h1; h2] 1 ltac:(lia) ltac:(lia)).
Defined.

(** ** The history sent with a request *)

Lemma pair_history_cons (a b : ChatMsg) (rest : list ChatMsg) :
  pair_history (a :: b :: rest)
  = (if bool_decide (chat_role a = User)
        && bool_decide (chat_role b = Assistant)
     then [(chat_content a, chat_content b)] else [])
    ++ pair_history (b :: rest).
Proof. reflexivity. Qed.

Lemma pair_history_skip (m : ChatMsg) (l : list ChatMsg) :
  chat_role m <> User -> pair_history (m :: l) = pair_history l.
Proof.
  intros H. destruct l as [|b l]; [reflexivity|].
  rewrite pair_history_cons. now rewrite bool_decide_eq_false_2 by exact H.
Qed.

Lemma pair_history_length (n : nat) :
  forall h : list ChatMsg,
  (length h <= n)%nat -> (2 * length (pair_history h) <= length h)%nat.
Proof.
  induction n as [|n IH]; intros h Hn.
  - destruct h; [simpl; lia | simpl in Hn; lia].
  - destruct h as [|a [|b rest]]; [simpl; lia | simpl; lia |].
    rewrite pair_history_cons, length_app.
    destruct (bool_decide (chat_role a = User)
              && bool_decide (chat_role b = Assistant)) eqn:E.
    + apply andb_true_iff in E as [_ E]. apply bool_decide_eq_true in E.
      rewrite pair_history_skip by congruence.
      assert (H := IH rest ltac:(simpl in Hn; lia)). simpl. lia.
    + assert (H := IH (b :: rest) ltac:(simpl in Hn |- *; lia)).
      simpl in H |- *. lia.
Qed.

(** X24.  The handlers build the history of a request from the display
    with [pair_history].  On a display of alternating user and assistant
    entries, with or without the user entry of the turn at its end, it
    returns exactly the exchanges, so the request [build_messages] makes
    of them is the system prompt followed by the whole display, entry
    for entry.  On any display it returns at most half as many pairs as
    there are entries. *)
Theorem build_messages_whole_display (ps : list (str * str))
    (sys message : str) :
  let display := exchanges ps ++ [mkChatMsg User message] in
  pair_history (exchanges ps) = ps
  /\ pair_history display = ps
  /\ build_messages sys (pair_history display) message
     = (System, sys) :: map (fun m => (chat_role m, chat_content m)) display
  /\ forall h : list ChatMsg,
       (2 * length (pair_history h) <= length h)%nat.
Proof.
  cbn zeta.
  assert (H1 : forall tl, pair_history tl = [] ->
                 pair_history (exchanges ps ++ tl) = ps).
  { intros tl Htl. induction ps as [|[u a] ps IH].
    - exact Htl.
    - change (exchanges ((u, a) :: ps) ++ tl)
        with (mkChatMsg User u :: mkChatMsg Assistant a
              :: (exchanges ps ++ tl)).
      rewrite pair_history_cons. cbn [chat_role chat_content].
      rewrite !bool_decide_eq_true_2 by reflexivity. cbn [andb app].
      rewrite (pair_history_skip (mkChatMsg Assistant a)) by discriminate.
      now rewrite IH. }
  split; [|split; [|split]].
  - rewrite <- (app_nil_r (exchanges ps)). now apply H1.
  - now apply H1.
  - rewrite H1 by reflexivity. unfold build_messages. cbn [app].
    f_equal. rewrite map_app. cbn [map chat_role chat_content]. f_equal.
    clear H1. induction ps as [|[u a] ps IH]; [reflexivity|].
    cbn [flat_map exchanges app fst snd map chat_role chat_content].
    f_equal. f_equal. exact IH.
  - intros h. exact (pair_history_length (length h) h (le_n _)).
Qed.

(** ** Retry: what the run does to the display and to the store *)










